(** * Project Chrono: viewer, GUI and vehicle-part glue code

    A shallow embedding of the routines of the excerpt that the
    specification talks about:

    - [ChVSGApp] (Vulkan scene graph viewer): [GetTransform],
      [BuildSceneGraph], [UpdateSceneGraph], [doTimeStep], [Initialize];
    - [ChIrrEventReceiver::OnEvent] and the [ChIrrGUI] setters;
    - [TrackShoeDoublePin::Create] (JSON loading);
    - [ChVehicleCosimTireNodeRigid::InitializeTire] (vertex areas).

    C++ [double] is IEEE-754 binary64, modelled by the bit-level
    specification [spec_float] of the Standard Library with precision 53
    and maximal exponent 1024; [size_t] is a 64-bit unsigned integer held
    in [Z], its wrap-around written out. *)

From Stdlib Require Import ZArith List Bool String Lia SpecFloat.
Import ListNotations.
Local Open Scope Z_scope.

Local Set Warnings "-register-all".

(* ================================================================== *)
(** * Part I: definitions *)
(* ================================================================== *)

(** ** C++ [double] *)

Module Double.

Definition prec : Z := 53.
Definition emax : Z := 1024.

Definition double : Type := spec_float.

Definition add : double -> double -> double := SFadd prec emax.
Definition sub : double -> double -> double := SFsub prec emax.
Definition mul : double -> double -> double := SFmul prec emax.
Definition div : double -> double -> double := SFdiv prec emax.
Definition sqrt : double -> double := SFsqrt prec emax.

(** [a < b], [a <= b], [a > b], [a >= b] and [a == b] of C++; every
    comparison with a NaN is false. *)
Definition ltb (a b : double) : bool := SFltb a b.
Definition leb (a b : double) : bool := SFleb a b.
Definition gtb (a b : double) : bool := SFltb b a.
Definition geb (a b : double) : bool := SFleb b a.
Definition eqb (a b : double) : bool := SFeqb a b.

Definition is_nan (a : double) : bool :=
  match a with S754_nan => true | _ => false end.

(** A value of the binary64 format: a finite one has a mantissa of at
    most 53 bits and an exponent in range. *)
Definition valid (a : double) : bool := valid_binary prec emax a.

(** Conversion of an integer, rounding to nearest even. *)
Definition of_Z (z : Z) : double := binary_normalize prec emax z 0 false.

Definition zero : double := S754_zero false.
Definition one : double := S754_finite false 4503599627370496 (-52).
(** The literal [0.5]. *)
Definition half : double := S754_finite false 4503599627370496 (-53).

(** The literal [10e-12] (that is, 1e-11) rounded to binary64. *)
Definition lit_10em12 : double := S754_finite false 6189700196426901 (-89).

(** The literals [0.02], [-0.02], [1.5] and [0.001]. *)
Definition lit_0_02 : double := S754_finite false 5764607523034235 (-58).
Definition lit_m0_02 : double := S754_finite true 5764607523034235 (-58).
Definition lit_1_5 : double := S754_finite false 6755399441055744 (-52).
Definition lit_0_001 : double := S754_finite false 4611686018427388 (-62).

(** [size_t(x)]: the fractional part is discarded; the conversion is
    undefined (here [None]) when the truncated value is not representable
    in 64 bits, in particular for a NaN or an infinity. *)
Definition trunc_mag (m : positive) (e : Z) : Z :=
  match e with
  | Z0 => Zpos m
  | Zpos p => Zpos m * 2 ^ Zpos p
  | Zneg p => Zpos m / 2 ^ Zpos p
  end.

Definition to_size_t (x : double) : option Z :=
  match x with
  | S754_zero _ => Some 0
  | S754_finite s m e =>
      let t := trunc_mag m e in
      if s then (if t =? 0 then Some 0 else None)
      else if t <? 2 ^ 64 then Some t else None
  | _ => None
  end.

End Double.

Definition double : Type := Double.double.

(** ** Vectors and quaternions ([ChVector<>], [ChQuaternion<>]) *)

Record ChVector : Type := mkVector { vx : double; vy : double; vz : double }.

Record ChQuaternion : Type :=
  mkQuaternion { e0 : double; e1 : double; e2 : double; e3 : double }.

(** The headers ChVector.h and ChQuaternion.h are not part of the excerpt;
    the operations the code calls are parameters of the development.
    [Q_to_AngAxis], which turns a quaternion into an angle and an axis, is
    kept symbolic: [Q_to_AngAxis q] stands for the pair it yields on [q]. *)
Class ChMath : Type := {
  Vadd : ChVector -> ChVector -> ChVector;        (* operator+ *)
  Vsub : ChVector -> ChVector -> ChVector;        (* operator- *)
  Vcross : ChVector -> ChVector -> ChVector;
  Length : ChVector -> double;
  Rotate : ChQuaternion -> ChVector -> ChVector;  (* q.Rotate(v) *)
  Qcross : ChQuaternion -> ChQuaternion -> ChQuaternion;  (* operator% *)
  Normalize : ChQuaternion -> ChQuaternion
}.

Inductive AngAxis : Type :=
| Q_to_AngAxis (q : ChQuaternion).

(** The textbook operations in double precision; they instantiate the
    parameters wherever a concrete scene or mesh is evaluated. *)
Module Textbook.
Import Double.

Definition Vadd (a b : ChVector) : ChVector :=
  mkVector (add (vx a) (vx b)) (add (vy a) (vy b)) (add (vz a) (vz b)).

Definition Vsub (a b : ChVector) : ChVector :=
  mkVector (sub (vx a) (vx b)) (sub (vy a) (vy b)) (sub (vz a) (vz b)).

Definition Vcross (a b : ChVector) : ChVector :=
  mkVector (sub (mul (vy a) (vz b)) (mul (vz a) (vy b)))
           (sub (mul (vz a) (vx b)) (mul (vx a) (vz b)))
           (sub (mul (vx a) (vy b)) (mul (vy a) (vx b))).

Definition Length (a : ChVector) : double :=
  sqrt (add (add (mul (vx a) (vx a)) (mul (vy a) (vy a))) (mul (vz a) (vz a))).

(** Hamilton product. *)
Definition Qcross (a b : ChQuaternion) : ChQuaternion :=
  mkQuaternion
    (sub (sub (sub (mul (e0 a) (e0 b)) (mul (e1 a) (e1 b))) (mul (e2 a) (e2 b)))
         (mul (e3 a) (e3 b)))
    (sub (add (add (mul (e0 a) (e1 b)) (mul (e1 a) (e0 b))) (mul (e2 a) (e3 b)))
         (mul (e3 a) (e2 b)))
    (add (add (sub (mul (e0 a) (e2 b)) (mul (e1 a) (e3 b))) (mul (e2 a) (e0 b)))
         (mul (e3 a) (e1 b)))
    (add (sub (add (mul (e0 a) (e3 b)) (mul (e1 a) (e2 b))) (mul (e2 a) (e1 b)))
         (mul (e3 a) (e0 b))).

Definition Qconj (a : ChQuaternion) : ChQuaternion :=
  mkQuaternion (e0 a) (SFopp (e1 a)) (SFopp (e2 a)) (SFopp (e3 a)).

(** [q v q*], the vector part of the product. *)
Definition Rotate (q : ChQuaternion) (v : ChVector) : ChVector :=
  let r := Qcross (Qcross q (mkQuaternion zero (vx v) (vy v) (vz v))) (Qconj q) in
  mkVector (e1 r) (e2 r) (e3 r).

Definition Qlength (a : ChQuaternion) : double :=
  sqrt (add (add (add (mul (e0 a) (e0 a)) (mul (e1 a) (e1 a))) (mul (e2 a) (e2 a)))
            (mul (e3 a) (e3 a))).

Definition Normalize (a : ChQuaternion) : ChQuaternion :=
  let n := Qlength a in
  mkQuaternion (div (e0 a) n) (div (e1 a) n) (div (e2 a) n) (div (e3 a) n).

Definition math : ChMath :=
  Build_ChMath Vadd Vsub Vcross Length Rotate Qcross Normalize.

End Textbook.

(** ** Small helpers for fallible code *)

Definition bind {A B : Type} (x : option A) (f : A -> option B) : option B :=
  match x with
  | Some a => f a
  | None => None
  end.

Notation "x <- c ;; k" := (bind c (fun x => k))
  (at level 61, c at next level, right associativity).

(** Splits a successful [x <- c ;; k] into the success of [c] and the
    rest. *)
Ltac bind_inv H :=
  repeat match type of H with
         | bind ?x _ = Some _ =>
             let E := fresh "E" in
             destruct x eqn:E; cbn [bind] in H; [|discriminate H]
         end.

(** [v[i] = x] on a vector: out of range is undefined behaviour. *)
Fixpoint list_set {A : Type} (l : list A) (i : nat) (x : A) : option (list A) :=
  match l, i with
  | [], _ => None
  | _ :: t, O => Some (x :: t)
  | h :: t, S j => t' <- list_set t j x ;; Some (h :: t')
  end.

(* ------------------------------------------------------------------ *)
(** ** The physics side: bodies and their assets *)

(** The address held by a [shared_ptr] or [ref_ptr]; pointers are
    compared by address. *)
Definition Ptr : Type := nat.

Record ChColor : Type :=
  mkColor { cR : double; cG : double; cB : double; cA : double }.

Record PBRSetting : Type :=
  mkPBRSetting { Albedo : ChColor; Metallic : double; Roughness : double; AO : double }.

Record PBRMaps : Type :=
  mkPBRMaps { AlbedoMapPath : string; NormalMapPath : string;
              MetallicMapPath : string; RoughnessMapPath : string;
              AoMapPath : string }.

(** The members of [ChVisualization] the viewer reads: [Pos] and the
    quaternion [Rot.Get_A_quaternion()]. *)
Record ChVisualization : Type :=
  mkVisualization { Pos : ChVector; Rot : ChQuaternion }.

(** The dynamic class of an asset, with the data the viewer reads. The
    four shape classes are siblings below [ChVisualization]. *)
Inductive ChAssetClass : Type :=
| ChBoxShape (vis : ChVisualization) (Size : ChVector)
| ChSphereShape (vis : ChVisualization) (rad : double)
| ChEllipsoidShape (vis : ChVisualization) (rad : ChVector)
| ChCylinderShape (vis : ChVisualization) (rad : double) (p1 p2 : ChVector)
| ChOtherVisualization (vis : ChVisualization)
| ChColorAsset (color : ChColor)
| ChTexture (TextureFilename : string)
| ChPBRSetting (setting : PBRSetting)
| ChPBRMaps (maps : PBRMaps)
| ChOtherAsset.

Record ChAsset : Type :=
  mkAsset { asset_ptr : Ptr; asset_class : ChAssetClass }.

(** A body: its address, [GetFrame_REF_to_abs()] (position and rotation)
    and [GetAssets()]. *)
Record ChBody : Type :=
  mkBody { body_ptr : Ptr; frame_pos : ChVector; frame_rot : ChQuaternion;
           GetAssets : list ChAsset }.

Record ChSystem : Type := mkSystem { Get_bodylist : list ChBody }.

(* ------------------------------------------------------------------ *)
(** ** The rendering side: matrices, nodes, window, viewer *)

(** A [vsg::dmat4], kept as the expression that builds it. *)
Inductive dmat4 : Type :=
| mat_identity
| translate (x y z : double)
| rotate (angle_axis : AngAxis)
| scale (x y z : double)
| mat_mul (a b : dmat4).

(** A possibly null [shared_ptr] or [ref_ptr]. *)
Definition Ref : Type := option Ptr.

(** The values a scene-graph child carries under the keys ["bodyPtr"],
    ["assetPtr"] and ["transform"]: [None] when [getValue] finds no value
    of the requested type under the key, else the pointer stored. The
    transform is a reference to a [vsg::MatrixTransform] object. *)
Record Node : Type :=
  mkNode { bodyPtr : option Ref; assetPtr : option Ref; transform : option Ref }.

Inductive VSGIndexClass : Type := VSGIndexBox | VSGIndexSphere | VSGIndexCylinder.

Inductive ShapeInit : Type :=
| InitTexture (texture : string)
| InitColor (color : ChColor)
| InitPBRSet (setting : PBRSetting)
| InitPBRMaps (maps : PBRMaps)
| InitNone.

(** A [VSGIndexBox], [VSGIndexSphere] or [VSGIndexCylinder] object: the
    constructor arguments and what [Initialize] was called with. *)
Record VSGShape : Type :=
  mkShape { shape_class : VSGIndexClass; shape_body : Ref; shape_asset : Ref;
            shape_transform : Ref; shape_init : ShapeInit }.

Record WindowTraits : Type :=
  mkTraits { windowTitle : string; width : Z; height : Z; traits_x : Z; traits_y : Z }.

Record Window : Type :=
  mkWindow { window_traits : WindowTraits; clearColor : list double }.

Inductive EventHandler : Type := CloseHandler | Trackball.

Record Viewer : Type :=
  mkViewer { viewer_windows : list Window; eventHandlers : list EventHandler;
             commandGraphs : nat; viewer_compiled : bool }.

(** Code the viewer calls that lies outside the excerpt: the dynamics
    step of the solver, [createVSGNode] of the shape classes, and the
    outcome of [vsg::Window::create]. *)
Class Externals : Type := {
  DoStepDynamics : double -> ChSystem -> ChSystem;
  createVSGNode : VSGShape -> Node;
  Window_create : WindowTraits -> option Window
}.

(** Calls whose order the specification talks about. *)
Inductive Call : Type :=
| CallDoStepDynamics (step : double)
| CallUpdateSceneGraph.

(** The members of [ChVSGApp] the functions below read or write.
    [m_transforms] holds the [vsg::MatrixTransform] objects, a reference
    being an index into it; [calls] is the log of the calls made so far.
    A null pointer is [None]. *)
Record ChVSGApp : Type :=
  mkApp { m_timeStep : double; m_outputStep : double; m_build_graph : bool;
          m_wait_counter : Z; m_wait_counter_max : Z;
          m_clearColor : list double;
          m_system : option ChSystem;
          m_windowTraits : option WindowTraits;
          m_scenegraph : option (list Node);
          m_transforms : list dmat4;
          m_viewer : option Viewer;
          m_window : option Window;
          compile_traversal : bool;
          allocatedTextureCount : Z; maxNumTextures : Z;
          scenegraph_compiled : bool;
          calls : list Call }.

(** [ChVSGApp::ChVSGApp()] *)
Definition ChVSGApp_new : ChVSGApp :=
  {| m_timeStep := Double.lit_0_001; m_outputStep := Double.lit_0_001;
     m_build_graph := true; m_wait_counter := 1; m_wait_counter_max := 1;
     m_clearColor := [Double.one; Double.one; Double.one; Double.one];
     m_system := None; m_windowTraits := None; m_scenegraph := None;
     m_transforms := []; m_viewer := None; m_window := None;
     compile_traversal := false; allocatedTextureCount := 0;
     maxNumTextures := 0; scenegraph_compiled := false; calls := [] |}.

(** Assignment to one member. *)
Definition set_m_build_graph (v : bool) (app : ChVSGApp) : ChVSGApp :=
  {| m_timeStep := m_timeStep app; m_outputStep := m_outputStep app;
     m_build_graph := v; m_wait_counter := m_wait_counter app;
     m_wait_counter_max := m_wait_counter_max app; m_clearColor :=
     m_clearColor app; m_system := m_system app; m_windowTraits :=
     m_windowTraits app; m_scenegraph := m_scenegraph app; m_transforms :=
     m_transforms app; m_viewer := m_viewer app; m_window := m_window app;
     compile_traversal := compile_traversal app; allocatedTextureCount :=
     allocatedTextureCount app; maxNumTextures := maxNumTextures app;
     scenegraph_compiled := scenegraph_compiled app; calls := calls app |}.

Definition set_m_wait_counter (v : Z) (app : ChVSGApp) : ChVSGApp :=
  {| m_timeStep := m_timeStep app; m_outputStep := m_outputStep app;
     m_build_graph := m_build_graph app; m_wait_counter := v;
     m_wait_counter_max := m_wait_counter_max app; m_clearColor :=
     m_clearColor app; m_system := m_system app; m_windowTraits :=
     m_windowTraits app; m_scenegraph := m_scenegraph app; m_transforms :=
     m_transforms app; m_viewer := m_viewer app; m_window := m_window app;
     compile_traversal := compile_traversal app; allocatedTextureCount :=
     allocatedTextureCount app; maxNumTextures := maxNumTextures app;
     scenegraph_compiled := scenegraph_compiled app; calls := calls app |}.

Definition set_m_wait_counter_max (v : Z) (app : ChVSGApp) : ChVSGApp :=
  {| m_timeStep := m_timeStep app; m_outputStep := m_outputStep app;
     m_build_graph := m_build_graph app; m_wait_counter := m_wait_counter
     app; m_wait_counter_max := v; m_clearColor := m_clearColor app;
     m_system := m_system app; m_windowTraits := m_windowTraits app;
     m_scenegraph := m_scenegraph app; m_transforms := m_transforms app;
     m_viewer := m_viewer app; m_window := m_window app; compile_traversal
     := compile_traversal app; allocatedTextureCount :=
     allocatedTextureCount app; maxNumTextures := maxNumTextures app;
     scenegraph_compiled := scenegraph_compiled app; calls := calls app |}.

Definition set_m_system (v : option ChSystem) (app : ChVSGApp) : ChVSGApp :=
  {| m_timeStep := m_timeStep app; m_outputStep := m_outputStep app;
     m_build_graph := m_build_graph app; m_wait_counter := m_wait_counter
     app; m_wait_counter_max := m_wait_counter_max app; m_clearColor :=
     m_clearColor app; m_system := v; m_windowTraits := m_windowTraits app;
     m_scenegraph := m_scenegraph app; m_transforms := m_transforms app;
     m_viewer := m_viewer app; m_window := m_window app; compile_traversal
     := compile_traversal app; allocatedTextureCount :=
     allocatedTextureCount app; maxNumTextures := maxNumTextures app;
     scenegraph_compiled := scenegraph_compiled app; calls := calls app |}.

Definition set_m_windowTraits (v : option WindowTraits) (app : ChVSGApp) : ChVSGApp :=
  {| m_timeStep := m_timeStep app; m_outputStep := m_outputStep app;
     m_build_graph := m_build_graph app; m_wait_counter := m_wait_counter
     app; m_wait_counter_max := m_wait_counter_max app; m_clearColor :=
     m_clearColor app; m_system := m_system app; m_windowTraits := v;
     m_scenegraph := m_scenegraph app; m_transforms := m_transforms app;
     m_viewer := m_viewer app; m_window := m_window app; compile_traversal
     := compile_traversal app; allocatedTextureCount :=
     allocatedTextureCount app; maxNumTextures := maxNumTextures app;
     scenegraph_compiled := scenegraph_compiled app; calls := calls app |}.

Definition set_m_scenegraph (v : option (list Node)) (app : ChVSGApp) : ChVSGApp :=
  {| m_timeStep := m_timeStep app; m_outputStep := m_outputStep app;
     m_build_graph := m_build_graph app; m_wait_counter := m_wait_counter
     app; m_wait_counter_max := m_wait_counter_max app; m_clearColor :=
     m_clearColor app; m_system := m_system app; m_windowTraits :=
     m_windowTraits app; m_scenegraph := v; m_transforms := m_transforms
     app; m_viewer := m_viewer app; m_window := m_window app;
     compile_traversal := compile_traversal app; allocatedTextureCount :=
     allocatedTextureCount app; maxNumTextures := maxNumTextures app;
     scenegraph_compiled := scenegraph_compiled app; calls := calls app |}.

Definition set_m_transforms (v : list dmat4) (app : ChVSGApp) : ChVSGApp :=
  {| m_timeStep := m_timeStep app; m_outputStep := m_outputStep app;
     m_build_graph := m_build_graph app; m_wait_counter := m_wait_counter
     app; m_wait_counter_max := m_wait_counter_max app; m_clearColor :=
     m_clearColor app; m_system := m_system app; m_windowTraits :=
     m_windowTraits app; m_scenegraph := m_scenegraph app; m_transforms :=
     v; m_viewer := m_viewer app; m_window := m_window app;
     compile_traversal := compile_traversal app; allocatedTextureCount :=
     allocatedTextureCount app; maxNumTextures := maxNumTextures app;
     scenegraph_compiled := scenegraph_compiled app; calls := calls app |}.

Definition set_m_viewer (v : option Viewer) (app : ChVSGApp) : ChVSGApp :=
  {| m_timeStep := m_timeStep app; m_outputStep := m_outputStep app;
     m_build_graph := m_build_graph app; m_wait_counter := m_wait_counter
     app; m_wait_counter_max := m_wait_counter_max app; m_clearColor :=
     m_clearColor app; m_system := m_system app; m_windowTraits :=
     m_windowTraits app; m_scenegraph := m_scenegraph app; m_transforms :=
     m_transforms app; m_viewer := v; m_window := m_window app;
     compile_traversal := compile_traversal app; allocatedTextureCount :=
     allocatedTextureCount app; maxNumTextures := maxNumTextures app;
     scenegraph_compiled := scenegraph_compiled app; calls := calls app |}.

Definition set_m_window (v : option Window) (app : ChVSGApp) : ChVSGApp :=
  {| m_timeStep := m_timeStep app; m_outputStep := m_outputStep app;
     m_build_graph := m_build_graph app; m_wait_counter := m_wait_counter
     app; m_wait_counter_max := m_wait_counter_max app; m_clearColor :=
     m_clearColor app; m_system := m_system app; m_windowTraits :=
     m_windowTraits app; m_scenegraph := m_scenegraph app; m_transforms :=
     m_transforms app; m_viewer := m_viewer app; m_window := v;
     compile_traversal := compile_traversal app; allocatedTextureCount :=
     allocatedTextureCount app; maxNumTextures := maxNumTextures app;
     scenegraph_compiled := scenegraph_compiled app; calls := calls app |}.

Definition set_compile_traversal (v : bool) (app : ChVSGApp) : ChVSGApp :=
  {| m_timeStep := m_timeStep app; m_outputStep := m_outputStep app;
     m_build_graph := m_build_graph app; m_wait_counter := m_wait_counter
     app; m_wait_counter_max := m_wait_counter_max app; m_clearColor :=
     m_clearColor app; m_system := m_system app; m_windowTraits :=
     m_windowTraits app; m_scenegraph := m_scenegraph app; m_transforms :=
     m_transforms app; m_viewer := m_viewer app; m_window := m_window app;
     compile_traversal := v; allocatedTextureCount := allocatedTextureCount
     app; maxNumTextures := maxNumTextures app; scenegraph_compiled :=
     scenegraph_compiled app; calls := calls app |}.

Definition set_allocatedTextureCount (v : Z) (app : ChVSGApp) : ChVSGApp :=
  {| m_timeStep := m_timeStep app; m_outputStep := m_outputStep app;
     m_build_graph := m_build_graph app; m_wait_counter := m_wait_counter
     app; m_wait_counter_max := m_wait_counter_max app; m_clearColor :=
     m_clearColor app; m_system := m_system app; m_windowTraits :=
     m_windowTraits app; m_scenegraph := m_scenegraph app; m_transforms :=
     m_transforms app; m_viewer := m_viewer app; m_window := m_window app;
     compile_traversal := compile_traversal app; allocatedTextureCount := v;
     maxNumTextures := maxNumTextures app; scenegraph_compiled :=
     scenegraph_compiled app; calls := calls app |}.

Definition set_maxNumTextures (v : Z) (app : ChVSGApp) : ChVSGApp :=
  {| m_timeStep := m_timeStep app; m_outputStep := m_outputStep app;
     m_build_graph := m_build_graph app; m_wait_counter := m_wait_counter
     app; m_wait_counter_max := m_wait_counter_max app; m_clearColor :=
     m_clearColor app; m_system := m_system app; m_windowTraits :=
     m_windowTraits app; m_scenegraph := m_scenegraph app; m_transforms :=
     m_transforms app; m_viewer := m_viewer app; m_window := m_window app;
     compile_traversal := compile_traversal app; allocatedTextureCount :=
     allocatedTextureCount app; maxNumTextures := v; scenegraph_compiled :=
     scenegraph_compiled app; calls := calls app |}.

Definition set_scenegraph_compiled (v : bool) (app : ChVSGApp) : ChVSGApp :=
  {| m_timeStep := m_timeStep app; m_outputStep := m_outputStep app;
     m_build_graph := m_build_graph app; m_wait_counter := m_wait_counter
     app; m_wait_counter_max := m_wait_counter_max app; m_clearColor :=
     m_clearColor app; m_system := m_system app; m_windowTraits :=
     m_windowTraits app; m_scenegraph := m_scenegraph app; m_transforms :=
     m_transforms app; m_viewer := m_viewer app; m_window := m_window app;
     compile_traversal := compile_traversal app; allocatedTextureCount :=
     allocatedTextureCount app; maxNumTextures := maxNumTextures app;
     scenegraph_compiled := v; calls := calls app |}.

Definition set_calls (v : list Call) (app : ChVSGApp) : ChVSGApp :=
  {| m_timeStep := m_timeStep app; m_outputStep := m_outputStep app;
     m_build_graph := m_build_graph app; m_wait_counter := m_wait_counter
     app; m_wait_counter_max := m_wait_counter_max app; m_clearColor :=
     m_clearColor app; m_system := m_system app; m_windowTraits :=
     m_windowTraits app; m_scenegraph := m_scenegraph app; m_transforms :=
     m_transforms app; m_viewer := m_viewer app; m_window := m_window app;
     compile_traversal := compile_traversal app; allocatedTextureCount :=
     allocatedTextureCount app; maxNumTextures := maxNumTextures app;
     scenegraph_compiled := scenegraph_compiled app; calls := v |}.

(* ------------------------------------------------------------------ *)
(** ** [ChVSGApp]: member functions *)

Definition Ref_eqb (a b : Ref) : bool :=
  match a, b with
  | Some x, Some y => Nat.eqb x y
  | None, None => true
  | _, _ => false
  end.

(** [ChVSGApp::GetTransform]: the loop over the children; [result] is
    the local variable [transform], null at first, that is returned in the
    end. *)
Fixpoint GetTransform_loop (children : list Node) (body asset : Ref)
    (result : Ref) : Ref :=
  match children with
  | [] => result
  | myNode :: rest =>
      match bodyPtr myNode, assetPtr myNode with
      | Some bodyInNode, Some assetInNode =>
          if Ref_eqb body bodyInNode && Ref_eqb asset assetInNode then
            match transform myNode with
            | Some t => t                                   (* break *)
            | None => GetTransform_loop rest body asset result
            end
          else GetTransform_loop rest body asset result
      | _, _ => GetTransform_loop rest body asset result
      end
  end.

Definition GetTransform (children : list Node) (body asset : Ref) : Ref :=
  GetTransform_loop children body asset None.

(** A loop whose body may fail. *)
Fixpoint fold_opt {A S : Type} (f : S -> A -> option S) (l : list A) (s : S)
    : option S :=
  match l with
  | [] => Some s
  | a :: rest => s' <- f s a ;; fold_opt f rest s'
  end.

(** What the first loop over the assets of a body finds: the last colour,
    texture, PBR setting and PBR maps among them. A member is [Some]
    exactly when the matching flag ([colorFound], [textureFound],
    [pbrSetFound], [pbrMapsFound]) is set. *)
Record BodyMaterial : Type :=
  mkMaterial { bodyTexture : option string; bodyColor : option ChColor;
               bodyPBRSet : option PBRSetting; bodyPBRMaps : option PBRMaps }.

Definition no_material : BodyMaterial := mkMaterial None None None None.

Definition scan_material (mat : BodyMaterial) (asset : ChAsset) : BodyMaterial :=
  match asset_class asset with
  | ChColorAsset c =>
      mkMaterial (bodyTexture mat) (Some c) (bodyPBRSet mat) (bodyPBRMaps mat)
  | ChTexture f =>
      mkMaterial (Some f) (bodyColor mat) (bodyPBRSet mat) (bodyPBRMaps mat)
  | ChPBRSetting s =>
      mkMaterial (bodyTexture mat) (bodyColor mat) (Some s) (bodyPBRMaps mat)
  | ChPBRMaps m =>
      mkMaterial (bodyTexture mat) (bodyColor mat) (bodyPBRSet mat) (Some m)
  | _ => mat
  end.

(** [if (textureFound) ... else if (colorFound) ... else if (pbrSetFound)
    ... else if (pbrMapsFound) ...] *)
Definition shape_Initialize (mat : BodyMaterial) : ShapeInit :=
  match bodyTexture mat, bodyColor mat, bodyPBRSet mat, bodyPBRMaps mat with
  | Some t, _, _, _ => InitTexture t
  | None, Some c, _, _ => InitColor c
  | None, None, Some s, _ => InitPBRSet s
  | None, None, None, Some m => InitPBRMaps m
  | None, None, None, None => InitNone
  end.

Section Viewer.
Context {math : ChMath} {ext : Externals}.

(** The matrix both [BuildSceneGraph] and [UpdateSceneGraph] compute for
    a shape [vis] of size [size] on [body]. *)
Definition shape_matrix (body : ChBody) (vis : ChVisualization) (size : ChVector)
    : dmat4 :=
  let pos := frame_pos body in
  let rot := frame_rot body in
  let center := Rotate rot (Pos vis) in
  let lrot := Normalize (Qcross rot (Rot vis)) in
  let pos_final := Vadd pos center in
  mat_mul (mat_mul (translate (vx pos_final) (vy pos_final) (vz pos_final))
                   (rotate (Q_to_AngAxis lrot)))
          (scale (vx size) (vy size) (vz size)).

(** The size handed to [vsg::scale] for each of the four shape classes. *)
Definition box_size (Size : ChVector) : ChVector := Size.
Definition sphere_size (rad : double) : ChVector := mkVector rad rad rad.
Definition ellipsoid_size (rad : ChVector) : ChVector :=
  mkVector (vx rad) (vy rad) (vz rad).
Definition cylinder_size (rad : double) (p1 p2 : ChVector) : ChVector :=
  let dir := Vsub p1 p2 in
  let height := Length dir in
  mkVector rad rad height.

(** One shape branch of [BuildSceneGraph]: create the transform, set its
    matrix, create the shape object and add its node to the scene graph.
    The state is the pair of the transform objects and the children. *)
Definition add_shape (cls : VSGIndexClass) (body : ChBody) (asset : ChAsset)
    (mat : BodyMaterial) (vis : ChVisualization) (size : ChVector)
    (sc : list dmat4 * list Node) : list dmat4 * list Node :=
  let transform := List.length (fst sc) in
  let shape := mkShape cls (Some (body_ptr body)) (Some (asset_ptr asset))
                       (Some transform) (shape_Initialize mat) in
  (fst sc ++ [shape_matrix body vis size], snd sc ++ [createVSGNode shape]).

(** The dynamic class of the asset is [ChVisualization] or below it:
    [std::dynamic_pointer_cast<ChVisualization>(asset)] is not null. *)
Definition is_ChVisualization (c : ChAssetClass) : bool :=
  match c with
  | ChBoxShape _ _ | ChSphereShape _ _ | ChEllipsoidShape _ _
  | ChCylinderShape _ _ _ _ | ChOtherVisualization _ => true
  | _ => false
  end.

(** The body of the second loop over the assets. The asset is cast to
    [ChVisualization*] without a check and its [Pos] and [Rot] are read
    before the four [if]s: on an asset of another class this is undefined. *)
Definition build_asset (body : ChBody) (mat : BodyMaterial)
    (sc : list dmat4 * list Node) (asset : ChAsset)
    : option (list dmat4 * list Node) :=
  if negb (is_ChVisualization (asset_class asset)) then None
  else
  let sc1 := match asset_class asset with
             | ChBoxShape vis Size =>
                 add_shape VSGIndexBox body asset mat vis (box_size Size) sc
             | _ => sc
             end in
  let sc2 := match asset_class asset with
             | ChSphereShape vis rad =>
                 add_shape VSGIndexSphere body asset mat vis (sphere_size rad) sc1
             | _ => sc1
             end in
  let sc3 := match asset_class asset with
             | ChEllipsoidShape vis rad =>
                 add_shape VSGIndexSphere body asset mat vis (ellipsoid_size rad) sc2
             | _ => sc2
             end in
  Some match asset_class asset with
       | ChCylinderShape vis rad p1 p2 =>
           add_shape VSGIndexCylinder body asset mat vis
                     (cylinder_size rad p1 p2) sc3
       | _ => sc3
       end.

Definition build_body (sc : list dmat4 * list Node) (body : ChBody)
    : option (list dmat4 * list Node) :=
  let mat := fold_left scan_material (GetAssets body) no_material in
  fold_opt (build_asset body mat) (GetAssets body) sc.

(** [ChVSGApp::BuildSceneGraph]; dereferencing a null [m_system] or
    [m_scenegraph] is undefined. *)
Definition BuildSceneGraph (app : ChVSGApp) : option ChVSGApp :=
  sys <- m_system app ;;
  children <- m_scenegraph app ;;
  sc <- fold_opt build_body (Get_bodylist sys) (m_transforms app, children) ;;
  Some (set_m_build_graph false
          (set_m_scenegraph (Some (snd sc)) (set_m_transforms (fst sc) app))).

(** One shape branch of [UpdateSceneGraph]: look the transform up and set
    its matrix; a null [tm] cannot be dereferenced. *)
Definition update_shape (children : list Node) (body : ChBody) (asset : ChAsset)
    (vis : ChVisualization) (size : ChVector) (transforms : list dmat4)
    : option (list dmat4) :=
  match GetTransform children (Some (body_ptr body)) (Some (asset_ptr asset)) with
  | Some tm => list_set transforms tm (shape_matrix body vis size)
  | None => None
  end.

Definition update_asset (children : list Node) (body : ChBody)
    (transforms : list dmat4) (asset : ChAsset) : option (list dmat4) :=
  if negb (is_ChVisualization (asset_class asset)) then Some transforms (* continue *)
  else
  t1 <- match asset_class asset with
        | ChBoxShape vis Size =>
            update_shape children body asset vis (box_size Size) transforms
        | _ => Some transforms
        end ;;
  t2 <- match asset_class asset with
        | ChSphereShape vis rad =>
            update_shape children body asset vis (sphere_size rad) t1
        | _ => Some t1
        end ;;
  t3 <- match asset_class asset with
        | ChEllipsoidShape vis rad =>
            update_shape children body asset vis (ellipsoid_size rad) t2
        | _ => Some t2
        end ;;
  match asset_class asset with
  | ChCylinderShape vis rad p1 p2 =>
      update_shape children body asset vis (cylinder_size rad p1 p2) t3
  | _ => Some t3
  end.

Definition update_body (children : list Node) (transforms : list dmat4)
    (body : ChBody) : option (list dmat4) :=
  fold_opt (update_asset children body) (GetAssets body) transforms.

(** [ChVSGApp::UpdateSceneGraph] *)
Definition UpdateSceneGraph (app : ChVSGApp) : option ChVSGApp :=
  sys <- m_system app ;;
  children <- m_scenegraph app ;;
  transforms <- fold_opt (update_body children) (Get_bodylist sys)
                         (m_transforms app) ;;
  Some (set_calls (calls app ++ [CallUpdateSceneGraph])
          (set_m_transforms transforms app)).

(** [m_wait_counter++] on a 64-bit [size_t], then the reset. *)
Definition IncreaseWaitCounter (app : ChVSGApp) : ChVSGApp :=
  let counter := (m_wait_counter app + 1) mod 2 ^ 64 in
  if counter >? m_wait_counter_max app then set_m_wait_counter 1 app
  else set_m_wait_counter counter app.

(** [ChVSGApp::doTimeStep] *)
Definition doTimeStep (app : ChVSGApp) : option ChVSGApp :=
  sys <- m_system app ;;
  let app1 :=
    set_calls (calls app ++ [CallDoStepDynamics (m_timeStep app)])
      (set_m_system (Some (DoStepDynamics (m_timeStep app) sys)) app) in
  app2 <- (if m_wait_counter app1 =? m_wait_counter_max app1
           then UpdateSceneGraph app1 else Some app1) ;;
  Some (IncreaseWaitCounter app2).

(** [n] calls of [doTimeStep] in a row. *)
Fixpoint doTimeSteps (n : nat) (app : ChVSGApp) : option ChVSGApp :=
  match n with
  | O => Some app
  | S k => app' <- doTimeStep app ;; doTimeSteps k app'
  end.

(** [ChVSGApp::Initialize]. The result is [None] where the C++ is
    undefined (the conversion to [size_t] of a quotient out of range). The
    search paths read from the environment and the camera placed from the
    bounds of the scene are not part of the state. *)
Definition Initialize (windowWidth windowHeight : Z) (title : string)
    (system : option ChSystem) (app : ChVSGApp) : option (bool * ChVSGApp) :=
  match system with
  | None => Some (false, app)
  | Some sys =>
      let traits := mkTraits title windowWidth windowHeight 100 100 in
      let app := set_m_scenegraph (Some [])
                   (set_m_windowTraits (Some traits)
                      (set_m_system (Some sys) app)) in
      wait_max <- (if Double.leb (m_outputStep app) (m_timeStep app) then Some 1
                   else Double.to_size_t
                          (Double.div (m_outputStep app) (m_timeStep app))) ;;
      let app := set_m_wait_counter_max wait_max app in
      app <- BuildSceneGraph app ;;
      let app := set_m_viewer (Some (mkViewer [] [] 0 false)) app in
      let app := set_m_window (Window_create traits) app in
      match m_window app with
      | None => Some (false, app)
      | Some window =>
          let window := mkWindow (window_traits window) (m_clearColor app) in
          let app := set_m_window (Some window) app in
          (* setupTexPool(m_window, ..., 128) and compile(m_scenegraph) *)
          let app := set_maxNumTextures 128
                       (set_allocatedTextureCount 0
                          (set_compile_traversal true app)) in
          let app := set_scenegraph_compiled true app in
          let app := set_m_viewer
                       (Some (mkViewer [window] [CloseHandler; Trackball] 1 true))
                       app in
          Some (true, app)
      end
  end.

End Viewer.

(* ------------------------------------------------------------------ *)
(** ** The Irrlicht GUI: [ChIrrGUI] and [ChIrrEventReceiver] *)

(** The key codes and GUI event types the receiver tells apart; every
    other code of the Irrlicht enumerations is [KEY_OTHER] or
    [EGET_OTHER]. *)
Inductive EKEY_CODE : Type :=
| KEY_KEY_I | KEY_KEY_O | KEY_KEY_U | KEY_SPACE
| KEY_F8 | KEY_F6 | KEY_F7 | KEY_F4 | KEY_F3 | KEY_F2
| KEY_ESCAPE | KEY_F12
| KEY_OTHER (code : Z).

Inductive EGUI_EVENT_TYPE : Type :=
| EGET_EDITBOX_ENTER
| EGET_SCROLL_BAR_CHANGED
| EGET_OTHER (code : Z).

Record SKeyInput : Type := mkKeyInput { Key : EKEY_CODE; PressedDown : bool }.

(** A GUI event with what the receiver reads from its caller: [getID()],
    [atof] of [getText()] when it is taken for an edit box, and [getPos()]
    when it is taken for a scroll bar. *)
Record SGUIEvent : Type :=
  mkGUIEvent { Caller_getID : Z; GUI_EventType : EGUI_EVENT_TYPE;
               Caller_atof_getText : double; Caller_getPos : Z }.

Inductive SEvent : Type :=
| EET_KEY_INPUT_EVENT (KeyInput : SKeyInput)
| EET_GUI_EVENT (GUIEvent : SGUIEvent)
| EET_OTHER_EVENT (code : Z).

(** A user-registered [irr::IEventReceiver]: a name to tell receivers
    apart and its [OnEvent]. *)
Record IEventReceiver : Type :=
  mkReceiver { receiver_name : nat; receiver_OnEvent : SEvent -> bool }.

(** What a key handler does outside the members of the GUI. *)
Inductive GuiEffect : Type :=
| SaveJSON (file : string)
| SaveAsciiDump (file : string)
| CallDumpSystemMatrices
| CallCloseDevice.

(** [m_vis->GetCameraVertical()] *)
Inductive CameraVerticalDir : Type := Dir_Y | Dir_Z.

(** The calls made on the [postprocess::ChBlender] exporter. *)
Inductive ChBlenderCall : Type :=
| SetBasePath (path : string)
| AddAll
| SetBlenderUp_is_ChronoZ
| SetBlenderUp_is_ChronoY
| ExportScript
| ExportData.

(** The members of [ChIrrGUI] the receiver, the setters and the scene
    functions touch, together with the state they reach through [m_vis],
    [m_system] and the edit boxes ([g_symbolscale] and the like hold the
    number last printed into the box). [offered] logs, in order, the names
    of the user receivers that were given an event; [effects] logs the
    other calls. [blender_exporter] is the log of the calls made on the
    exporter, [None] while the pointer is null; [drawProfiler] counts the
    calls of [tools::drawProfiler]. [blender_each] and [blender_num] are
    declared in ChIrrGUI.h, which is not part of the excerpt; they are
    taken to be [int]s. *)
Record ChIrrGUI : Type :=
  mkGUI { show_explorer : bool; show_infos : bool; show_profiler : bool;
          modal_mode_n : Z; modal_amplitude : double; modal_speed : double;
          symbolscale : double; camera_auto_rotate_speed : double;
          blender_save : bool;
          g_symbolscale : double; g_modal_amplitude : double;
          g_modal_speed : double;
          UtilityFlag : bool; SolverMatrixWriteEnabled : bool;
          m_user_receivers : list IEventReceiver;
          offered : list nat; effects : list GuiEffect;
          blender_each : Z; blender_num : Z;
          blender_exporter : option (list ChBlenderCall);
          GetCameraVertical : CameraVerticalDir;
          drawProfiler : nat }.

(** Modelled from the spec: [ChMax] (chrono/core/ChMathematics.h, which is
    not part of the excerpt) is a parameter. What the claims say of it,
    that it is the maximum of its two arguments, is [ChMax_is_max] below,
    a hypothesis of the theorems that need it. *)
Class ChMathematics : Type := {
  ChMax : double -> double -> double
}.

Definition INT_MAX : Z := 2 ^ 31 - 1.
Definition INT_MIN : Z := - 2 ^ 31.

Definition set_symbolscale (v shown : double) (g : ChIrrGUI) : ChIrrGUI :=
  mkGUI (show_explorer g) (show_infos g) (show_profiler g) (modal_mode_n g)
        (modal_amplitude g) (modal_speed g) v (camera_auto_rotate_speed g)
        (blender_save g) shown (g_modal_amplitude g) (g_modal_speed g)
        (UtilityFlag g) (SolverMatrixWriteEnabled g) (m_user_receivers g)
        (offered g) (effects g) (blender_each g) (blender_num g)
        (blender_exporter g) (GetCameraVertical g) (drawProfiler g).

Definition set_modal_amplitude (v shown : double) (g : ChIrrGUI) : ChIrrGUI :=
  mkGUI (show_explorer g) (show_infos g) (show_profiler g) (modal_mode_n g)
        v (modal_speed g) (symbolscale g) (camera_auto_rotate_speed g)
        (blender_save g) (g_symbolscale g) shown (g_modal_speed g)
        (UtilityFlag g) (SolverMatrixWriteEnabled g) (m_user_receivers g)
        (offered g) (effects g) (blender_each g) (blender_num g)
        (blender_exporter g) (GetCameraVertical g) (drawProfiler g).

Definition set_modal_speed (v shown : double) (g : ChIrrGUI) : ChIrrGUI :=
  mkGUI (show_explorer g) (show_infos g) (show_profiler g) (modal_mode_n g)
        (modal_amplitude g) v (symbolscale g) (camera_auto_rotate_speed g)
        (blender_save g) (g_symbolscale g) (g_modal_amplitude g) shown
        (UtilityFlag g) (SolverMatrixWriteEnabled g) (m_user_receivers g)
        (offered g) (effects g) (blender_each g) (blender_num g)
        (blender_exporter g) (GetCameraVertical g) (drawProfiler g).

Definition set_show (explorer infos profiler : bool)
    (g : ChIrrGUI) : ChIrrGUI :=
  mkGUI explorer infos profiler (modal_mode_n g) (modal_amplitude g)
        (modal_speed g) (symbolscale g) (camera_auto_rotate_speed g)
        (blender_save g) (g_symbolscale g) (g_modal_amplitude g)
        (g_modal_speed g) (UtilityFlag g) (SolverMatrixWriteEnabled g)
        (m_user_receivers g) (offered g) (effects g) (blender_each g)
        (blender_num g) (blender_exporter g) (GetCameraVertical g)
        (drawProfiler g).

Definition set_modal_mode_n (n : Z) (g : ChIrrGUI) : ChIrrGUI :=
  mkGUI (show_explorer g) (show_infos g) (show_profiler g) n
        (modal_amplitude g) (modal_speed g) (symbolscale g)
        (camera_auto_rotate_speed g) (blender_save g) (g_symbolscale g)
        (g_modal_amplitude g) (g_modal_speed g) (UtilityFlag g)
        (SolverMatrixWriteEnabled g) (m_user_receivers g) (offered g)
        (effects g) (blender_each g) (blender_num g) (blender_exporter g)
        (GetCameraVertical g) (drawProfiler g).

Definition set_camera_auto_rotate_speed (v : double)
    (g : ChIrrGUI) : ChIrrGUI :=
  mkGUI (show_explorer g) (show_infos g) (show_profiler g) (modal_mode_n g)
        (modal_amplitude g) (modal_speed g) (symbolscale g) v
        (blender_save g) (g_symbolscale g) (g_modal_amplitude g)
        (g_modal_speed g) (UtilityFlag g) (SolverMatrixWriteEnabled g)
        (m_user_receivers g) (offered g) (effects g) (blender_each g)
        (blender_num g) (blender_exporter g) (GetCameraVertical g)
        (drawProfiler g).

Definition set_flags (utility matrix_write : bool)
    (g : ChIrrGUI) : ChIrrGUI :=
  mkGUI (show_explorer g) (show_infos g) (show_profiler g) (modal_mode_n g)
        (modal_amplitude g) (modal_speed g) (symbolscale g)
        (camera_auto_rotate_speed g) (blender_save g) (g_symbolscale g)
        (g_modal_amplitude g) (g_modal_speed g) utility matrix_write
        (m_user_receivers g) (offered g) (effects g) (blender_each g)
        (blender_num g) (blender_exporter g) (GetCameraVertical g)
        (drawProfiler g).

Definition set_receivers (rs : list IEventReceiver)
    (g : ChIrrGUI) : ChIrrGUI :=
  mkGUI (show_explorer g) (show_infos g) (show_profiler g) (modal_mode_n g)
        (modal_amplitude g) (modal_speed g) (symbolscale g)
        (camera_auto_rotate_speed g) (blender_save g) (g_symbolscale g)
        (g_modal_amplitude g) (g_modal_speed g) (UtilityFlag g)
        (SolverMatrixWriteEnabled g) rs (offered g) (effects g)
        (blender_each g) (blender_num g) (blender_exporter g)
        (GetCameraVertical g) (drawProfiler g).

Definition set_logs (o : list nat) (e : list GuiEffect)
    (g : ChIrrGUI) : ChIrrGUI :=
  mkGUI (show_explorer g) (show_infos g) (show_profiler g) (modal_mode_n g)
        (modal_amplitude g) (modal_speed g) (symbolscale g)
        (camera_auto_rotate_speed g) (blender_save g) (g_symbolscale g)
        (g_modal_amplitude g) (g_modal_speed g) (UtilityFlag g)
        (SolverMatrixWriteEnabled g) (m_user_receivers g) o e
        (blender_each g) (blender_num g) (blender_exporter g)
        (GetCameraVertical g) (drawProfiler g).

(** Assignment to [blender_save], [blender_num] and [blender_exporter],
    and the count of the calls of [tools::drawProfiler]. *)
Definition set_blender (save : bool) (num : Z)
    (exporter : option (list ChBlenderCall)) (profiled : nat)
    (g : ChIrrGUI) : ChIrrGUI :=
  mkGUI (show_explorer g) (show_infos g) (show_profiler g) (modal_mode_n g)
        (modal_amplitude g) (modal_speed g) (symbolscale g)
        (camera_auto_rotate_speed g) save (g_symbolscale g)
        (g_modal_amplitude g) (g_modal_speed g) (UtilityFlag g)
        (SolverMatrixWriteEnabled g) (m_user_receivers g) (offered g)
        (effects g) (blender_each g) num exporter (GetCameraVertical g)
        profiled.

Definition add_effects (e : list GuiEffect) (g : ChIrrGUI) : ChIrrGUI :=
  set_logs (offered g) (effects g ++ e) g.

(** [ChIrrGUI::AddUserEventReceiver] *)
Definition AddUserEventReceiver (receiver : IEventReceiver) (g : ChIrrGUI)
    : ChIrrGUI :=
  set_receivers (m_user_receivers g ++ [receiver]) g.

(** [ChIrrGUI::SetBlenderSave] *)
Definition SetBlenderSave (val : bool) (g : ChIrrGUI) : ChIrrGUI :=
  let g := set_blender val (blender_num g) (blender_exporter g)
                       (drawProfiler g) g in
  if negb (blender_save g) then g
  else
    match blender_exporter g with
    | Some _ => g
    | None =>
        let exporter :=
          [SetBasePath "blender_project"; AddAll]
          ++ (match GetCameraVertical g with
              | Dir_Z => [SetBlenderUp_is_ChronoZ] | _ => [] end)
          ++ (match GetCameraVertical g with
              | Dir_Y => [SetBlenderUp_is_ChronoY] | _ => [] end)
          ++ [ExportScript] in
        set_blender (blender_save g) 0 (Some exporter) (drawProfiler g) g
    end.

(** The loop over the user receivers: each is given the event in turn
    until one returns true. The result is that answer and the GUI with
    the offers logged. *)
Fixpoint offer_to_receivers (recvs : list IEventReceiver) (event : SEvent)
    (g : ChIrrGUI) : bool * ChIrrGUI :=
  match recvs with
  | [] => (false, g)
  | recv :: rest =>
      let g' := set_logs (offered g ++ [receiver_name recv]) (effects g) g in
      if receiver_OnEvent recv event then (true, g')
      else offer_to_receivers rest event g'
  end.

Section EventReceiver.
Context {core : ChMathematics}.
(** Whether the library was built with [CHRONO_POSTPROCESS]. *)
Variable CHRONO_POSTPROCESS : bool.

(** [ChIrrGUI::SetSymbolscale], [SetModalAmplitude], [SetModalSpeed] *)
Definition SetSymbolscale (val : double) (g : ChIrrGUI) : ChIrrGUI :=
  let s := ChMax Double.lit_10em12 val in set_symbolscale s s g.

Definition SetModalAmplitude (val : double) (g : ChIrrGUI) : ChIrrGUI :=
  let a := ChMax Double.zero val in set_modal_amplitude a a g.

Definition SetModalSpeed (val : double) (g : ChIrrGUI) : ChIrrGUI :=
  let s := ChMax Double.zero val in set_modal_speed s s g.

(** The [switch] over the released key; [None] is the [default] branch. *)
Definition key_released (key : EKEY_CODE) (g : ChIrrGUI) : option ChIrrGUI :=
  match key with
  | KEY_KEY_I =>
      Some (set_show (show_explorer g) (negb (show_infos g)) (show_profiler g) g)
  | KEY_KEY_O =>
      Some (set_show (show_explorer g) (show_infos g) (negb (show_profiler g)) g)
  | KEY_KEY_U =>
      Some (set_show (negb (show_explorer g)) (show_infos g) (show_profiler g) g)
  | KEY_SPACE =>
      Some (set_flags (negb (UtilityFlag g)) (SolverMatrixWriteEnabled g) g)
  | KEY_F8 =>
      Some (add_effects [SaveJSON "dump.json"; SaveAsciiDump "dump.txt"] g)
  | KEY_F6 => Some (add_effects [CallDumpSystemMatrices] g)
  | KEY_F7 =>
      Some (set_flags (UtilityFlag g) (negb (SolverMatrixWriteEnabled g)) g)
  | KEY_F4 =>
      Some (if Double.leb (camera_auto_rotate_speed g) Double.zero
            then set_camera_auto_rotate_speed Double.lit_0_02 g
            else set_camera_auto_rotate_speed
                   (Double.mul (camera_auto_rotate_speed g) Double.lit_1_5) g)
  | KEY_F3 => Some (set_camera_auto_rotate_speed Double.zero g)
  | KEY_F2 =>
      Some (if Double.geb (camera_auto_rotate_speed g) Double.zero
            then set_camera_auto_rotate_speed Double.lit_m0_02 g
            else set_camera_auto_rotate_speed
                   (Double.mul (camera_auto_rotate_speed g) Double.lit_1_5) g)
  | KEY_ESCAPE => Some (add_effects [CallCloseDevice] g)
  | KEY_F12 =>
      Some (if CHRONO_POSTPROCESS
            then (if negb (blender_save g) then SetBlenderSave true g
                  else SetBlenderSave false g)
            else g)
  | KEY_OTHER _ => None
  end.

(** The [switch]es over the GUI event type and the caller's id. *)
Definition gui_event (e : SGUIEvent) (g : ChIrrGUI) : ChIrrGUI :=
  let id := Caller_getID e in
  match GUI_EventType e with
  | EGET_EDITBOX_ENTER =>
      if id =? 9921 then SetSymbolscale (Caller_atof_getText e) g
      else if id =? 9927 then SetModalAmplitude (Caller_atof_getText e) g
      else if id =? 9928 then SetModalSpeed (Caller_atof_getText e) g
      else g
  | EGET_SCROLL_BAR_CHANGED =>
      if id =? 9926 then set_modal_mode_n (Caller_getPos e) g else g
  | EGET_OTHER _ => g
  end.

(** The receiver object: its pointer to the GUI, null being [None]. *)
Record ChIrrEventReceiver : Type := mkEventReceiver { m_gui : option ChIrrGUI }.

(** [ChIrrEventReceiver::OnEvent]: the answer and the receiver with its
    GUI as the call leaves it; [None] where a null [m_gui] is
    dereferenced. *)
Definition OnEvent (this : ChIrrEventReceiver) (event : SEvent)
    : option (bool * ChIrrEventReceiver) :=
  let '(taken, gui1) :=
    match m_gui this with
    | Some g =>
        let '(b, g') := offer_to_receivers (m_user_receivers g) event g in
        (b, Some g')
    | None => (false, None)
    end in
  if taken then Some (true, mkEventReceiver gui1)
  else
    let keyboard : option (option (bool * ChIrrEventReceiver)) :=
      match event with
      | EET_KEY_INPUT_EVENT k =>
          if negb (PressedDown k) then
            match gui1 with
            | Some g =>
                match key_released (Key k) g with
                | Some g' => Some (Some (true, mkEventReceiver (Some g')))
                | None => None
                end
            | None =>
                match Key k with
                | KEY_OTHER _ => None
                | KEY_F12 => if CHRONO_POSTPROCESS then Some None
                             else Some (Some (true, mkEventReceiver None))
                | _ => Some None
                end
            end
          else None
      | _ => None
      end in
    match keyboard with
    | Some result => result
    | None =>
        match event with
        | EET_GUI_EVENT e =>
            match gui1 with
            | Some g =>
                Some (false, mkEventReceiver (Some (gui_event e g)))
            | None =>
                (* the caller's id is read; a recognised widget then
                   dereferences the null [m_gui] *)
                match GUI_EventType e with
                | EGET_EDITBOX_ENTER =>
                    if (Caller_getID e =? 9921) || (Caller_getID e =? 9927)
                       || (Caller_getID e =? 9928)
                    then None else Some (false, mkEventReceiver None)
                | EGET_SCROLL_BAR_CHANGED =>
                    if Caller_getID e =? 9926 then None
                    else Some (false, mkEventReceiver None)
                | EGET_OTHER _ => Some (false, mkEventReceiver None)
                end
            end
        | _ => Some (false, mkEventReceiver gui1)
        end
    end.

(** [ChIrrGUI::EndScene]; [None] where the remainder or the increment of
    the [int]s is undefined. *)
Definition EndScene (g : ChIrrGUI) : option ChIrrGUI :=
  let g := if show_profiler g
           then set_blender (blender_save g) (blender_num g)
                            (blender_exporter g) (S (drawProfiler g)) g
           else g in
  if negb CHRONO_POSTPROCESS then Some g
  else if negb (blender_save g) then Some g
  else
    match blender_exporter g with
    | None => Some g
    | Some exporter =>
        if (blender_each g =? 0)
           || ((blender_num g =? INT_MIN) && (blender_each g =? -1))
        then None
        else
          let exporter :=
            if Z.rem (blender_num g) (blender_each g) =? 0
            then exporter ++ [ExportData] else exporter in
          if blender_num g + 1 <=? INT_MAX
          then Some (set_blender (blender_save g) (blender_num g + 1)
                                 (Some exporter) (drawProfiler g) g)
          else None
    end.

(** [n] frames ended in a row. *)
Fixpoint EndScenes (n : nat) (g : ChIrrGUI) : option ChIrrGUI :=
  match n with
  | O => Some g
  | S k => g' <- EndScene g ;; EndScenes k g'
  end.

End EventReceiver.

(* ------------------------------------------------------------------ *)
(** ** JSON documents (rapidjson) *)

(** A JSON value. An object keeps its members in document order, and a
    lookup finds the first member with the name. *)
Inductive Value : Type :=
| JNull
| JBool (b : bool)
| JInt (i : Z)
| JDouble (d : double)
| JString (s : string)
| JArray (elements : list Value)
| JObject (members : list (string * Value)).

Fixpoint FindMember (members : list (string * Value)) (name : string)
    : option Value :=
  match members with
  | [] => None
  | (n, v) :: rest => if String.eqb n name then Some v else FindMember rest name
  end.

(** The accessors below are [None] where rapidjson asserts: a member
    that does not exist, or a value of another type. *)

(** [v[name]] *)
Definition member (name : string) (v : Value) : option Value :=
  match v with
  | JObject ms => FindMember ms name
  | _ => None
  end.

(** [v.HasMember(name)] *)
Definition HasMember (name : string) (v : Value) : option bool :=
  match v with
  | JObject ms => Some (match FindMember ms name with Some _ => true | None => false end)
  | _ => None
  end.

(** [v.GetDouble()]: any number, an integer being converted. *)
Definition GetDouble (v : Value) : option double :=
  match v with
  | JDouble d => Some d
  | JInt i => Some (Double.of_Z i)
  | _ => None
  end.

(** [v.GetInt()]: an integer that fits [int]. *)
Definition GetInt (v : Value) : option Z :=
  match v with
  | JInt i => if (- 2 ^ 31 <=? i) && (i <? 2 ^ 31) then Some i else None
  | _ => None
  end.

Definition GetString (v : Value) : option string :=
  match v with
  | JString s => Some s
  | _ => None
  end.

(** The elements of an array: what [Size()] and [v[i]] for [i < Size()]
    give. *)
Definition GetArray (v : Value) : option (list Value) :=
  match v with
  | JArray l => Some l
  | _ => None
  end.

(** The readers of chrono_vehicle/utils/ChUtilsJSON.h and the base class
    method [ChPart::Create] are not part of the excerpt; they are
    parameters, together with the types [MaterialInfo] and the members of
    the base class. *)
Class ChUtilsJSON : Type := {
  MaterialInfo : Type;
  ChPart : Type;
  ChPart_Create : Value -> ChPart -> option ChPart;
  ReadVectorJSON : Value -> option ChVector;
  ReadQuaternionJSON : Value -> option ChQuaternion;
  ReadMaterialInfoJSON : Value -> option MaterialInfo
}.

(* ------------------------------------------------------------------ *)
(** ** [TrackShoeDoublePin] *)

(** [BoxShape] and [CylinderShape] of the vehicle geometry; the material
    index is [None] when the constructor is called without it. *)
Record BoxShape : Type :=
  mkBoxShape { box_pos : ChVector; box_rot : ChQuaternion; box_dims : ChVector;
               box_matID : option Z }.

Record CylinderShape : Type :=
  mkCylinderShape { cyl_pos : ChVector; cyl_rot : ChQuaternion;
                    cyl_radius : double; cyl_length : double;
                    cyl_matID : option Z }.

Section TrackShoe.
Context {json : ChUtilsJSON}.
(** Whether [assert] is compiled out. *)
Variable NDEBUG : bool.

Record TrackShoeDoublePin : Type :=
  mkTrackShoe {
    part : ChPart;
    m_shoe_length : double; m_shoe_width : double; m_shoe_height : double;
    m_shoe_mass : double; m_shoe_inertia : ChVector;
    m_connector_radius : double; m_connector_length : double;
    m_connector_width : double; m_connector_mass : double;
    m_connector_inertia : ChVector;
    m_cyl_mat_info : MaterialInfo;
    m_shoe_mat_info : list MaterialInfo;
    m_coll_boxes : list BoxShape; m_coll_cylinders : list CylinderShape;
    m_vis_boxes : list BoxShape; m_vis_cylinders : list CylinderShape;
    m_meshFile : string; m_has_mesh : bool }.

(** [assert(c)]: the condition is not evaluated when [NDEBUG] is defined. *)
Definition assert (c : option bool) : option unit :=
  if NDEBUG then Some tt
  else b <- c ;; if b then Some tt else None.

Definition IsArray (v : Value) : option bool :=
  Some (match v with JArray _ => true | _ => false end).

(** [v[name].GetDouble()] *)
Definition double_at (name : string) (v : Value) : option double :=
  x <- member name v ;; GetDouble x.

(** The five numbers read from ["Shoe"]. *)
Definition read_shoe (d : Value)
    : option (double * double * double * double * ChVector) :=
  shoe <- member "Shoe" d ;;
  length <- double_at "Length" shoe ;;
  width <- double_at "Width" shoe ;;
  height <- double_at "Height" shoe ;;
  mass <- double_at "Mass" shoe ;;
  inertia <- (x <- member "Inertia" shoe ;; ReadVectorJSON x) ;;
  Some (length, width, height, mass, inertia).

(** The five numbers read from ["Connector"]. *)
Definition read_connector (d : Value)
    : option (double * double * double * double * ChVector) :=
  connector <- member "Connector" d ;;
  radius <- double_at "Radius" connector ;;
  length <- double_at "Length" connector ;;
  width <- double_at "Width" connector ;;
  mass <- double_at "Mass" connector ;;
  inertia <- (x <- member "Inertia" connector ;; ReadVectorJSON x) ;;
  Some (radius, length, width, mass, inertia).

(** The loop over ["Shoe Materials"]. *)
Definition read_material (infos : list MaterialInfo) (v : Value)
    : option (list MaterialInfo) :=
  minfo <- ReadMaterialInfoJSON v ;; Some (infos ++ [minfo]).

(** The body of the loop over ["Shoe Shapes"]. *)
Definition read_coll_shape (num_mats : Z)
    (shapes : list BoxShape * list CylinderShape) (shape : Value)
    : option (list BoxShape * list CylinderShape) :=
  type <- (x <- member "Type" shape ;; GetString x) ;;
  matID <- (x <- member "Material Index" shape ;; GetInt x) ;;
  _ <- assert (Some ((0 <=? matID) && (matID <? num_mats))) ;;
  if String.eqb type "BOX" then
    pos <- (x <- member "Location" shape ;; ReadVectorJSON x) ;;
    rot <- (x <- member "Orientation" shape ;; ReadQuaternionJSON x) ;;
    dims <- (x <- member "Dimensions" shape ;; ReadVectorJSON x) ;;
    Some (fst shapes ++ [mkBoxShape pos rot dims (Some matID)], snd shapes)
  else if String.eqb type "CYLINDER" then
    pos <- (x <- member "Location" shape ;; ReadVectorJSON x) ;;
    rot <- (x <- member "Orientation" shape ;; ReadQuaternionJSON x) ;;
    radius <- double_at "Radius" shape ;;
    length <- double_at "Length" shape ;;
    Some (fst shapes, snd shapes ++ [mkCylinderShape pos rot radius length (Some matID)])
  else Some shapes.

(** The body of the loop over ["Primitives"]. *)
Definition read_vis_shape (shapes : list BoxShape * list CylinderShape)
    (shape : Value) : option (list BoxShape * list CylinderShape) :=
  type <- (x <- member "Type" shape ;; GetString x) ;;
  if String.eqb type "BOX" then
    pos <- (x <- member "Location" shape ;; ReadVectorJSON x) ;;
    rot <- (x <- member "Orientation" shape ;; ReadQuaternionJSON x) ;;
    dims <- (x <- member "Dimensions" shape ;; ReadVectorJSON x) ;;
    Some (fst shapes ++ [mkBoxShape pos rot dims None], snd shapes)
  else if String.eqb type "CYLINDER" then
    pos <- (x <- member "Location" shape ;; ReadVectorJSON x) ;;
    rot <- (x <- member "Orientation" shape ;; ReadQuaternionJSON x) ;;
    radius <- double_at "Radius" shape ;;
    length <- double_at "Length" shape ;;
    Some (fst shapes, snd shapes ++ [mkCylinderShape pos rot radius length None])
  else Some shapes.

(** The visualization block, run after the collision shapes are in
    place: the mesh file, the mesh flag and the two visualization lists. *)
Definition read_visualization (d : Value) (meshFile : string) (has_mesh : bool)
    (coll_boxes : list BoxShape) (coll_cylinders : list CylinderShape)
    (vis : list BoxShape * list CylinderShape)
    : option (string * bool * (list BoxShape * list CylinderShape)) :=
  has_vis <- HasMember "Visualization" d ;;
  if has_vis then
    v <- member "Visualization" d ;;
    has_meshfile <- HasMember "Mesh" v ;;
    mesh <- (if has_meshfile
             then s <- (x <- member "Mesh" v ;; GetString x) ;; Some (s, true)
             else Some (meshFile, has_mesh)) ;;
    has_prims <- HasMember "Primitives" v ;;
    vis' <- (if has_prims
             then p <- member "Primitives" v ;;
                  _ <- assert (IsArray p) ;;
                  prims <- GetArray p ;;
                  fold_opt read_vis_shape prims vis
             else Some vis) ;;
    Some (fst mesh, snd mesh, vis')
  else
    (* Default to using the collision shapes *)
    Some (meshFile, has_mesh, (fst vis ++ coll_boxes, snd vis ++ coll_cylinders)).

(** [TrackShoeDoublePin::Create] *)
Definition Create (d : Value) (this : TrackShoeDoublePin)
    : option TrackShoeDoublePin :=
  base <- ChPart_Create d (part this) ;;
  _ <- assert (HasMember "Shoe" d) ;;
  shoe <- read_shoe d ;;
  let '(shoe_length, shoe_width, shoe_height, shoe_mass, shoe_inertia) := shoe in
  _ <- assert (HasMember "Connector" d) ;;
  connector <- read_connector d ;;
  let '(connector_radius, connector_length, connector_width, connector_mass,
        connector_inertia) := connector in
  _ <- assert (HasMember "Contact" d) ;;
  _ <- assert (c <- member "Contact" d ;; HasMember "Connector Material" c) ;;
  _ <- assert (c <- member "Contact" d ;; HasMember "Shoe Materials" c) ;;
  _ <- assert (c <- member "Contact" d ;; HasMember "Shoe Shapes" c) ;;
  _ <- assert (c <- member "Contact" d ;; m <- member "Shoe Materials" c ;;
               IsArray m) ;;
  _ <- assert (c <- member "Contact" d ;; m <- member "Shoe Shapes" c ;;
               IsArray m) ;;
  contact <- member "Contact" d ;;
  cyl_mat_info <- (x <- member "Connector Material" contact ;;
                   ReadMaterialInfoJSON x) ;;
  materials <- (m <- member "Shoe Materials" contact ;; GetArray m) ;;
  let num_mats := Z.of_nat (List.length materials) in
  shoe_mat_info <- fold_opt read_material materials (m_shoe_mat_info this) ;;
  shapes <- (m <- member "Shoe Shapes" contact ;; GetArray m) ;;
  coll <- fold_opt (read_coll_shape num_mats) shapes
                   (m_coll_boxes this, m_coll_cylinders this) ;;
  vis <- read_visualization d (m_meshFile this) (m_has_mesh this)
                            (fst coll) (snd coll)
                            (m_vis_boxes this, m_vis_cylinders this) ;;
  let '(meshFile, has_mesh, vis_shapes) := vis in
  Some {| part := base;
          m_shoe_length := shoe_length; m_shoe_width := shoe_width;
          m_shoe_height := shoe_height; m_shoe_mass := shoe_mass;
          m_shoe_inertia := shoe_inertia;
          m_connector_radius := connector_radius;
          m_connector_length := connector_length;
          m_connector_width := connector_width;
          m_connector_mass := connector_mass;
          m_connector_inertia := connector_inertia;
          m_cyl_mat_info := cyl_mat_info;
          m_shoe_mat_info := shoe_mat_info;
          m_coll_boxes := fst coll; m_coll_cylinders := snd coll;
          m_vis_boxes := fst vis_shapes; m_vis_cylinders := snd vis_shapes;
          m_meshFile := meshFile; m_has_mesh := has_mesh |}.

End TrackShoe.

(* ------------------------------------------------------------------ *)
(** ** [ChVehicleCosimTireNodeRigid] *)

(** What [InitializeTire] reads from the rigid tire: the numbers of
    vertices and triangles, the vertex positions and the connectivity
    (three [int] vertex indices per triangle). *)
Record RigidTire : Type :=
  mkTire { GetNumVertices : nat; GetNumTriangles : nat;
           GetMeshVertices : list ChVector;
           GetMeshConnectivity : list (Z * Z * Z) }.

(** The members the preprocessing fills. *)
Record TireNodeRigid : Type :=
  mkTireNode { m_adjElements : list (list nat); m_vertexArea : list double }.

(** [v[i]] for an [int] index into a vector: undefined out of range. *)
Definition at_int {A : Type} (l : list A) (i : Z) : option A :=
  if i <? 0 then None else nth_error l (Z.to_nat i).

(** [adj[i].push_back(ie)] *)
Definition push_back_at (adj : list (list nat)) (i : Z) (ie : nat)
    : option (list (list nat)) :=
  elems <- at_int adj i ;; list_set adj (Z.to_nat i) (elems ++ [ie]).

Section TireNode.
Context {math : ChMath}.

(** [0.5 * Vcross(v2 - v1, v3 - v1).Length()] *)
Definition triangle_area (v1 v2 v3 : ChVector) : double :=
  Double.mul Double.half (Length (Vcross (Vsub v2 v1) (Vsub v3 v1))).

(** The body of the loop over the triangles; the state is [m_adjElements]
    and the areas of the triangles seen so far, [triArea[0..ie-1]]. *)
Definition triangle_step (verts : list ChVector) (idx_verts : list (Z * Z * Z))
    (st : list (list nat) * list double) (ie : nat)
    : option (list (list nat) * list double) :=
  tri <- nth_error idx_verts ie ;;
  let '(iv1, iv2, iv3) := tri in
  v1 <- at_int verts iv1 ;;
  v2 <- at_int verts iv2 ;;
  v3 <- at_int verts iv3 ;;
  let area := triangle_area v1 v2 v3 in
  adj1 <- push_back_at (fst st) iv1 ie ;;
  adj2 <- push_back_at adj1 iv2 ie ;;
  adj3 <- push_back_at adj2 iv3 ie ;;
  Some (adj3, snd st ++ [area]).

(** The inner loop over the elements adjacent to one vertex. *)
Definition sum_areas (triArea : list double) (elems : list nat) : option double :=
  fold_opt (fun area ie => a <- nth_error triArea ie ;; Some (Double.add area a))
           elems Double.zero.

(** [area / m_adjElements[in].size()] *)
Definition vertex_area (triArea : list double) (elems : list nat) : option double :=
  area <- sum_areas triArea elems ;;
  Some (Double.div area (Double.of_Z (Z.of_nat (List.length elems)))).

(** The preprocessing of [ChVehicleCosimTireNodeRigid::InitializeTire],
    on a node whose [m_adjElements] and [m_vertexArea] are still empty:
    [None] where an index is out of range. *)
Definition InitializeTire (tire : RigidTire) : option TireNodeRigid :=
  let nv := GetNumVertices tire in
  let nt := GetNumTriangles tire in
  st <- fold_opt (triangle_step (GetMeshVertices tire) (GetMeshConnectivity tire))
                 (seq 0 nt) (repeat [] nv, []) ;;
  areas <- fold_opt (fun acc i =>
                       elems <- nth_error (fst st) i ;;
                       a <- vertex_area (snd st) elems ;;
                       Some (acc ++ [a]))
                    (seq 0 (GetNumVertices tire)) [] ;;
  Some (mkTireNode (fst st) areas).

End TireNode.

(* ================================================================== *)
(** * Part II: the properties as the specification words them *)
(* ================================================================== *)

(** ** Scene-graph lookup *)

(** A child whose stored ["bodyPtr"] equals [body] and whose stored
    ["assetPtr"] equals [asset]. *)
Definition carries_pair (body asset : Ref) (n : Node) : bool :=
  match bodyPtr n, assetPtr n with
  | Some b, Some a => Ref_eqb body b && Ref_eqb asset a
  | _, _ => false
  end.

Definition carries_transform (n : Node) : bool :=
  match transform n with Some _ => true | None => false end.

(** The ["transform"] value stored on a child, null when there is none. *)
Definition stored_transform (n : Node) : Ref :=
  match transform n with Some t => t | None => None end.

(** The lookup as the specification describes it: the value of the
    first child with the pair, null without such a child. *)
Definition GetTransform_first_pair (children : list Node) (body asset : Ref) : Ref :=
  match find (carries_pair body asset) children with
  | Some n => stored_transform n
  | None => None
  end.

(** The lookup the code performs: the value of the first child with the
    pair that also stores a transform. *)
Definition GetTransform_first_complete (children : list Node) (body asset : Ref)
    : Ref :=
  match find (fun n => carries_pair body asset n && carries_transform n) children with
  | Some n => stored_transform n
  | None => None
  end.

(** No child is ill shaped for the pair: a child that carries the pair
    stores a transform. *)
Definition well_shaped (children : list Node) (body asset : Ref) : bool :=
  forallb (fun n => implb (carries_pair body asset n) (carries_transform n))
          children.

(** Children as the shape objects make them, two of them for the same
    body and asset. *)
Definition shaped_children : list Node :=
  [ mkNode (Some (Some 1%nat)) (Some (Some 3%nat)) (Some (Some 5%nat));
    mkNode (Some (Some 1%nat)) (Some (Some 2%nat)) (Some (Some 7%nat));
    mkNode (Some (Some 1%nat)) (Some (Some 2%nat)) (Some (Some 9%nat)) ].

(** Two children for the same body and asset, the first of them without
    a transform value. *)
Definition ill_shaped_children : list Node :=
  [ mkNode (Some (Some 1%nat)) (Some (Some 2%nat)) None;
    mkNode (Some (Some 1%nat)) (Some (Some 2%nat)) (Some (Some 7%nat)) ].

(** ** GUI setters *)

(** [m] is the maximum of [a] and [b]: one of the two and not below
    either. *)
Definition is_max_of (a b m : double) : Prop :=
  (m = a \/ m = b) /\ Double.leb a m = true /\ Double.leb b m = true.

(** [ChMax] returns one of its two arguments. *)
Definition ChMax_selects (core : ChMathematics) : Prop :=
  forall a b : double, ChMax a b = a \/ ChMax a b = b.

(** Modelled from the spec: [ChMax] is the maximum: it returns one of its
    two arguments, and of two numbers it returns one that is not below
    either. Nothing is said of which argument it returns when one of
    them is a NaN. *)
Definition ChMax_maximum (core : ChMathematics) : Prop :=
  ChMax_selects core
  /\ forall a b : double,
       Double.is_nan a = false -> Double.is_nan b = false ->
       Double.leb a (ChMax a b) = true /\ Double.leb b (ChMax a b) = true.

(** The two maxima by one comparison. *)
Module OneComparison.

(** [if (a > b) return a; return b;] *)
Definition greater : ChMathematics :=
  {| ChMax := fun a b => if Double.gtb a b then a else b |}.

(** [return (a < b) ? b : a;] *)
Definition less : ChMathematics :=
  {| ChMax := fun a b => if Double.ltb a b then b else a |}.

End OneComparison.

(** The scale is not zero or negative, and amplitude and speed are not
    negative. *)
Definition clamped (g : ChIrrGUI) : Prop :=
  Double.leb (symbolscale g) Double.zero = false
  /\ Double.ltb (modal_amplitude g) Double.zero = false
  /\ Double.ltb (modal_speed g) Double.zero = false.

(** [ChIrrGUI::ChIrrGUI()], with nothing shown in the edit boxes yet, no
    frame profiled and a visual system whose camera vertical is Y. *)
Definition ChIrrGUI_new : ChIrrGUI :=
  {| show_explorer := false; show_infos := false; show_profiler := false;
     modal_mode_n := 0;
     modal_amplitude := S754_finite false 7205759403792794 (-56);
     modal_speed := Double.one; symbolscale := Double.one;
     camera_auto_rotate_speed := Double.zero; blender_save := false;
     g_symbolscale := Double.zero; g_modal_amplitude := Double.zero;
     g_modal_speed := Double.zero;
     UtilityFlag := false; SolverMatrixWriteEnabled := false;
     m_user_receivers := []; offered := []; effects := [];
     blender_each := 1; blender_num := 0; blender_exporter := None;
     GetCameraVertical := Dir_Y; drawProfiler := 0 |}.

(** A GUI that shows the profiler, has Z as its camera vertical and saves
    every third frame once saving is switched on. *)
Definition every_third : ChIrrGUI :=
  {| show_explorer := false; show_infos := false; show_profiler := true;
     modal_mode_n := 0;
     modal_amplitude := S754_finite false 7205759403792794 (-56);
     modal_speed := Double.one; symbolscale := Double.one;
     camera_auto_rotate_speed := Double.zero; blender_save := false;
     g_symbolscale := Double.zero; g_modal_amplitude := Double.zero;
     g_modal_speed := Double.zero;
     UtilityFlag := false; SolverMatrixWriteEnabled := false;
     m_user_receivers := []; offered := []; effects := [];
     blender_each := 3; blender_num := 0; blender_exporter := None;
     GetCameraVertical := Dir_Z; drawProfiler := 0 |}.

(** The members of a GUI other than the three [show_] flags and the log
    of the offers. *)
Definition other_members (g : ChIrrGUI) :=
  (modal_mode_n g, modal_amplitude g, modal_speed g, symbolscale g,
   camera_auto_rotate_speed g, blender_save g,
   (g_symbolscale g, g_modal_amplitude g, g_modal_speed g),
   (UtilityFlag g, SolverMatrixWriteEnabled g, m_user_receivers g, effects g),
   (blender_each g, blender_num g, blender_exporter g, GetCameraVertical g,
    drawProfiler g)).

(** ** User event receivers *)

(** The names of the receivers that get to see an event: those before
    the first one that returns true, and that one. *)
Fixpoint offers_until (recvs : list IEventReceiver) (event : SEvent) : list nat :=
  match recvs with
  | [] => []
  | r :: rest =>
      receiver_name r ::
      (if receiver_OnEvent r event then [] else offers_until rest event)
  end.

(** Some receiver of the list returns true on the event. *)
Definition taken_by_user (recvs : list IEventReceiver) (event : SEvent) : bool :=
  existsb (fun r => receiver_OnEvent r event) recvs.

(** The GUI after the user receivers were offered the event. *)
Definition after_offers (event : SEvent) (g : ChIrrGUI) : ChIrrGUI :=
  set_logs (offered g ++ offers_until (m_user_receivers g) event) (effects g) g.

(** Registration of several receivers, one call after the other. *)
Definition register_all (recvs : list IEventReceiver) (g : ChIrrGUI) : ChIrrGUI :=
  fold_left (fun g r => AddUserEventReceiver r g) recvs g.

(** A receiver that takes key events only, and one that takes nothing. *)
Definition key_taker (name : nat) : IEventReceiver :=
  mkReceiver name
    (fun e => match e with EET_KEY_INPUT_EVENT _ => true | _ => false end).

Definition bystander (name : nat) : IEventReceiver :=
  mkReceiver name (fun _ => false).

Definition release (k : EKEY_CODE) : SEvent :=
  EET_KEY_INPUT_EVENT (mkKeyInput k false).

Definition press (k : EKEY_CODE) : SEvent :=
  EET_KEY_INPUT_EVENT (mkKeyInput k true).

(** A key the [switch] of the receiver has a case for. *)
Definition recognized_key (k : EKEY_CODE) : bool :=
  match k with KEY_OTHER _ => false | _ => true end.

(** The release of a recognized key. *)
Definition recognized_key_release (event : SEvent) : bool :=
  match event with
  | EET_KEY_INPUT_EVENT k => negb (PressedDown k) && recognized_key (Key k)
  | _ => false
  end.

(** ** The scene graph built from the bodies *)

Section ViewerProperties.
Context {math : ChMath} {ext : Externals}.

(** The shape class, the visualization data and the size of an asset
    that is a box, a sphere, an ellipsoid or a cylinder. *)
Definition shape_of (c : ChAssetClass)
    : option (VSGIndexClass * ChVisualization * ChVector) :=
  match c with
  | ChBoxShape vis Size => Some (VSGIndexBox, vis, Size)
  | ChSphereShape vis rad => Some (VSGIndexSphere, vis, mkVector rad rad rad)
  | ChEllipsoidShape vis rad => Some (VSGIndexSphere, vis, rad)
  | ChCylinderShape vis rad p1 p2 =>
      Some (VSGIndexCylinder, vis, mkVector rad rad (Length (Vsub p1 p2)))
  | _ => None
  end.

Definition is_shape (asset : ChAsset) : bool :=
  match shape_of (asset_class asset) with Some _ => true | None => false end.

(** Every asset of every body is a [ChVisualization], as the cast in the
    second loop of [BuildSceneGraph] takes it to be. *)
Definition visualization_only (bodies : list ChBody) : bool :=
  forallb (fun body =>
             forallb (fun asset => is_ChVisualization (asset_class asset))
                     (GetAssets body)) bodies.

(** A shape asset on a body, with what the viewer initializes its shape
    object with. *)
Record ShapeEntry : Type :=
  mkEntry { entry_body : ChBody; entry_asset : ChAsset;
            entry_class : VSGIndexClass; entry_vis : ChVisualization;
            entry_size : ChVector; entry_init : ShapeInit }.

Definition asset_shapes (body : ChBody) (init : ShapeInit) (assets : list ChAsset)
    : list ShapeEntry :=
  flat_map (fun asset =>
              match shape_of (asset_class asset) with
              | Some (cls, vis, size) => [mkEntry body asset cls vis size init]
              | None => []
              end) assets.

Definition body_material (body : ChBody) : BodyMaterial :=
  fold_left scan_material (GetAssets body) no_material.

(** Every body of the list with every shape asset on it, in order. *)
Definition system_shapes (bodies : list ChBody) : list ShapeEntry :=
  flat_map (fun body =>
              asset_shapes body (shape_Initialize (body_material body))
                           (GetAssets body)) bodies.

(** The transform as the specification words it: translation by the
    body position plus the body-rotated asset offset, the rotation of the
    body, the size of the shape. *)
Definition matrix_body_rotation (body : ChBody) (vis : ChVisualization)
    (size : ChVector) : dmat4 :=
  let p := Vadd (frame_pos body) (Rotate (frame_rot body) (Pos vis)) in
  mat_mul (mat_mul (translate (vx p) (vy p) (vz p))
                   (rotate (Q_to_AngAxis (frame_rot body))))
          (scale (vx size) (vy size) (vz size)).

(** The transform the code builds: the rotation is that of the body
    composed with that of the asset, normalized. *)
Definition matrix_composed_rotation (body : ChBody) (vis : ChVisualization)
    (size : ChVector) : dmat4 :=
  let p := Vadd (frame_pos body) (Rotate (frame_rot body) (Pos vis)) in
  mat_mul (mat_mul (translate (vx p) (vy p) (vz p))
                   (rotate (Q_to_AngAxis
                              (Normalize (Qcross (frame_rot body) (Rot vis))))))
          (scale (vx size) (vy size) (vz size)).

Definition entry_matrix (e : ShapeEntry) : dmat4 :=
  matrix_composed_rotation (entry_body e) (entry_vis e) (entry_size e).

(** The child added for an entry whose transform object is number [k]. *)
Definition entry_node (k : nat) (e : ShapeEntry) : Node :=
  createVSGNode
    (mkShape (entry_class e) (Some (body_ptr (entry_body e)))
             (Some (asset_ptr (entry_asset e))) (Some k) (entry_init e)).

Fixpoint entry_nodes (base : nat) (es : list ShapeEntry) : list Node :=
  match es with
  | [] => []
  | e :: rest => entry_node base e :: entry_nodes (S base) rest
  end.

(** ** The wait counter *)

(** Call number [k] is a multiple of [wait_max]. *)
Definition multiple_of (wait_max k : Z) : bool :=
  if wait_max =? 0 then k =? 0 else k mod wait_max =? 0.

(** The calls logged by [n] time steps numbered from [first]: a dynamics
    step each, followed by a scene-graph update on the multiples of
    [wait_max]. *)
Fixpoint expected_calls (step : double) (wait_max : Z) (first : Z) (n : nat)
    : list Call :=
  match n with
  | O => []
  | S k =>
      CallDoStepDynamics step ::
      (if multiple_of wait_max first then [CallUpdateSceneGraph] else [])
      ++ expected_calls step wait_max (first + 1) k
  end.

(** The value of [m_wait_counter] after [k] calls that started from 1. *)
Definition counter_after (wait_max k : Z) : Z :=
  if wait_max =? 0 then 1 else k mod wait_max + 1.

(** The calls logged when every step updates the scene graph. *)
Fixpoint step_and_update (step : double) (n : nat) : list Call :=
  match n with
  | O => []
  | S k => CallDoStepDynamics step :: CallUpdateSceneGraph
           :: step_and_update step k
  end.

(** The body and asset pointers of the shapes of a system. *)
Definition skeleton (sys : ChSystem) : list (Ptr * Ptr) :=
  map (fun e => (body_ptr (entry_body e), asset_ptr (entry_asset e)))
      (system_shapes (Get_bodylist sys)).

(** Every shape is found by [GetTransform], and the transform found is
    one of the [n] transform objects. *)
Definition covers (n : nat) (children : list Node) (pairs : list (Ptr * Ptr))
    : bool :=
  forallb (fun p =>
             match GetTransform children (Some (fst p)) (Some (snd p)) with
             | Some tm => Nat.ltb tm n
             | None => false
             end) pairs.

(** The wait states [Initialize] computes from the two step sizes. *)
Definition wait_states (app : ChVSGApp) : option Z :=
  if Double.leb (m_outputStep app) (m_timeStep app) then Some 1
  else Double.to_size_t (Double.div (m_outputStep app) (m_timeStep app)).

(** The transform of [asset] on [body] is found among [n] objects. *)
Definition found (n : nat) (children : list Node) (body : ChBody)
    (asset : ChAsset) : Prop :=
  is_shape asset = true ->
  exists tm, GetTransform children (Some (body_ptr body)) (Some (asset_ptr asset))
             = Some tm /\ (tm < n)%nat.

(** The node of a shape object carries the body, the asset and the
    transform the object was constructed with. *)
Definition nodes_carry_values : Prop :=
  forall shape,
    createVSGNode shape
    = mkNode (Some (shape_body shape)) (Some (shape_asset shape))
             (Some (shape_transform shape)).

Fixpoint steps (n : nat) (step : double) (sys : ChSystem) : ChSystem :=
  match n with
  | O => sys
  | S k => steps k step (DoStepDynamics step sys)
  end.

End ViewerProperties.

(** ** A small scene *)

Module Example.

(** A solver step that leaves the bodies where they are, shape objects
    whose nodes carry the three values, and a window that can be
    created. *)
Definition ext : Externals :=
  {| DoStepDynamics := fun _ sys => sys;
     createVSGNode := fun shape =>
       mkNode (Some (shape_body shape)) (Some (shape_asset shape))
              (Some (shape_transform shape));
     Window_create := fun traits => Some (mkWindow traits []) |}.

(** The same without a window. *)
Definition ext_no_window : Externals :=
  {| DoStepDynamics := fun _ sys => sys;
     createVSGNode := fun shape =>
       mkNode (Some (shape_body shape)) (Some (shape_asset shape))
              (Some (shape_transform shape));
     Window_create := fun _ => None |}.

Definition origin : ChVector := mkVector Double.zero Double.zero Double.zero.
Definition unit_size : ChVector := mkVector Double.one Double.one Double.one.
Definition QUNIT : ChQuaternion :=
  mkQuaternion Double.one Double.zero Double.zero Double.zero.
(** Half a turn about the x axis. *)
Definition half_turn_x : ChQuaternion :=
  mkQuaternion Double.zero Double.one Double.zero Double.zero.

(** A box turned by half a turn on its body, and a sphere. *)
Definition turned_box : ChAsset :=
  mkAsset 11%nat (ChBoxShape (mkVisualization origin half_turn_x) unit_size).
Definition ball : ChAsset :=
  mkAsset 12%nat (ChSphereShape (mkVisualization origin QUNIT) Double.one).
(** A visualization asset that is none of the four shapes. *)
Definition mesh : ChAsset :=
  mkAsset 14%nat (ChOtherVisualization (mkVisualization origin QUNIT)).

Definition body1 : ChBody := mkBody 1%nat origin QUNIT [turned_box; mesh; ball].
Definition system1 : ChSystem := mkSystem [body1].

(** A fresh application with the system and an empty scene graph. *)
Definition app_ready : ChVSGApp :=
  set_m_scenegraph (Some []) (set_m_system (Some system1) ChVSGApp_new).

(** The application with its scene graph built. *)
Definition app_built : ChVSGApp :=
  match @BuildSceneGraph Textbook.math ext app_ready with
  | Some app => app
  | None => app_ready
  end.

(** The application, its scene graph built, updating on every third
    step. *)
Definition app_every_third : ChVSGApp :=
  match @BuildSceneGraph Textbook.math ext app_ready with
  | Some app => set_m_wait_counter_max 3 app
  | None => app_ready
  end.

End Example.

(** ** What a track-shoe document says *)

Section TrackShoeProperties.
Context {json : ChUtilsJSON}.

(** The ["Type"] of a shape entry is [t]. *)
Definition has_type (t : string) (shape : Value) : bool :=
  match x <- member "Type" shape ;; GetString x with
  | Some s => String.eqb s t
  | None => false
  end.

(** The box a ["BOX"] entry describes; [indexed] tells whether the
    material index is part of it. *)
Definition box_of (indexed : bool) (shape : Value) : option BoxShape :=
  pos <- (x <- member "Location" shape ;; ReadVectorJSON x) ;;
  rot <- (x <- member "Orientation" shape ;; ReadQuaternionJSON x) ;;
  dims <- (x <- member "Dimensions" shape ;; ReadVectorJSON x) ;;
  if indexed
  then matID <- (x <- member "Material Index" shape ;; GetInt x) ;;
       Some (mkBoxShape pos rot dims (Some matID))
  else Some (mkBoxShape pos rot dims None).

(** The cylinder a ["CYLINDER"] entry describes. *)
Definition cylinder_of (indexed : bool) (shape : Value) : option CylinderShape :=
  pos <- (x <- member "Location" shape ;; ReadVectorJSON x) ;;
  rot <- (x <- member "Orientation" shape ;; ReadQuaternionJSON x) ;;
  radius <- (x <- member "Radius" shape ;; GetDouble x) ;;
  length <- (x <- member "Length" shape ;; GetDouble x) ;;
  if indexed
  then matID <- (x <- member "Material Index" shape ;; GetInt x) ;;
       Some (mkCylinderShape pos rot radius length (Some matID))
  else Some (mkCylinderShape pos rot radius length None).

(** The boxes and cylinders a list of shape entries describes, one per
    entry of type ["BOX"] and ["CYLINDER"], in order. *)
Definition describes (indexed : bool) (shapes : list Value)
    (boxes : list BoxShape) (cylinders : list CylinderShape) : Prop :=
  Forall2 (fun v b => box_of indexed v = Some b)
          (filter (has_type "BOX") shapes) boxes
  /\ Forall2 (fun v c => cylinder_of indexed v = Some c)
             (filter (has_type "CYLINDER") shapes) cylinders.

(** [v[outer][inner]] read as a double, and as a vector. *)
Definition double_in (outer inner : string) (d : Value) : option double :=
  o <- member outer d ;; x <- member inner o ;; GetDouble x.

Definition vector_in (outer inner : string) (d : Value) : option ChVector :=
  o <- member outer d ;; x <- member inner o ;; ReadVectorJSON x.

(** The elements of the array [v["Contact"][name]]. *)
Definition contact_array (name : string) (d : Value) : option (list Value) :=
  c <- member "Contact" d ;; a <- member name c ;; GetArray a.

(** The entries of [v["Primitives"]], none when the member is absent. *)
Definition primitives_of (v : Value) : option (list Value) :=
  has <- HasMember "Primitives" v ;;
  if has then p <- member "Primitives" v ;; GetArray p else Some [].

End TrackShoeProperties.

(** ** A track-shoe document *)

Module ExampleJSON.

(** Readers for the example: a vector is an array of three numbers, a
    quaternion one of four, and a material is its two coefficients. *)
Definition read_vector (v : Value) : option ChVector :=
  match v with
  | JArray [x; y; z] =>
      a <- GetDouble x ;; b <- GetDouble y ;; c <- GetDouble z ;;
      Some (mkVector a b c)
  | _ => None
  end.

Definition read_quaternion (v : Value) : option ChQuaternion :=
  match v with
  | JArray [w; x; y; z] =>
      a <- GetDouble w ;; b <- GetDouble x ;; c <- GetDouble y ;;
      d <- GetDouble z ;; Some (mkQuaternion a b c d)
  | _ => None
  end.

Definition read_material_info (v : Value) : option (double * double) :=
  mu <- (x <- member "Coefficient of Friction" v ;; GetDouble x) ;;
  cr <- (x <- member "Coefficient of Restitution" v ;; GetDouble x) ;;
  Some (mu, cr).

Definition json : ChUtilsJSON :=
  {| MaterialInfo := double * double;
     ChPart := string;
     ChPart_Create := fun d _ => x <- member "Name" d ;; GetString x;
     ReadVectorJSON := read_vector;
     ReadQuaternionJSON := read_quaternion;
     ReadMaterialInfoJSON := read_material_info |}.

Definition vec (x y z : Z) : Value := JArray [JInt x; JInt y; JInt z].
Definition quat (w x y z : Z) : Value := JArray [JInt w; JInt x; JInt y; JInt z].

Definition material : Value :=
  JObject [("Coefficient of Friction"%string, JInt 1);
           ("Coefficient of Restitution"%string, JInt 0)].

Definition box_entry : Value :=
  JObject [("Type"%string, JString "BOX"); ("Material Index"%string, JInt 0);
           ("Location"%string, vec 0 0 0); ("Orientation"%string, quat 1 0 0 0);
           ("Dimensions"%string, vec 1 2 3)].

Definition cylinder_entry : Value :=
  JObject [("Type"%string, JString "CYLINDER"); ("Material Index"%string, JInt 0);
           ("Location"%string, vec 0 0 1); ("Orientation"%string, quat 1 0 0 0);
           ("Radius"%string, JInt 2); ("Length"%string, JInt 5)].

Definition sphere_entry : Value :=
  JObject [("Type"%string, JString "SPHERE"); ("Material Index"%string, JInt 0)].

Definition body_members : list (string * Value) :=
  [("Name"%string, JString "shoe");
   ("Shoe"%string, JObject [("Length"%string, JInt 4); ("Width"%string, JInt 3); ("Height"%string, JInt 2);
                     ("Mass"%string, JInt 18); ("Inertia"%string, vec 1 1 1)]);
   ("Connector"%string, JObject [("Radius"%string, JInt 1); ("Length"%string, JInt 2);
                          ("Width"%string, JInt 3); ("Mass"%string, JInt 2);
                          ("Inertia"%string, vec 1 1 1)]);
   ("Contact"%string, JObject [("Connector Material"%string, material);
                        ("Shoe Materials"%string, JArray [material]);
                        ("Shoe Shapes"%string,
                         JArray [box_entry; sphere_entry; cylinder_entry])])].

(** A document without ["Visualization"], and one with a mesh and one
    primitive. *)
Definition doc_plain : Value := JObject body_members.

Definition doc_visual : Value :=
  JObject (body_members ++
           [("Visualization"%string,
             JObject [("Mesh"%string, JString "shoe.obj");
                      ("Primitives"%string, JArray [cylinder_entry])])]).

(** The members of a track shoe before [Create]. *)
Definition fresh : @TrackShoeDoublePin json :=
  @mkTrackShoe json EmptyString
    Double.zero Double.zero Double.zero Double.zero
    (mkVector Double.zero Double.zero Double.zero)
    Double.zero Double.zero Double.zero Double.zero
    (mkVector Double.zero Double.zero Double.zero)
    (Double.zero, Double.zero) [] [] [] [] [] EmptyString false.

End ExampleJSON.

(** ** The tire mesh *)

(** Vertex [v] is a corner of the triangle. *)
Definition adjacent (v : nat) (tri : Z * Z * Z) : bool :=
  let '(iv1, iv2, iv3) := tri in
  (iv1 =? Z.of_nat v) || (iv2 =? Z.of_nat v) || (iv3 =? Z.of_nat v).

(** Triangle number [ie] of the connectivity. *)
Definition triangle (tire : RigidTire) (ie : nat) : Z * Z * Z :=
  nth ie (GetMeshConnectivity tire) (0, 0, 0).

(** The triangles adjacent to vertex [v], each once, by increasing
    number. *)
Definition adjacent_triangles (tire : RigidTire) (v : nat) : list nat :=
  filter (fun ie => adjacent v (triangle tire ie)) (seq 0 (GetNumTriangles tire)).

(** Vertex [v] is referenced by some triangle. *)
Definition referenced (tire : RigidTire) (v : nat) : bool :=
  existsb (fun ie => adjacent v (triangle tire ie)) (seq 0 (GetNumTriangles tire)).

(** Triangle [ie], once for each of its corners that is [v]. *)
Definition incidence (tri : Z * Z * Z) (ie v : nat) : list nat :=
  let '(iv1, iv2, iv3) := tri in
  ((if iv1 =? Z.of_nat v then [ie] else [])
   ++ (if iv2 =? Z.of_nat v then [ie] else []))
  ++ (if iv3 =? Z.of_nat v then [ie] else []).

(** The first [k] triangles, each once per corner that is [v]. *)
Definition incidences_upto (tire : RigidTire) (k v : nat) : list nat :=
  flat_map (fun ie => incidence (triangle tire ie) ie v) (seq 0 k).

Definition incidences (tire : RigidTire) (v : nat) : list nat :=
  incidences_upto tire (GetNumTriangles tire) v.

(** The three corners of a triangle are vertices of the mesh. *)
Definition corners_in_range (tire : RigidTire) (tri : Z * Z * Z) : Prop :=
  let '(iv1, iv2, iv3) := tri in
  0 <= iv1 < Z.of_nat (GetNumVertices tire)
  /\ 0 <= iv2 < Z.of_nat (GetNumVertices tire)
  /\ 0 <= iv3 < Z.of_nat (GetNumVertices tire).

(** The mesh is well formed: the numbers of vertices and triangles are
    within the arrays, and the corners are vertices. *)
Definition mesh_well_formed (tire : RigidTire) : Prop :=
  (GetNumVertices tire <= List.length (GetMeshVertices tire))%nat
  /\ (GetNumTriangles tire <= List.length (GetMeshConnectivity tire))%nat
  /\ (forall ie, (ie < GetNumTriangles tire)%nat ->
        corners_in_range tire (triangle tire ie)).

(** The three corners of every triangle are different vertices. *)
Definition distinct_corners (tire : RigidTire) : Prop :=
  forall ie, (ie < GetNumTriangles tire)%nat ->
    let '(iv1, iv2, iv3) := triangle tire ie in
    iv1 <> iv2 /\ iv1 <> iv3 /\ iv2 <> iv3.

Section TireProperties.
Context {math : ChMath}.

Definition vertex (tire : RigidTire) (i : Z) : ChVector :=
  nth (Z.to_nat i) (GetMeshVertices tire)
      (mkVector Double.zero Double.zero Double.zero).

(** Half the length of the cross product of the two edge vectors. *)
Definition area_of (tire : RigidTire) (ie : nat) : double :=
  let '(iv1, iv2, iv3) := triangle tire ie in
  let v1 := vertex tire iv1 in
  let v2 := vertex tire iv2 in
  let v3 := vertex tire iv3 in
  Double.mul Double.half (Length (Vcross (Vsub v2 v1) (Vsub v3 v1))).

(** The sum, taken in order from [0], of the areas of the listed
    triangles, divided by their number. *)
Definition mean_area (tire : RigidTire) (elems : list nat) : double :=
  Double.div (fold_left Double.add (map (area_of tire) elems) Double.zero)
             (Double.of_Z (Z.of_nat (List.length elems))).

End TireProperties.

(** ** A small mesh *)

Module ExampleMesh.

Definition pt (x y z : Z) : ChVector :=
  mkVector (Double.of_Z x) (Double.of_Z y) (Double.of_Z z).

(** Two triangles sharing an edge. *)
Definition two_triangles : RigidTire :=
  mkTire 4 2 [pt 0 0 0; pt 1 0 0; pt 0 1 0; pt 1 1 0] [(0, 1, 2); (1, 3, 2)].

(** A triangle and a degenerate one that names vertex 0 twice. *)
Definition degenerate : RigidTire :=
  mkTire 3 2 [pt 0 0 0; pt 1 0 0; pt 0 1 0] [(0, 1, 2); (0, 0, 1)].

(** A mesh with a vertex that no triangle refers to. *)
Definition loose_vertex : RigidTire :=
  mkTire 4 1 [pt 0 0 0; pt 1 0 0; pt 0 1 0; pt 5 5 5] [(0, 1, 2)].

End ExampleMesh.

(** ** Further properties of the viewer *)

(** The body and asset pointers of a shape entry. *)
Definition entry_pointers (e : ShapeEntry) : Ptr * Ptr :=
  (body_ptr (entry_body e), asset_ptr (entry_asset e)).

(** The body of the loops of [UpdateSceneGraph] for one shape. *)
Definition update_entry {math : ChMath} (children : list Node) (tr : list dmat4)
    (e : ShapeEntry) : option (list dmat4) :=
  update_shape children (entry_body e) (entry_asset e) (entry_vis e)
               (entry_size e) tr.

(** The scene of the example after the body moved and turned, its
    assets being the same objects. *)
Module ExampleMoved.

Definition body1 : ChBody :=
  mkBody 1%nat (mkVector Double.one Double.zero Double.half)
         Example.half_turn_x (GetAssets Example.body1).

Definition system1 : ChSystem := mkSystem [body1].

(** The application of the example, its scene graph built. *)
Definition app_built : ChVSGApp := Example.app_built.

(** The same after the move. *)
Definition app_moved : ChVSGApp := set_m_system (Some system1) app_built.

(** A second body with a sphere. *)
Definition late_ball : ChAsset :=
  mkAsset 21%nat
    (ChSphereShape (mkVisualization Example.origin Example.QUNIT) Double.one).
Definition body2 : ChBody :=
  mkBody 2%nat Example.origin Example.QUNIT [late_ball].
Definition system2 : ChSystem := mkSystem [Example.body1; body2].

(** The second body added after the scene graph was built. *)
Definition app_late_body : ChVSGApp := set_m_system (Some system2) app_built.

End ExampleMoved.



(** An application whose time step is zero, and a body with a colour, a
    sphere and a texture, in this order. *)
Module ExampleSteps.

Definition app_zero_step : ChVSGApp :=
  {| m_timeStep := Double.zero; m_outputStep := Double.lit_0_001;
     m_build_graph := true; m_wait_counter := 1; m_wait_counter_max := 1;
     m_clearColor := [Double.one; Double.one; Double.one; Double.one];
     m_system := None; m_windowTraits := None; m_scenegraph := None;
     m_transforms := []; m_viewer := None; m_window := None;
     compile_traversal := false; allocatedTextureCount := 0;
     maxNumTextures := 0; scenegraph_compiled := false; calls := [] |}.




(** A dynamics step that moves every body along x by the step size. *)
Definition advance (step : double) (body : ChBody) : ChBody :=
  mkBody (body_ptr body)
         (Textbook.Vadd (frame_pos body)
                        (mkVector step Double.zero Double.zero))
         (frame_rot body) (GetAssets body).

Definition ext_moving : Externals :=
  {| DoStepDynamics := fun step sys =>
       mkSystem (map (advance step) (Get_bodylist sys));
     createVSGNode := fun shape =>
       mkNode (Some (shape_body shape)) (Some (shape_asset shape))
              (Some (shape_transform shape));
     Window_create := fun traits => Some (mkWindow traits []) |}.

(** The application of the example, updating on every third step. *)
Definition app_third : ChVSGApp :=
  set_m_wait_counter_max 3 Example.app_ready.

Definition app_third_built : ChVSGApp :=
  match @BuildSceneGraph Textbook.math ext_moving app_third with
  | Some app => app
  | None => app_third
  end.

End ExampleSteps.

(** ** Further properties of the GUI *)

(** A key whose release flips a flag and does nothing else. *)
Definition toggle_key (k : EKEY_CODE) : bool :=
  match k with
  | KEY_KEY_I | KEY_KEY_O | KEY_KEY_U | KEY_SPACE | KEY_F7 => true
  | _ => false
  end.

(** The flag such a key stands for. *)
Definition flag_of (k : EKEY_CODE) (g : ChIrrGUI) : bool :=
  match k with
  | KEY_KEY_I => show_infos g
  | KEY_KEY_O => show_profiler g
  | KEY_KEY_U => show_explorer g
  | KEY_SPACE => UtilityFlag g
  | KEY_F7 => SolverMatrixWriteEnabled g
  | _ => false
  end.

(** An event whose handling reads or writes the GUI. *)
Definition needs_gui (postprocess : bool) (event : SEvent) : bool :=
  match event with
  | EET_KEY_INPUT_EVENT k =>
      negb (PressedDown k)
      && match Key k with
         | KEY_OTHER _ => false
         | KEY_F12 => postprocess
         | _ => true
         end
  | EET_GUI_EVENT e =>
      match GUI_EventType e with
      | EGET_EDITBOX_ENTER =>
          (Caller_getID e =? 9921) || (Caller_getID e =? 9927)
          || (Caller_getID e =? 9928)
      | EGET_SCROLL_BAR_CHANGED => Caller_getID e =? 9926
      | EGET_OTHER _ => false
      end
  | EET_OTHER_EVENT _ => false
  end.

(** The calls that set a new exporter up. *)
Definition setup (vertical : CameraVerticalDir) : list ChBlenderCall :=
  [SetBasePath "blender_project"; AddAll;
   match vertical with
   | Dir_Z => SetBlenderUp_is_ChronoZ
   | Dir_Y => SetBlenderUp_is_ChronoY
   end;
   ExportScript].

(** How many of the [n] frames numbered from [first] are multiples of
    [each]. *)
Definition saved_frames (each : Z) (first n : nat) : nat :=
  List.length (filter (fun k => Z.of_nat k mod each =? 0) (seq first n)).

(** ** The contact materials of the track shoe *)

(** [MaterialInfo::CreateMaterial], the contact method and the material
    it yields belong to headers that are not part of the excerpt; they
    are parameters. *)
Class ChMaterialSurfaces {json : ChUtilsJSON} : Type := {
  ChContactMethod : Type;
  ChMaterialSurface : Type;
  CreateMaterial : MaterialInfo -> ChContactMethod -> ChMaterialSurface
}.

Section ContactMaterials.
Context {json : ChUtilsJSON} {surfaces : ChMaterialSurfaces}.

(** The members [CreateContactMaterials] writes; a null
    [m_conn_material] is [None]. *)
Record ShoeMaterials : Type :=
  mkShoeMaterials { m_conn_material : option ChMaterialSurface;
                    m_shoe_materials : list ChMaterialSurface }.

(** [TrackShoeDoublePin::CreateContactMaterials] *)
Definition CreateContactMaterials (contact_method : ChContactMethod)
    (this : TrackShoeDoublePin) (mats : ShoeMaterials) : ShoeMaterials :=
  mkShoeMaterials
    (Some (CreateMaterial (m_cyl_mat_info this) contact_method))
    (fold_left (fun materials minfo =>
                  materials ++ [CreateMaterial minfo contact_method])
               (m_shoe_mat_info this) (m_shoe_materials mats)).

(** The material index [matID] of a shape is an index into [l]. *)
Definition indexes {A : Type} (l : list A) (matID : option Z) : Prop :=
  exists i, matID = Some i /\ 0 <= i < Z.of_nat (List.length l).

(** The material a shape with index [matID] gets: the one created from
    entry [matID] of the materials of the document. *)
Definition material_of (contact_method : ChContactMethod)
    (doc_materials : list Value) (materials : list ChMaterialSurface)
    (matID : option Z) : Prop :=
  exists i v info,
    matID = Some i /\ 0 <= i
    /\ nth_error doc_materials (Z.to_nat i) = Some v
    /\ ReadMaterialInfoJSON v = Some info
    /\ nth_error materials (Z.to_nat i)
       = Some (CreateMaterial info contact_method).

End ContactMaterials.

(** Materials for the example: the contact method is a name, and a
    material is the information it was created from with that name. *)
Module ExampleMaterials.

Definition surfaces : @ChMaterialSurfaces ExampleJSON.json :=
  @Build_ChMaterialSurfaces ExampleJSON.json string
    (double * double * string) (fun info method => (info, method)).

Definition none : @ShoeMaterials ExampleJSON.json surfaces :=
  @mkShoeMaterials ExampleJSON.json surfaces None [].

End ExampleMaterials.

(** ** Further properties of the tire mesh *)

(** The index is outside the array. *)
Definition out_of_range {A : Type} (l : list A) (i : Z) : Prop :=
  i < 0 \/ Z.of_nat (List.length l) <= i.

(** The number of entries of all the lists together. *)
Definition total_entries (adj : list (list nat)) : nat :=
  list_sum (map (@List.length nat) adj).

(** A triangle with a corner that is no vertex of the mesh. *)
Module ExampleDangling.

Definition dangling : RigidTire :=
  mkTire 3 1 [ExampleMesh.pt 0 0 0; ExampleMesh.pt 1 0 0; ExampleMesh.pt 0 1 0]
         [(0, 1, 3)].

End ExampleDangling.

(** ** The visualization assets of the track shoe *)

Inductive VisualizationType : Type := VIS_NONE | VIS_PRIMITIVES | VIS_MESH.

(** What [AddVisualizationAssets] does: it adds to the shoe body a
    triangle mesh shape, loaded from the data file [file] and named
    [name], or it calls the method of the base class. *)
Inductive ShoeVisualization : Type :=
| TriangleMeshShape (file name : string)
| ChTrackShoeDoublePin_AddVisualizationAssets (vis : VisualizationType).

(** [TrackShoeDoublePin::AddVisualizationAssets]; [m_meshName] is a
    member that [Create] does not write. *)
Definition AddVisualizationAssets {json : ChUtilsJSON} (m_meshName : string)
    (vis : VisualizationType) (this : TrackShoeDoublePin) : ShoeVisualization :=
  if (match vis with VIS_MESH => true | _ => false end) && m_has_mesh this
  then TriangleMeshShape (m_meshFile this) m_meshName
  else ChTrackShoeDoublePin_AddVisualizationAssets vis.

(** The member ["Mesh"] of ["Visualization"], if the document has both. *)
Definition mesh_entry (d : Value) : option Value :=
  v <- member "Visualization" d ;; member "Mesh" v.

(** A document whose only collision shape names a material that the
    document does not have. *)
Module ExampleBadIndex.

Definition box_entry : Value :=
  JObject [("Type"%string, JString "BOX"); ("Material Index"%string, JInt 7);
           ("Location"%string, ExampleJSON.vec 0 0 0);
           ("Orientation"%string, ExampleJSON.quat 1 0 0 0);
           ("Dimensions"%string, ExampleJSON.vec 1 2 3)].

Definition doc : Value :=
  JObject
    [("Name"%string, JString "shoe");
     ("Shoe"%string,
      JObject [("Length"%string, JInt 4); ("Width"%string, JInt 3);
               ("Height"%string, JInt 2); ("Mass"%string, JInt 18);
               ("Inertia"%string, ExampleJSON.vec 1 1 1)]);
     ("Connector"%string,
      JObject [("Radius"%string, JInt 1); ("Length"%string, JInt 2);
               ("Width"%string, JInt 3); ("Mass"%string, JInt 2);
               ("Inertia"%string, ExampleJSON.vec 1 1 1)]);
     ("Contact"%string,
      JObject [("Connector Material"%string, ExampleJSON.material);
               ("Shoe Materials"%string, JArray [ExampleJSON.material]);
               ("Shoe Shapes"%string, JArray [box_entry])])].

End ExampleBadIndex.

(** The number of the last of [n] time steps that was followed by an
    update of the scene graph: the largest multiple of the wait states
    that is at most [n]. *)
Definition shown_step (wait_max : Z) (n : nat) : nat :=
  Z.to_nat (wait_max * (Z.of_nat n / wait_max)).

(* ================================================================== *)
(** * Part III: theorems *)
(* ================================================================== *)

(** ** [GetTransform] *)

(** Whatever the children, the loop returns the value of the first
    child with the pair that also stores a transform. *)
Lemma GetTransform_first_complete_match (children : list Node)
    (body asset : Ref) :
  GetTransform children body asset
  = GetTransform_first_complete children body asset.
Proof.
  unfold GetTransform, GetTransform_first_complete.
  induction children as [|n rest IH]; simpl; [reflexivity|].
  unfold carries_pair, carries_transform, stored_transform.
  destruct (bodyPtr n) as [b|]; [|exact IH].
  destruct (assetPtr n) as [a|]; [|exact IH].
  destruct (Ref_eqb body b && Ref_eqb asset a); [|exact IH].
  destruct (transform n) as [t|] eqn:Et; simpl.
  - rewrite Et. reflexivity.
  - exact IH.
Qed.

Lemma find_complete_well_shaped (children : list Node) (body asset : Ref) :
  well_shaped children body asset = true ->
  find (fun n => carries_pair body asset n && carries_transform n) children
  = find (carries_pair body asset) children.
Proof.
  unfold well_shaped.
  induction children as [|n rest IH]; intro Hall; simpl; [reflexivity|].
  simpl in Hall. apply andb_prop in Hall. destruct Hall as [Hn Hrest].
  destruct (carries_pair body asset n); simpl in *.
  - rewrite Hn. reflexivity.
  - apply IH. exact Hrest.
Qed.

(** C1. For every body and asset, on children none of which is ill
    shaped (a child that carries the pair stores a transform, as the
    nodes of the shape objects do and as the loop takes for granted),
    [GetTransform] returns the ["transform"] value stored on the first
    child, in index order, whose stored ["bodyPtr"] and ["assetPtr"] equal
    the body and the asset: with the children split at that child, the
    result is its value. When no child carries the pair, the result is the
    null reference. *)
Theorem GetTransform_first_pair_match (children : list Node)
    (body asset : Ref) :
  well_shaped children body asset = true ->
  GetTransform children body asset
  = GetTransform_first_pair children body asset
  /\ (forall before n after t,
        children = before ++ n :: after ->
        (forall m, In m before -> carries_pair body asset m = false) ->
        carries_pair body asset n = true ->
        transform n = Some t ->
        GetTransform children body asset = t)
  /\ ((forall n, In n children -> carries_pair body asset n = false) ->
      GetTransform children body asset = None).
Proof.
  intro Hws.
  assert (Heq : GetTransform children body asset
                = GetTransform_first_pair children body asset).
  { rewrite GetTransform_first_complete_match.
    unfold GetTransform_first_complete, GetTransform_first_pair.
    rewrite (find_complete_well_shaped _ _ _ Hws). reflexivity. }
  split; [exact Heq|]. rewrite Heq. unfold GetTransform_first_pair.
  clear Heq Hws. split.
  - intros before n after t -> Hbefore Hn Ht.
    induction before as [|m before IH]; simpl.
    + rewrite Hn. unfold stored_transform. rewrite Ht. reflexivity.
    + rewrite (Hbefore m (or_introl eq_refl)).
      apply IH. intros m' Hm'. apply Hbefore. right. exact Hm'.
  - intro Hnone. induction children as [|n rest IH]; simpl; [reflexivity|].
    rewrite (Hnone n (or_introl eq_refl)).
    apply IH. intros m Hm. apply Hnone. right. exact Hm.
Qed.

(** The theorem on three children, the second and the third of which
    carry the pair looked up: the result is the transform of the second. *)
Lemma GetTransform_first_pair_match_witness :
  well_shaped shaped_children (Some 1%nat) (Some 2%nat) = true
  /\ GetTransform shaped_children (Some 1%nat) (Some 2%nat)
     = GetTransform_first_pair shaped_children (Some 1%nat) (Some 2%nat)
  /\ GetTransform shaped_children (Some 1%nat) (Some 2%nat) = Some 7%nat
  /\ GetTransform shaped_children (Some 4%nat) (Some 2%nat) = None.
Proof.
  split; [reflexivity|].
  destruct (GetTransform_first_pair_match shaped_children
              (Some 1%nat) (Some 2%nat) eq_refl) as (Heq & Hfirst & _).
  split; [exact Heq|]. split.
  - apply (Hfirst
             [mkNode (Some (Some 1%nat)) (Some (Some 3%nat)) (Some (Some 5%nat))]
             (mkNode (Some (Some 1%nat)) (Some (Some 2%nat)) (Some (Some 7%nat)))
             [mkNode (Some (Some 1%nat)) (Some (Some 2%nat)) (Some (Some 9%nat))]
             (Some 7%nat)).
    + reflexivity.
    + intros m [<-|[]]. reflexivity.
    + reflexivity.
    + reflexivity.
  - destruct (GetTransform_first_pair_match shaped_children
                (Some 4%nat) (Some 2%nat) eq_refl) as (_ & _ & Hnone).
    apply Hnone. intros n [<-|[<-|[<-|[]]]]; reflexivity.
Defined.

(** On an ill-shaped child, which the loop logs as something that should
    never happen, the search goes on: the result is then the transform of
    a later child with the pair. *)
Lemma GetTransform_ill_shaped :
  well_shaped ill_shaped_children (Some 1%nat) (Some 2%nat) = false
  /\ GetTransform ill_shaped_children (Some 1%nat) (Some 2%nat) = Some 7%nat.
Proof. split; reflexivity. Qed.

(** ** Comparison of doubles *)

Lemma SFcompare_refl (x : double) :
  Double.is_nan x = false -> SFcompare x x = Some Eq.
Proof.
  destruct x as [s|s| |s m e]; simpl; intro H; try reflexivity; try discriminate.
  - destruct s; reflexivity.
  - destruct s; rewrite Z.compare_refl;
      change (Pos.compare_cont Eq m m) with (Pos.compare m m);
      rewrite Pos.compare_refl; reflexivity.
Qed.

Lemma SFcompare_antisym (a b : double) (c : comparison) :
  SFcompare a b = Some c -> SFcompare b a = Some (CompOpp c).
Proof.
  destruct a as [sa|sa| |sa ma ea], b as [sb|sb| |sb mb eb]; simpl;
    intro H; try discriminate;
    try (injection H as <-; try destruct sa; try destruct sb; reflexivity).
  injection H as <-.
  destruct sa, sb; simpl; try reflexivity.
  - rewrite (Z.compare_antisym ea eb).
    destruct (ea ?= eb); simpl; try reflexivity.
    change (Pos.compare_cont Eq mb ma) with (Pos.compare mb ma).
    change (Pos.compare_cont Eq ma mb) with (Pos.compare ma mb).
    rewrite (Pos.compare_antisym ma mb). reflexivity.
  - rewrite (Z.compare_antisym ea eb).
    destruct (ea ?= eb); simpl; try reflexivity.
    change (Pos.compare_cont Eq mb ma) with (Pos.compare mb ma).
    change (Pos.compare_cont Eq ma mb) with (Pos.compare ma mb).
    rewrite (Pos.compare_antisym ma mb).
    destruct (ma ?= mb)%positive; reflexivity.
Qed.

Lemma SFcompare_defined (a b : double) :
  Double.is_nan a = false -> Double.is_nan b = false ->
  exists c, SFcompare a b = Some c.
Proof.
  destruct a, b; simpl; intros Ha Hb; try discriminate; eexists; reflexivity.
Qed.

Lemma leb_refl (x : double) : Double.is_nan x = false -> Double.leb x x = true.
Proof.
  intro H. unfold Double.leb, SFleb. rewrite (SFcompare_refl x H). reflexivity.
Qed.

Lemma ltb_leb (a b : double) : Double.ltb a b = true -> Double.leb a b = true.
Proof.
  unfold Double.ltb, Double.leb, SFltb, SFleb.
  destruct (SFcompare a b) as [[]|]; intro; try discriminate; reflexivity.
Qed.

Lemma not_ltb_leb (a b : double) :
  Double.is_nan a = false -> Double.is_nan b = false ->
  Double.ltb b a = false -> Double.leb a b = true.
Proof.
  intros Ha Hb. unfold Double.ltb, Double.leb, SFltb, SFleb.
  destruct (SFcompare_defined b a Hb Ha) as [c Hc].
  rewrite Hc, (SFcompare_antisym b a c Hc).
  destruct c; simpl; intro; try discriminate; reflexivity.
Qed.

Lemma ltb_not_leb (a b : double) : Double.ltb a b = true -> Double.leb b a = false.
Proof.
  unfold Double.ltb, Double.leb, SFltb, SFleb.
  destruct (SFcompare a b) as [c|] eqn:Hc; [|discriminate].
  rewrite (SFcompare_antisym a b c Hc).
  destruct c; simpl; intro; try discriminate; reflexivity.
Qed.

(** A double not below the literal [10e-12] is above zero. *)
Lemma leb_not_ltb (a b : double) : Double.leb a b = true -> Double.ltb b a = false.
Proof.
  unfold Double.ltb, Double.leb, SFltb, SFleb.
  destruct (SFcompare a b) as [c|] eqn:Hc; [|discriminate].
  rewrite (SFcompare_antisym a b c Hc).
  destruct c; intro; try discriminate; reflexivity.
Qed.

Lemma above_lit_positive (v : double) :
  Double.leb Double.lit_10em12 v = true -> Double.ltb Double.zero v = true.
Proof.
  destruct v as [s|s| |s m e]; try (destruct s); simpl;
    unfold Double.leb, Double.ltb, SFleb, SFltb; simpl; intro H;
    try discriminate; reflexivity.
Qed.

(** ** [ChMax] *)


Lemma less_maximum : ChMax_maximum OneComparison.less.
Proof.
  split.
  - intros a b. cbn [ChMax OneComparison.less].
    destruct (Double.ltb a b); [right|left]; reflexivity.
  - intros a b Ha Hb. cbn [ChMax OneComparison.less].
    destruct (Double.ltb a b) eqn:E.
    + split; [apply ltb_leb; exact E|apply leb_refl; exact Hb].
    + split; [apply leb_refl; exact Ha|apply not_ltb_leb; assumption].
Qed.

(** The two maxima by one comparison differ on a NaN: one stores the
    NaN as the scale, the other stores [10e-12]. *)
Lemma SetSymbolscale_nan_by_comparison :
  symbolscale (@SetSymbolscale OneComparison.greater S754_nan ChIrrGUI_new)
  = S754_nan
  /\ symbolscale (@SetSymbolscale OneComparison.less S754_nan ChIrrGUI_new)
     = Double.lit_10em12.
Proof. split; reflexivity. Qed.

Section Setters.
Context {core : ChMathematics}.
Hypothesis ChMax_law : ChMax_maximum core.

Lemma ChMax_is_max (a b : double) :
  Double.is_nan a = false -> Double.is_nan b = false ->
  is_max_of a b (ChMax a b).
Proof.
  intros Ha Hb. destruct ChMax_law as [Hsel Hmax].
  split; [apply Hsel|apply Hmax; assumption].
Qed.

Lemma ChMax_nan (a : double) :
  ChMax a S754_nan = a \/ ChMax a S754_nan = S754_nan.
Proof. apply ChMax_law. Qed.

Lemma ChMax_lit_not_le_zero (v : double) :
  Double.leb (ChMax Double.lit_10em12 v) Double.zero = false.
Proof.
  destruct (Double.is_nan v) eqn:Hn.
  - destruct v; try discriminate.
    destruct (ChMax_nan Double.lit_10em12) as [-> | ->]; reflexivity.
  - apply ltb_not_leb. apply above_lit_positive.
    apply (ChMax_is_max Double.lit_10em12 v); [reflexivity|exact Hn].
Qed.

Lemma ChMax_zero_not_negative (v : double) :
  Double.ltb (ChMax Double.zero v) Double.zero = false.
Proof.
  destruct (Double.is_nan v) eqn:Hn.
  - destruct v; try discriminate.
    destruct (ChMax_nan Double.zero) as [-> | ->]; reflexivity.
  - destruct (ChMax_is_max Double.zero v eq_refl Hn) as (_ & H & _).
    apply leb_not_ltb. exact H.
Qed.

(** ** The GUI setters *)

(** A GUI event keeps the three members clamped, whatever the text of
    the edit box. *)
Lemma gui_event_keeps_clamped (e : SGUIEvent) (g : ChIrrGUI) :
  clamped g -> clamped (gui_event e g).
Proof.
  intros (Hs & Ha & Hp). unfold gui_event, clamped.
  destruct (GUI_EventType e).
  - destruct (Caller_getID e =? 9921).
    { simpl. split; [apply ChMax_lit_not_le_zero|split; assumption]. }
    destruct (Caller_getID e =? 9927).
    { simpl. split; [assumption|].
      split; [apply ChMax_zero_not_negative|assumption]. }
    destruct (Caller_getID e =? 9928).
    { simpl. split; [assumption|].
      split; [assumption|apply ChMax_zero_not_negative]. }
    repeat split; assumption.
  - destruct (Caller_getID e =? 9926); simpl; repeat split; assumption.
  - repeat split; assumption.
Qed.

End Setters.



(** ** The event receiver *)

Lemma offer_to_receivers_spec (recvs : list IEventReceiver) (event : SEvent)
    (g : ChIrrGUI) :
  offer_to_receivers recvs event g
  = (taken_by_user recvs event,
     set_logs (offered g ++ offers_until recvs event) (effects g) g).
Proof.
  revert g. induction recvs as [|r rest IH]; intro g; simpl.
  - rewrite app_nil_r. destruct g; reflexivity.
  - destruct (receiver_OnEvent r event); simpl.
    + reflexivity.
    + rewrite IH. simpl. rewrite <- app_assoc. reflexivity.
Qed.

Lemma register_all_receivers (recvs : list IEventReceiver) (g : ChIrrGUI) :
  m_user_receivers (register_all recvs g) = m_user_receivers g ++ recvs.
Proof.
  revert g. induction recvs as [|r rest IH]; intro g; simpl.
  - rewrite app_nil_r. reflexivity.
  - unfold register_all in IH. rewrite IH. simpl.
    rewrite <- app_assoc. reflexivity.
Qed.

Lemma offers_until_taker (pre post : list IEventReceiver) (r : IEventReceiver)
    (event : SEvent) :
  (forall p, In p pre -> receiver_OnEvent p event = false) ->
  receiver_OnEvent r event = true ->
  offers_until (pre ++ r :: post) event = map receiver_name (pre ++ [r])
  /\ taken_by_user (pre ++ r :: post) event = true.
Proof.
  intros Hpre Hr. induction pre as [|p pre IH]; simpl.
  - rewrite Hr. split; reflexivity.
  - rewrite (Hpre p (or_introl eq_refl)). simpl.
    destruct IH as [IH1 IH2]; [intros q Hq; apply Hpre; right; exact Hq|].
    rewrite IH1. split; [reflexivity|exact IH2].
Qed.

Lemma offers_until_declined (recvs : list IEventReceiver) (event : SEvent) :
  taken_by_user recvs event = false ->
  offers_until recvs event = map receiver_name recvs.
Proof.
  induction recvs as [|r rest IH]; simpl; [reflexivity|].
  destruct (receiver_OnEvent r event); simpl; [discriminate|].
  intro H. rewrite (IH H). reflexivity.
Qed.

(** [SetBlenderSave] writes the save flag; switching on without an
    exporter creates one, sets it up and resets the frame number. *)
Lemma SetBlenderSave_spec (val : bool) (g : ChIrrGUI) :
  SetBlenderSave val g
  = set_blender val
      (match blender_exporter g with
       | None => if val then 0 else blender_num g
       | Some _ => blender_num g
       end)
      (match blender_exporter g with
       | None => if val then Some (setup (GetCameraVertical g)) else None
       | Some exporter => Some exporter
       end)
      (drawProfiler g) g.
Proof.
  unfold SetBlenderSave, setup.
  destruct val, (blender_exporter g) eqn:E; cbn; rewrite ?E;
    try reflexivity.
  destruct (GetCameraVertical g); reflexivity.
Qed.

(** What the release of a key with a case in the [switch] leaves of the
    user receivers and of the log of the offers. *)
Lemma key_released_receivers (postprocess : bool) (k : EKEY_CODE)
    (g g' : ChIrrGUI) :
  key_released postprocess k g = Some g' ->
  m_user_receivers g' = m_user_receivers g /\ offered g' = offered g.
Proof.
  destruct k; cbn [key_released]; intro H; try discriminate;
    injection H as <-; try (split; reflexivity).
  - destruct (Double.leb _ _); split; reflexivity.
  - destruct (Double.geb _ _); split; reflexivity.
  - destruct postprocess; [|split; reflexivity].
    destruct (negb (blender_save g)); rewrite SetBlenderSave_spec;
      split; reflexivity.
Qed.

(** The release of a key leaves the scale, the amplitude and the speed
    as they are. *)
Lemma key_released_clamped (postprocess : bool) (k : EKEY_CODE)
    (g g' : ChIrrGUI) :
  key_released postprocess k g = Some g' -> clamped g -> clamped g'.
Proof.
  destruct k; cbn [key_released]; intro H; try discriminate;
    injection H as <-; try (intro Hc; exact Hc).
  - destruct (Double.leb _ _); intro Hc; exact Hc.
  - destruct (Double.geb _ _); intro Hc; exact Hc.
  - destruct postprocess; [|intro Hc; exact Hc].
    destruct (negb (blender_save g)); rewrite SetBlenderSave_spec;
      intro Hc; exact Hc.
Qed.

Section ReceiverTheorems.
Context {core : ChMathematics}.

Lemma gui_event_receivers (e : SGUIEvent) (g : ChIrrGUI) :
  m_user_receivers (gui_event e g) = m_user_receivers g
  /\ offered (gui_event e g) = offered g.
Proof.
  unfold gui_event. destruct (GUI_EventType e).
  - destruct (_ =? 9921); [split; reflexivity|].
    destruct (_ =? 9927); [split; reflexivity|].
    destruct (_ =? 9928); split; reflexivity.
  - destruct (_ =? 9926); split; reflexivity.
  - split; reflexivity.
Qed.

(** [OnEvent] on a receiver with a GUI: the answer and the GUI it
    leaves, by cases on the event. *)
Lemma OnEvent_cases (postprocess : bool) (g : ChIrrGUI) (event : SEvent) :
  let g1 := after_offers event g in
  OnEvent postprocess (mkEventReceiver (Some g)) event
  = if taken_by_user (m_user_receivers g) event
    then Some (true, mkEventReceiver (Some g1))
    else
      match event with
      | EET_KEY_INPUT_EVENT k =>
          if PressedDown k then Some (false, mkEventReceiver (Some g1))
          else
            match key_released postprocess (Key k) g1 with
            | Some g' => Some (true, mkEventReceiver (Some g'))
            | None => Some (false, mkEventReceiver (Some g1))
            end
      | EET_GUI_EVENT e => Some (false, mkEventReceiver (Some (gui_event e g1)))
      | EET_OTHER_EVENT _ => Some (false, mkEventReceiver (Some g1))
      end.
Proof.
  intro g1. unfold OnEvent. cbn [m_gui]. rewrite offer_to_receivers_spec.
  fold (after_offers event g). fold g1.
  destruct (taken_by_user (m_user_receivers g) event); [reflexivity|].
  destruct event as [k|e|c]; [|reflexivity|reflexivity].
  destruct (PressedDown k); cbn [negb]; [reflexivity|].
  destruct (key_released postprocess (Key k) g1); reflexivity.
Qed.

(** C5. Every event is first offered to the user receivers, in the
    order in which [AddUserEventReceiver] registered them: the receivers
    that see the event are those up to the first one that returns true. If
    one returns true, [OnEvent] returns true and the GUI is left as it
    was, but for the log of the offers: no key or widget is processed. *)
Theorem OnEvent_user_receivers_first (postprocess : bool)
    (recvs : list IEventReceiver) (g0 : ChIrrGUI) (event : SEvent) :
  let g := register_all recvs g0 in
  m_user_receivers g = m_user_receivers g0 ++ recvs
  /\ (forall b this', OnEvent postprocess (mkEventReceiver (Some g)) event
                      = Some (b, this') ->
        exists g', m_gui this' = Some g'
          /\ offered g' = offered g ++ offers_until (m_user_receivers g) event)
  /\ (taken_by_user (m_user_receivers g) event = true ->
        OnEvent postprocess (mkEventReceiver (Some g)) event
        = Some (true, mkEventReceiver (Some (after_offers event g))))
  /\ (forall pre r post,
        m_user_receivers g = pre ++ r :: post ->
        (forall p, In p pre -> receiver_OnEvent p event = false) ->
        receiver_OnEvent r event = true ->
        offered (after_offers event g)
        = offered g ++ map receiver_name (pre ++ [r])).
Proof.
  intro g. split; [apply register_all_receivers|]. split; [|split].
  - intros b this'. rewrite OnEvent_cases.
    destruct (taken_by_user (m_user_receivers g) event).
    + intro H. injection H as <- <-. eexists. split; reflexivity.
    + destruct event as [k|e|c].
      * destruct (PressedDown k).
        -- intro H; injection H as <- <-. eexists; split; reflexivity.
        -- destruct (key_released postprocess (Key k) (after_offers _ g))
             as [g'|] eqn:E; intro H; injection H as <- <-.
           ++ eexists. split; [reflexivity|].
              destruct (key_released_receivers _ _ _ _ E) as [_ ->].
              reflexivity.
           ++ eexists; split; reflexivity.
      * intro H; injection H as <- <-. eexists. split; [reflexivity|].
        destruct (gui_event_receivers e (after_offers (EET_GUI_EVENT e) g))
          as [_ ->].
        reflexivity.
      * intro H; injection H as <- <-. eexists; split; reflexivity.
  - intro Ht. rewrite OnEvent_cases, Ht. reflexivity.
  - intros pre r post Hrs Hpre Hr. unfold after_offers. simpl. rewrite Hrs.
    destruct (offers_until_taker pre post r event Hpre Hr) as [H _].
    rewrite H. reflexivity.
Qed.

(** C4. When no user receiver takes the event: a key event with
    [PressedDown] set is answered false and leaves every member of the
    GUI as it was, but for the log of the offers; the release of 'I'
    negates [show_infos], the release of 'O' negates [show_profiler] and
    the release of 'U' negates [show_explorer], each leaving the two
    other flags and the other members as they were, and each is answered
    true; and the answer of [OnEvent] is true exactly for the release of
    a key the [switch] has a case for, so every other event, the GUI
    events among them, is answered false. *)
Theorem OnEvent_keyboard (postprocess : bool) (g : ChIrrGUI) (event : SEvent) :
  taken_by_user (m_user_receivers g) event = false ->
  let this := mkEventReceiver (Some g) in
  (exists g2, OnEvent postprocess this event
              = Some (recognized_key_release event, mkEventReceiver (Some g2)))
  /\ (forall k, event = press k ->
        exists g2,
          OnEvent postprocess this event
          = Some (false, mkEventReceiver (Some g2))
          /\ show_infos g2 = show_infos g
          /\ show_profiler g2 = show_profiler g
          /\ show_explorer g2 = show_explorer g
          /\ other_members g2 = other_members g)
  /\ (event = release KEY_KEY_I ->
        exists g2,
          OnEvent postprocess this event
          = Some (true, mkEventReceiver (Some g2))
          /\ show_infos g2 = negb (show_infos g)
          /\ show_profiler g2 = show_profiler g
          /\ show_explorer g2 = show_explorer g
          /\ other_members g2 = other_members g)
  /\ (event = release KEY_KEY_O ->
        exists g2,
          OnEvent postprocess this event
          = Some (true, mkEventReceiver (Some g2))
          /\ show_infos g2 = show_infos g
          /\ show_profiler g2 = negb (show_profiler g)
          /\ show_explorer g2 = show_explorer g
          /\ other_members g2 = other_members g)
  /\ (event = release KEY_KEY_U ->
        exists g2,
          OnEvent postprocess this event
          = Some (true, mkEventReceiver (Some g2))
          /\ show_infos g2 = show_infos g
          /\ show_profiler g2 = show_profiler g
          /\ show_explorer g2 = negb (show_explorer g)
          /\ other_members g2 = other_members g).
Proof.
  intros Ht this. unfold this. rewrite OnEvent_cases, Ht.
  split; [|split; [|split; [|split]]].
  - destruct event as [[k pd]|e|c]; cbn [PressedDown Key].
    + destruct pd; [eexists; reflexivity|].
      destruct k; cbn [key_released recognized_key_release release
                       PressedDown Key negb andb];
        eexists; reflexivity.
    + eexists; reflexivity.
    + eexists; reflexivity.
  - intros k ->. eexists. split; [reflexivity|]. repeat split.
  - intros ->. eexists. split; [reflexivity|]. repeat split.
  - intros ->. eexists. split; [reflexivity|]. repeat split.
  - intros ->. eexists. split; [reflexivity|]. repeat split.
Qed.

(** Whatever the event, [OnEvent] keeps the scale, the amplitude and
    the speed clamped. *)
Lemma OnEvent_keeps_clamped (postprocess : bool) (g : ChIrrGUI) (event : SEvent)
    (b : bool) (this' : ChIrrEventReceiver) :
  ChMax_maximum core ->
  clamped g ->
  OnEvent postprocess (mkEventReceiver (Some g)) event = Some (b, this') ->
  exists g', m_gui this' = Some g' /\ clamped g'.
Proof.
  intros Hlaw Hc. rewrite OnEvent_cases.
  assert (Hc1 : clamped (after_offers event g)) by exact Hc.
  destruct (taken_by_user (m_user_receivers g) event).
  - intro H. injection H as <- <-. eexists. split; [reflexivity|exact Hc1].
  - destruct event as [k|e|c].
    + destruct (PressedDown k).
      * intro H. injection H as <- <-. eexists. split; [reflexivity|exact Hc1].
      * destruct (key_released postprocess (Key k) (after_offers _ g))
          as [g'|] eqn:E; intro H; injection H as <- <-.
        -- eexists. split; [reflexivity|].
           exact (key_released_clamped _ _ _ _ E Hc1).
        -- eexists. split; [reflexivity|exact Hc1].
    + intro H. injection H as <- <-. eexists. split; [reflexivity|].
      apply gui_event_keeps_clamped; [exact Hlaw|exact Hc1].
    + intro H. injection H as <- <-. eexists. split; [reflexivity|exact Hc1].
Qed.

End ReceiverTheorems.

(** The theorem for the releases of 'I', 'O' and 'U' on a GUI with no
    flag set and one user receiver that declines everything: each sets
    its own flag and leaves the two others clear. *)
Lemma OnEvent_keyboard_witness :
  let g := register_all [bystander 1] ChIrrGUI_new in
  let this := mkEventReceiver (Some g) in
  taken_by_user (m_user_receivers g) (release KEY_KEY_I) = false
  /\ (exists g2,
        @OnEvent OneComparison.greater false this (release KEY_KEY_I)
        = Some (true, mkEventReceiver (Some g2))
        /\ show_infos g2 = true /\ show_profiler g2 = false
        /\ show_explorer g2 = false)
  /\ (exists g2,
        @OnEvent OneComparison.greater false this (release KEY_KEY_O)
        = Some (true, mkEventReceiver (Some g2))
        /\ show_infos g2 = false /\ show_profiler g2 = true
        /\ show_explorer g2 = false)
  /\ (exists g2,
        @OnEvent OneComparison.greater false this (release KEY_KEY_U)
        = Some (true, mkEventReceiver (Some g2))
        /\ show_infos g2 = false /\ show_profiler g2 = false
        /\ show_explorer g2 = true).
Proof.
  intros g this. split; [reflexivity|]. split; [|split].
  - destruct (@OnEvent_keyboard OneComparison.greater false g
                (release KEY_KEY_I) eq_refl)
      as (_ & _ & H & _).
    destruct (H eq_refl) as (g2 & Hg & Hi & Hp & He & _).
    exists g2. split; [exact Hg|]. rewrite Hi, Hp, He. repeat split.
  - destruct (@OnEvent_keyboard OneComparison.greater false g
                (release KEY_KEY_O) eq_refl)
      as (_ & _ & _ & H & _).
    destruct (H eq_refl) as (g2 & Hg & Hi & Hp & He & _).
    exists g2. split; [exact Hg|]. rewrite Hi, Hp, He. repeat split.
  - destruct (@OnEvent_keyboard OneComparison.greater false g
                (release KEY_KEY_U) eq_refl)
      as (_ & _ & _ & _ & H).
    destruct (H eq_refl) as (g2 & Hg & Hi & Hp & He & _).
    exists g2. split; [exact Hg|]. rewrite Hi, Hp, He. repeat split.
Defined.

(** The theorem for two receivers registered in the order 1, 2, of which
    the second takes key events: both are offered the release of 'I', in
    that order, the answer is true and [show_infos] is not toggled. *)
Lemma OnEvent_user_receivers_first_witness :
  exists g',
    @OnEvent OneComparison.greater false
      (mkEventReceiver (Some (register_all [bystander 1; key_taker 2] ChIrrGUI_new)))
      (release KEY_KEY_I)
    = Some (true, mkEventReceiver (Some g'))
    /\ offered g' = [1%nat; 2%nat] /\ show_infos g' = false.
Proof.
  destruct (@OnEvent_user_receivers_first OneComparison.greater false
              [bystander 1; key_taker 2] ChIrrGUI_new (release KEY_KEY_I))
    as (_ & _ & H & _).
  eexists. split; [apply H; reflexivity|]. split; reflexivity.
Defined.

(** ** The scene graph *)

Section ViewerTheorems.
Context {math : ChMath} {ext : Externals}.

Lemma entry_nodes_app (base : nat) (a b : list ShapeEntry) :
  entry_nodes base (a ++ b)
  = entry_nodes base a ++ entry_nodes (base + List.length a) b.
Proof.
  revert base. induction a as [|e a IH]; intro base; simpl.
  - rewrite Nat.add_0_r. reflexivity.
  - rewrite IH. rewrite Nat.add_succ_r. reflexivity.
Qed.

Lemma entry_nodes_length (base : nat) (es : list ShapeEntry) :
  List.length (entry_nodes base es) = List.length es.
Proof.
  revert base. induction es as [|e es IH]; intro base; simpl;
    [reflexivity|rewrite IH; reflexivity].
Qed.

(** One pass of the four [if]s on a visualization asset adds what
    [shape_of] says. *)
Lemma build_asset_spec (body : ChBody) (mat : BodyMaterial)
    (tr : list dmat4) (ch : list Node) (asset : ChAsset) :
  is_ChVisualization (asset_class asset) = true ->
  build_asset body mat (tr, ch) asset
  = Some (tr ++ map entry_matrix
                    (asset_shapes body (shape_Initialize mat) [asset]),
          ch ++ entry_nodes (List.length tr)
                            (asset_shapes body (shape_Initialize mat) [asset])).
Proof.
  unfold build_asset, asset_shapes. intro Hv. rewrite Hv. simpl.
  destruct (asset_class asset); simpl; rewrite ?app_nil_r; reflexivity.
Qed.


Lemma asset_shapes_cons (body : ChBody) (init : ShapeInit) (a : ChAsset)
    (assets : list ChAsset) :
  asset_shapes body init (a :: assets)
  = asset_shapes body init [a] ++ asset_shapes body init assets.
Proof. unfold asset_shapes. simpl. rewrite app_nil_r. reflexivity. Qed.

Lemma build_assets_spec (body : ChBody) (mat : BodyMaterial)
    (assets : list ChAsset) (tr : list dmat4) (ch : list Node) :
  forallb (fun asset => is_ChVisualization (asset_class asset)) assets = true ->
  fold_opt (build_asset body mat) assets (tr, ch)
  = Some (tr ++ map entry_matrix
                    (asset_shapes body (shape_Initialize mat) assets),
          ch ++ entry_nodes (List.length tr)
                            (asset_shapes body (shape_Initialize mat) assets)).
Proof.
  revert tr ch. induction assets as [|a assets IH]; intros tr ch Hv.
  - simpl. rewrite !app_nil_r. reflexivity.
  - cbn [forallb] in Hv. apply andb_prop in Hv. destruct Hv as [Ha Hv].
    cbn [fold_opt]. rewrite (build_asset_spec _ _ _ _ _ Ha). cbn [bind].
    rewrite (IH _ _ Hv).
    rewrite (asset_shapes_cons body (shape_Initialize mat) a assets).
    rewrite map_app, entry_nodes_app, !app_assoc.
    rewrite !length_app, length_map. reflexivity.
Qed.

Lemma build_bodies_spec (bodies : list ChBody) (tr : list dmat4) (ch : list Node) :
  visualization_only bodies = true ->
  fold_opt build_body bodies (tr, ch)
  = Some (tr ++ map entry_matrix (system_shapes bodies),
          ch ++ entry_nodes (List.length tr) (system_shapes bodies)).
Proof.
  revert tr ch. induction bodies as [|b bodies IH]; intros tr ch Hv.
  - simpl. rewrite !app_nil_r. reflexivity.
  - cbn [visualization_only forallb] in Hv. apply andb_prop in Hv.
    destruct Hv as [Hb Hv].
    cbn [fold_opt]. unfold build_body at 1.
    rewrite (build_assets_spec _ _ _ _ _ Hb). cbn [bind].
    rewrite (IH _ _ Hv).
    change (system_shapes (b :: bodies))
      with (asset_shapes b (shape_Initialize (body_material b)) (GetAssets b)
            ++ system_shapes bodies).
    unfold body_material.
    rewrite map_app, entry_nodes_app, !app_assoc.
    rewrite !length_app, length_map. reflexivity.
Qed.

Lemma BuildSceneGraph_spec (app : ChVSGApp) (sys : ChSystem)
    (children : list Node) :
  m_system app = Some sys -> m_scenegraph app = Some children ->
  visualization_only (Get_bodylist sys) = true ->
  BuildSceneGraph app
  = Some (set_m_build_graph false
            (set_m_scenegraph
               (Some (children
                      ++ entry_nodes (List.length (m_transforms app))
                                     (system_shapes (Get_bodylist sys))))
               (set_m_transforms
                  (m_transforms app
                   ++ map entry_matrix (system_shapes (Get_bodylist sys)))
                  app))).
Proof.
  intros Hs Hc Hv. unfold BuildSceneGraph. rewrite Hs, Hc. cbn [bind].
  rewrite (build_bodies_spec _ _ _ Hv). reflexivity.
Qed.

Lemma asset_shapes_count (body : ChBody) (init : ShapeInit)
    (assets : list ChAsset) :
  List.length (asset_shapes body init assets)
  = List.length (filter is_shape assets).
Proof.
  induction assets as [|a assets IH]; simpl; [reflexivity|].
  unfold is_shape at 1.
  destruct (shape_of (asset_class a)) as [[[c v] s]|]; simpl; rewrite <- IH;
    reflexivity.
Qed.

Lemma system_shapes_count (bodies : list ChBody) :
  List.length (system_shapes bodies)
  = list_sum (map (fun b => List.length (filter is_shape (GetAssets b))) bodies).
Proof.
  induction bodies as [|b bodies IH]; [reflexivity|].
  change (system_shapes (b :: bodies))
    with (asset_shapes b (shape_Initialize (body_material b)) (GetAssets b)
          ++ system_shapes bodies).
  rewrite length_app, asset_shapes_count, IH. reflexivity.
Qed.

(** C2 (as amended). On a system whose assets are all visualization
    assets, as the unchecked cast of the loop takes them to be,
    [BuildSceneGraph] adds to the scene graph exactly one child for every
    body of the body list and every asset on it that is a box, a sphere,
    an ellipsoid or a cylinder, in that order; the transform of the child
    is the product of the translation by the body position plus the
    body-rotated asset offset, the rotation (as angle and axis) of the
    body rotation composed with the rotation of the asset and normalized,
    and the scaling by the size of the shape. *)
Theorem BuildSceneGraph_children (app : ChVSGApp) (sys : ChSystem)
    (children : list Node) :
  m_system app = Some sys -> m_scenegraph app = Some children ->
  visualization_only (Get_bodylist sys) = true ->
  let shapes := system_shapes (Get_bodylist sys) in
  let first := List.length (m_transforms app) in
  exists app',
    BuildSceneGraph app = Some app'
    /\ m_scenegraph app' = Some (children ++ entry_nodes first shapes)
    /\ m_transforms app' = m_transforms app ++ map entry_matrix shapes
    /\ List.length (entry_nodes first shapes)
       = list_sum (map (fun b => List.length (filter is_shape (GetAssets b)))
                       (Get_bodylist sys))
    /\ (forall k e, nth_error shapes k = Some e ->
          nth_error (m_transforms app') (first + k)
          = Some (matrix_composed_rotation (entry_body e) (entry_vis e)
                                           (entry_size e))).
Proof.
  intros Hs Hc Hv shapes first. eexists.
  split; [apply BuildSceneGraph_spec; eassumption|].
  split; [reflexivity|]. split; [reflexivity|]. split.
  - rewrite entry_nodes_length. apply system_shapes_count.
  - intros k e Hk. simpl. unfold first.
    rewrite nth_error_app2 by lia.
    replace (List.length (m_transforms app) + k - List.length (m_transforms app))%nat
      with k by lia.
    rewrite nth_error_map. fold shapes. rewrite Hk. reflexivity.
Qed.

End ViewerTheorems.

(** The theorem on the small scene: two children, for the box and for
    the sphere of the body, the third visualization asset adding none. *)
Lemma BuildSceneGraph_children_witness :
  exists app',
    @BuildSceneGraph Textbook.math Example.ext Example.app_ready = Some app'
    /\ option_map (@List.length Node) (m_scenegraph app') = Some 2%nat
    /\ List.length (m_transforms app') = 2%nat.
Proof.
  destruct (@BuildSceneGraph_children Textbook.math Example.ext
              Example.app_ready Example.system1 [] eq_refl eq_refl eq_refl)
    as (app' & H & Hc & Ht & _).
  exists app'. split; [exact H|]. rewrite Hc, Ht. split; reflexivity.
Defined.

(** C2, counterexample. The box is turned by half a turn on a body that
    is not rotated: the rotation of its transform is the half turn, not
    the rotation of the body. *)
Lemma BuildSceneGraph_not_body_rotation :
  exists app',
    @BuildSceneGraph Textbook.math Example.ext Example.app_ready = Some app'
    /\ nth_error (m_transforms app') 0
       = Some (mat_mul
                 (mat_mul (translate Double.zero Double.zero Double.zero)
                          (rotate (Q_to_AngAxis Example.half_turn_x)))
                 (scale Double.one Double.one Double.one))
    /\ nth_error (m_transforms app') 0
       <> Some (@matrix_body_rotation Textbook.math Example.body1
                  (mkVisualization Example.origin Example.half_turn_x)
                  Example.unit_size).
Proof.
  exists Example.app_built. split; [vm_compute; reflexivity|].
  split; [vm_compute; reflexivity|].
  vm_compute. discriminate.
Qed.

(** ** [Initialize] *)

Section InitializeTheorems.
Context {math : ChMath} {ext : Externals}.

(** C10. [Initialize] returns false and leaves the application as it
    is, the system pointer not stored, when the system pointer is null.
    With a system whose assets are all visualization assets, as the
    unchecked cast of [BuildSceneGraph] takes them to be, it stores the
    pointer and builds the scene graph; it then returns false when the
    window cannot be created, and true when it can, the viewer then
    holding the window, the close and trackball handlers and the command
    graph, compiled. It returns true only for a system that is not null
    and a window that was created. *)
Theorem Initialize_result (w h : Z) (title : string) (app : ChVSGApp) :
  let traits := mkTraits title w h 100 100 in
  Initialize w h title None app = Some (false, app)
  /\ (forall sys wait_max,
        wait_states app = Some wait_max ->
        visualization_only (Get_bodylist sys) = true ->
        Window_create traits = None ->
        exists app',
          Initialize w h title (Some sys) app = Some (false, app')
          /\ m_system app' = Some sys /\ m_window app' = None)
  /\ (forall sys wait_max window,
        wait_states app = Some wait_max ->
        visualization_only (Get_bodylist sys) = true ->
        Window_create traits = Some window ->
        exists app',
          Initialize w h title (Some sys) app = Some (true, app')
          /\ m_system app' = Some sys
          /\ m_wait_counter_max app' = wait_max
          /\ m_scenegraph app'
             = Some (entry_nodes (List.length (m_transforms app))
                                 (system_shapes (Get_bodylist sys)))
          /\ m_transforms app'
             = m_transforms app
               ++ map entry_matrix (system_shapes (Get_bodylist sys))
          /\ m_build_graph app' = false
          /\ m_viewer app'
             = Some (mkViewer [mkWindow (window_traits window) (m_clearColor app)]
                              [CloseHandler; Trackball] 1 true))
  /\ (forall system app',
        Initialize w h title system app = Some (true, app') ->
        system <> None /\ Window_create traits <> None).
Proof.
  intro traits. split; [reflexivity|]. split; [|split].
  - intros sys wait_max Hw Hv Hwin. unfold Initialize.
    unfold wait_states in Hw. cbn [m_outputStep m_timeStep set_m_scenegraph
      set_m_windowTraits set_m_system]. rewrite Hw. cbn [bind].
    erewrite (BuildSceneGraph_spec _ sys []);
      [|reflexivity|reflexivity|exact Hv]. cbn [bind].
    fold traits. cbn. rewrite Hwin. eexists. split; [reflexivity|].
    split; reflexivity.
  - intros sys wait_max window Hw Hv Hwin. unfold Initialize.
    unfold wait_states in Hw. cbn [m_outputStep m_timeStep set_m_scenegraph
      set_m_windowTraits set_m_system]. rewrite Hw. cbn [bind].
    erewrite (BuildSceneGraph_spec _ sys []);
      [|reflexivity|reflexivity|exact Hv]. cbn [bind].
    fold traits. cbn. rewrite Hwin. eexists. split; [reflexivity|].
    repeat split; reflexivity.
  - intros system app' H. destruct system as [sys|]; [|discriminate H].
    split; [discriminate|]. intro Hwin. unfold Initialize in H.
    cbn [m_outputStep m_timeStep set_m_scenegraph set_m_windowTraits
         set_m_system] in H.
    destruct (if Double.leb (m_outputStep app) (m_timeStep app) then Some 1
              else Double.to_size_t (Double.div (m_outputStep app) (m_timeStep app)))
      as [wm|]; [|discriminate H].
    cbn [bind] in H.
    match type of H with
    | bind ?x _ = Some _ => destruct x as [app1|]; [|discriminate H]
    end.
    cbn [bind] in H. fold traits in H.
    cbn [m_window set_m_window set_m_viewer] in H. rewrite Hwin in H.
    discriminate H.
Qed.

End InitializeTheorems.

(** The theorem on the small scene, with and without a window. *)
Lemma Initialize_result_witness :
  (exists app',
     @Initialize Textbook.math Example.ext 800 600 "demo" (Some Example.system1)
                 ChVSGApp_new = Some (true, app')
     /\ m_system app' = Some Example.system1)
  /\ (exists app',
        @Initialize Textbook.math Example.ext_no_window 800 600 "demo"
                    (Some Example.system1) ChVSGApp_new = Some (false, app')
        /\ m_system app' = Some Example.system1).
Proof.
  split.
  - destruct (@Initialize_result Textbook.math Example.ext 800 600 "demo"
                ChVSGApp_new) as (_ & _ & H & _).
    destruct (H Example.system1 1
                (mkWindow (mkTraits "demo" 800 600 100 100) [])
                eq_refl eq_refl eq_refl) as (app' & H1 & H2 & _).
    exists app'. split; assumption.
  - destruct (@Initialize_result Textbook.math Example.ext_no_window 800 600
                "demo" ChVSGApp_new) as (_ & H & _).
    destruct (H Example.system1 1 eq_refl eq_refl eq_refl)
      as (app' & H1 & H2 & _).
    exists app'. split; assumption.
Defined.

(** ** The time step *)

Lemma list_set_in_range {A : Type} (l : list A) (i : nat) (x : A) :
  (i < List.length l)%nat ->
  exists l', list_set l i x = Some l' /\ List.length l' = List.length l.
Proof.
  revert i. induction l as [|h t IH]; intros i Hi; simpl in Hi; [lia|].
  destruct i as [|j]; simpl.
  - eexists. split; reflexivity.
  - destruct (IH j) as (t' & Ht & Hl); [lia|].
    rewrite Ht. simpl. eexists. split; [reflexivity|]. simpl. rewrite Hl.
    reflexivity.
Qed.

Lemma counter_step (wait_max k : Z) :
  0 <= k -> 0 <= wait_max < 2 ^ 64 - 1 ->
  (counter_after wait_max k =? wait_max) = multiple_of wait_max (k + 1)
  /\ (let c := (counter_after wait_max k + 1) mod 2 ^ 64 in
      if c >? wait_max then 1 else c) = counter_after wait_max (k + 1).
Proof.
  intros Hk HM. unfold counter_after, multiple_of.
  destruct (wait_max =? 0) eqn:E0.
  - apply Z.eqb_eq in E0. subst wait_max. split.
    + symmetry. apply Z.eqb_neq. lia.
    + reflexivity.
  - apply Z.eqb_neq in E0.
    assert (Hr : 0 <= k mod wait_max < wait_max) by (apply Z.mod_pos_bound; lia).
    assert (Hsmall : (k mod wait_max + 1 + 1) mod 2 ^ 64 = k mod wait_max + 2).
    { rewrite Z.mod_small; lia. }
    rewrite Hsmall.
    destruct (Z.eq_dec (k mod wait_max) (wait_max - 1)) as [Hlast|Hnot].
    + assert (Hnext : (k + 1) mod wait_max = 0).
      { rewrite <- Z.add_mod_idemp_l by lia. rewrite Hlast.
        replace (wait_max - 1 + 1) with wait_max by lia.
        apply Z.mod_same. lia. }
      rewrite Hnext. split.
      * rewrite Z.eqb_refl. apply Z.eqb_eq. lia.
      * destruct (Z.gtb_spec (k mod wait_max + 2) wait_max); [reflexivity|lia].
    + assert (Hnext : (k + 1) mod wait_max = k mod wait_max + 1).
      { rewrite <- Z.add_mod_idemp_l by lia. apply Z.mod_small. lia. }
      rewrite Hnext. split.
      * transitivity false; [apply Z.eqb_neq; lia|symmetry; apply Z.eqb_neq; lia].
      * destruct (Z.gtb_spec (k mod wait_max + 2) wait_max); [lia|lia].
Qed.

Lemma expected_calls_every (step : double) (first : Z) (n : nat) :
  expected_calls step 1 first n = step_and_update step n.
Proof.
  revert first. induction n as [|n IH]; intro first; simpl; [reflexivity|].
  unfold multiple_of. simpl. rewrite Z.mod_1_r. simpl. rewrite IH. reflexivity.
Qed.

Section StepTheorems.
Context {math : ChMath} {ext : Externals}.

Lemma update_shape_ok (children : list Node) (body : ChBody) (asset : ChAsset)
    (vis : ChVisualization) (size : ChVector) (tr : list dmat4) (tm : nat) :
  GetTransform children (Some (body_ptr body)) (Some (asset_ptr asset)) = Some tm ->
  (tm < List.length tr)%nat ->
  exists tr', update_shape children body asset vis size tr = Some tr'
              /\ List.length tr' = List.length tr.
Proof.
  intros Hg Hlt. unfold update_shape. rewrite Hg.
  apply list_set_in_range. exact Hlt.
Qed.

Lemma update_asset_ok (children : list Node) (body : ChBody) (asset : ChAsset)
    (tr : list dmat4) :
  found (List.length tr) children body asset ->
  exists tr', update_asset children body tr asset = Some tr'
              /\ List.length tr' = List.length tr.
Proof.
  unfold found, is_shape, update_asset. intro H.
  destruct (asset_class asset); simpl in *;
    try (eexists; split; reflexivity);
    destruct (H eq_refl) as (tm & Hg & Hlt);
    match goal with
    | |- context [update_shape ?c ?b ?a ?v ?s ?t] =>
        destruct (update_shape_ok c b a v s t tm Hg Hlt) as (tr' & Hu & Hl);
        rewrite Hu; simpl; exists tr'; split; [reflexivity|exact Hl]
    end.
Qed.

Lemma update_assets_ok (children : list Node) (body : ChBody)
    (assets : list ChAsset) (tr : list dmat4) :
  (forall a, In a assets -> found (List.length tr) children body a) ->
  exists tr', fold_opt (update_asset children body) assets tr = Some tr'
              /\ List.length tr' = List.length tr.
Proof.
  revert tr. induction assets as [|a assets IH]; intros tr H; simpl.
  - eexists; split; reflexivity.
  - destruct (update_asset_ok children body a tr) as (t1 & H1 & L1).
    { apply H. left. reflexivity. }
    rewrite H1. simpl.
    destruct (IH t1) as (t2 & H2 & L2).
    { intros b Hb. rewrite L1. apply H. right. exact Hb. }
    exists t2. split; [exact H2|]. rewrite L2. exact L1.
Qed.

Lemma update_bodies_ok (children : list Node) (bodies : list ChBody)
    (tr : list dmat4) :
  (forall b a, In b bodies -> In a (GetAssets b) ->
               found (List.length tr) children b a) ->
  exists tr', fold_opt (update_body children) bodies tr = Some tr'
              /\ List.length tr' = List.length tr.
Proof.
  revert tr. induction bodies as [|b bodies IH]; intros tr H; simpl.
  - eexists; split; reflexivity.
  - unfold update_body at 1.
    destruct (update_assets_ok children b (GetAssets b) tr) as (t1 & H1 & L1).
    { intros a Ha. apply H; [left; reflexivity|exact Ha]. }
    rewrite H1. simpl.
    destruct (IH t1) as (t2 & H2 & L2).
    { intros b' a Hb Ha. rewrite L1. apply H; [right; exact Hb|exact Ha]. }
    exists t2. split; [exact H2|]. rewrite L2. exact L1.
Qed.

Lemma in_skeleton (sys : ChSystem) (b : ChBody) (a : ChAsset) :
  In b (Get_bodylist sys) -> In a (GetAssets b) -> is_shape a = true ->
  In (body_ptr b, asset_ptr a) (skeleton sys).
Proof.
  intros Hb Ha Hs. unfold skeleton.
  unfold is_shape in Hs.
  destruct (shape_of (asset_class a)) as [[[c v] s]|] eqn:E; [|discriminate].
  apply (in_map (fun e => (body_ptr (entry_body e), asset_ptr (entry_asset e)))
                _ (mkEntry b a c v s (shape_Initialize (body_material b)))).
  unfold system_shapes. apply in_flat_map. exists b. split; [exact Hb|].
  unfold asset_shapes. apply in_flat_map. exists a. split; [exact Ha|].
  rewrite E. left. reflexivity.
Qed.

Lemma covers_found (n : nat) (children : list Node) (sys : ChSystem)
    (b : ChBody) (a : ChAsset) :
  covers n children (skeleton sys) = true ->
  In b (Get_bodylist sys) -> In a (GetAssets b) -> found n children b a.
Proof.
  intros Hc Hb Ha Hs. unfold covers in Hc.
  rewrite forallb_forall in Hc.
  specialize (Hc _ (in_skeleton sys b a Hb Ha Hs)). simpl in Hc.
  destruct (GetTransform children (Some (body_ptr b)) (Some (asset_ptr a)))
    as [tm|]; [|discriminate].
  exists tm. split; [reflexivity|]. apply Nat.ltb_lt. exact Hc.
Qed.

Lemma UpdateSceneGraph_ok (app : ChVSGApp) (sys : ChSystem)
    (children : list Node) :
  m_system app = Some sys -> m_scenegraph app = Some children ->
  covers (List.length (m_transforms app)) children (skeleton sys) = true ->
  exists tr',
    UpdateSceneGraph app
    = Some (set_calls (calls app ++ [CallUpdateSceneGraph])
                      (set_m_transforms tr' app))
    /\ List.length tr' = List.length (m_transforms app).
Proof.
  intros Hs Hc Hcov. unfold UpdateSceneGraph. rewrite Hs, Hc. simpl.
  destruct (update_bodies_ok children (Get_bodylist sys) (m_transforms app))
    as (tr' & Hu & Hl).
  { intros b a Hb Ha. apply (covers_found _ _ sys); assumption. }
  rewrite Hu. simpl. exists tr'. split; [reflexivity|exact Hl].
Qed.

Lemma IncreaseWaitCounter_eq (app : ChVSGApp) :
  IncreaseWaitCounter app
  = set_m_wait_counter
      (if (m_wait_counter app + 1) mod 2 ^ 64 >? m_wait_counter_max app
       then 1 else (m_wait_counter app + 1) mod 2 ^ 64) app.
Proof.
  unfold IncreaseWaitCounter. cbv zeta.
  destruct (_ >? _); reflexivity.
Qed.

(** One call of [doTimeStep] when [k] calls were made before it. *)
Lemma doTimeStep_ok (app : ChVSGApp) (sys : ChSystem) (children : list Node)
    (k : Z) :
  m_system app = Some sys -> m_scenegraph app = Some children ->
  covers (List.length (m_transforms app)) children (skeleton sys) = true ->
  (forall dt s, skeleton (DoStepDynamics dt s) = skeleton s) ->
  0 <= k -> 0 <= m_wait_counter_max app < 2 ^ 64 - 1 ->
  m_wait_counter app = counter_after (m_wait_counter_max app) k ->
  exists app',
    doTimeStep app = Some app'
    /\ m_system app' = Some (DoStepDynamics (m_timeStep app) sys)
    /\ m_scenegraph app' = Some children
    /\ List.length (m_transforms app') = List.length (m_transforms app)
    /\ m_timeStep app' = m_timeStep app
    /\ m_wait_counter_max app' = m_wait_counter_max app
    /\ m_wait_counter app' = counter_after (m_wait_counter_max app) (k + 1)
    /\ calls app'
       = calls app ++ CallDoStepDynamics (m_timeStep app)
         :: (if multiple_of (m_wait_counter_max app) (k + 1)
             then [CallUpdateSceneGraph] else []).
Proof.
  intros Hs Hc Hcov Hstep Hk HM Hcnt.
  destruct (counter_step _ k Hk HM) as [Heq Hnext]. cbv zeta in Hnext.
  unfold doTimeStep. rewrite Hs. cbn [bind].
  cbn [m_wait_counter m_wait_counter_max set_calls set_m_system].
  rewrite Hcnt, Heq.
  destruct (multiple_of (m_wait_counter_max app) (k + 1)).
  - match goal with
    | |- context [UpdateSceneGraph ?a] =>
        destruct (UpdateSceneGraph_ok a (DoStepDynamics (m_timeStep app) sys)
                    children) as (tr' & Hu & Hl);
          [reflexivity|exact Hc|cbn; rewrite Hstep; exact Hcov|]
    end.
    rewrite Hu. cbn [bind]. eexists. split; [reflexivity|].
    rewrite IncreaseWaitCounter_eq.
    cbn [m_wait_counter m_wait_counter_max set_calls set_m_system
         set_m_transforms set_m_wait_counter m_system m_scenegraph
         m_transforms m_timeStep calls].
    rewrite Hcnt, Hnext, <- app_assoc.
    repeat split; try reflexivity; assumption.
  - cbn [bind]. eexists. split; [reflexivity|].
    rewrite IncreaseWaitCounter_eq.
    cbn [m_wait_counter m_wait_counter_max set_calls set_m_system
         set_m_transforms set_m_wait_counter m_system m_scenegraph
         m_transforms m_timeStep calls].
    rewrite Hcnt, Hnext.
    repeat split; try reflexivity; assumption.
Qed.

End StepTheorems.

(** ** The range of the wait states *)

Lemma digits2_pos_bound (m : positive) : Zpos m < 2 ^ Zpos (digits2_pos m).
Proof.
  induction m as [p IH|p IH|]; simpl digits2_pos.
  - rewrite Pos2Z.inj_succ, Z.pow_succ_r by lia. lia.
  - rewrite Pos2Z.inj_succ, Z.pow_succ_r by lia. lia.
  - reflexivity.
Qed.

Lemma valid_mantissa (s : bool) (m : positive) (e : Z) :
  Double.valid (S754_finite s m e) = true -> Zpos m < 2 ^ 53.
Proof.
  unfold Double.valid, valid_binary, bounded, canonical_mantissa, fexp.
  intro H. apply andb_prop in H. destruct H as [H _].
  apply Z.eqb_eq in H.
  assert (Hd : Zpos (digits2_pos m) <= 53) by (unfold Double.prec in H; lia).
  apply Z.lt_le_trans with (2 ^ Zpos (digits2_pos m)).
  - apply digits2_pos_bound.
  - apply Z.pow_le_mono_r; lia.
Qed.

(** The conversion of a double never yields the largest [size_t]. *)
Lemma to_size_t_range (x : double) (z : Z) :
  Double.valid x = true -> Double.to_size_t x = Some z -> 0 <= z < 2 ^ 64 - 1.
Proof.
  destruct x as [s|s| |s m e]; unfold Double.to_size_t; intros Hv H;
    try discriminate.
  - injection H as <-. lia.
  - cbv zeta in H. pose proof (valid_mantissa s m e Hv) as Hm.
    destruct s.
    + destruct (Double.trunc_mag m e =? 0); [|discriminate].
      injection H as <-. lia.
    + destruct (Double.trunc_mag m e <? 2 ^ 64) eqn:Hlt; [|discriminate].
      injection H as <-. apply Z.ltb_lt in Hlt.
      unfold Double.trunc_mag in *. destruct e as [|p|p].
      * change (2 ^ 53) with 9007199254740992 in Hm.
        change (2 ^ 64) with 18446744073709551616. lia.
      * assert (Hp : 2 ^ Zpos p = 2 * 2 ^ (Zpos p - 1)).
        { rewrite <- Z.pow_succ_r by lia. f_equal. lia. }
        assert (0 < 2 ^ (Zpos p - 1)) by (apply Z.pow_pos_nonneg; lia).
        rewrite Hp in *.
        change (2 ^ 64) with 18446744073709551616 in *. nia.
      * assert (0 < 2 ^ Zpos p) by (apply Z.pow_pos_nonneg; lia).
        assert (0 <= Zpos m / 2 ^ Zpos p <= Zpos m).
        { split; [apply Z.div_pos; lia|].
          apply Z.div_le_upper_bound; [lia|]. nia. }
        change (2 ^ 53) with 9007199254740992 in Hm.
        change (2 ^ 64) with 18446744073709551616. lia.
Qed.

Section ScheduleTheorems.
Context {math : ChMath} {ext : Externals}.

Lemma doTimeSteps_from (n : nat) :
  forall (app : ChVSGApp) (sys : ChSystem) (children : list Node) (k : Z),
  m_system app = Some sys -> m_scenegraph app = Some children ->
  covers (List.length (m_transforms app)) children (skeleton sys) = true ->
  (forall dt s, skeleton (DoStepDynamics dt s) = skeleton s) ->
  0 <= k -> 0 <= m_wait_counter_max app < 2 ^ 64 - 1 ->
  m_wait_counter app = counter_after (m_wait_counter_max app) k ->
  exists app',
    doTimeSteps n app = Some app'
    /\ calls app'
       = calls app
         ++ expected_calls (m_timeStep app) (m_wait_counter_max app) (k + 1) n
    /\ m_system app' = Some (steps n (m_timeStep app) sys).
Proof.
  induction n as [|n IH]; intros app sys children k Hs Hc Hcov Hstep Hk HM Hcnt.
  - exists app. simpl. rewrite app_nil_r. repeat split; try reflexivity.
    exact Hs.
  - destruct (doTimeStep_ok app sys children k Hs Hc Hcov Hstep Hk HM Hcnt)
      as (app1 & H1 & Hs1 & Hc1 & Hl1 & Hdt1 & HM1 & Hcnt1 & Hcalls1).
    destruct (IH app1 (DoStepDynamics (m_timeStep app) sys) children (k + 1))
      as (app' & Hn & Hcalls & Hsys).
    + exact Hs1.
    + exact Hc1.
    + rewrite Hl1, Hstep. exact Hcov.
    + exact Hstep.
    + lia.
    + rewrite HM1. exact HM.
    + rewrite HM1. exact Hcnt1.
    + exists app'. cbn [doTimeSteps]. rewrite H1. cbn [bind].
      split; [exact Hn|]. split.
      * rewrite Hcalls, Hcalls1, Hdt1, HM1. cbn [expected_calls].
        rewrite <- !app_assoc. reflexivity.
      * rewrite Hsys, Hdt1. reflexivity.
Qed.

(** C3. Every call of [doTimeStep] advances the system by one dynamics
    step of size [m_timeStep], and, the counter starting from 1, the call
    number [k] updates the scene graph exactly when [k] is a multiple of
    [m_wait_counter_max]: [n] calls in a row all return and log the
    dynamics steps with the updates at the multiples. When the output
    step is at most the time step, [Initialize] sets
    [m_wait_counter_max] to 1 and leaves the counter alone, and with 1
    every call updates the scene graph. (The wait states are below the
    largest [size_t], as they are the conversion of a double; the scene
    graph has a transform for every shape, as [BuildSceneGraph] leaves it,
    a dynamics step keeps the bodies and their assets, and the assets of
    the system given to [Initialize] are visualization assets, as the
    unchecked cast of [BuildSceneGraph] takes them to be.) *)
Theorem doTimeStep_schedule (app : ChVSGApp) (sys : ChSystem)
    (children : list Node) (n : nat) :
  m_system app = Some sys -> m_scenegraph app = Some children ->
  covers (List.length (m_transforms app)) children (skeleton sys) = true ->
  (forall dt s, skeleton (DoStepDynamics dt s) = skeleton s) ->
  m_wait_counter app = 1 -> 0 <= m_wait_counter_max app < 2 ^ 64 - 1 ->
  (exists app',
     doTimeSteps n app = Some app'
     /\ calls app'
        = calls app
          ++ expected_calls (m_timeStep app) (m_wait_counter_max app) 1 n
     /\ m_system app' = Some (steps n (m_timeStep app) sys))
  /\ (m_wait_counter_max app = 1 ->
      expected_calls (m_timeStep app) (m_wait_counter_max app) 1 n
      = step_and_update (m_timeStep app) n)
  /\ (forall w h title sys0 app0,
        Double.leb (m_outputStep app0) (m_timeStep app0) = true ->
        visualization_only (Get_bodylist sys0) = true ->
        exists b app1,
          Initialize w h title (Some sys0) app0 = Some (b, app1)
          /\ m_wait_counter_max app1 = 1
          /\ m_wait_counter app1 = m_wait_counter app0).
Proof.
  intros Hs Hc Hcov Hstep Hcnt HM. split; [|split].
  - apply (doTimeSteps_from n app sys children 0 Hs Hc Hcov Hstep); try lia.
    rewrite Hcnt. unfold counter_after.
    destruct (m_wait_counter_max app =? 0); [reflexivity|].
    rewrite Zmod_0_l. reflexivity.
  - intros ->. apply expected_calls_every.
  - intros w h title sys0 app0 Hle Hv. unfold Initialize.
    cbn [m_outputStep m_timeStep set_m_scenegraph set_m_windowTraits
         set_m_system]. rewrite Hle. cbn [bind].
    erewrite (BuildSceneGraph_spec _ sys0 []);
      [|reflexivity|reflexivity|exact Hv]. cbn [bind]. cbn.
    destruct (Window_create (mkTraits title w h 100 100)) as [win|];
      do 2 eexists; (split; [reflexivity|]); split; reflexivity.
Qed.

End ScheduleTheorems.

(** The theorem on the small scene with three wait states: of seven
    calls, the third and the sixth update the scene graph. *)
Lemma doTimeStep_schedule_witness :
  exists app',
    @doTimeSteps Textbook.math Example.ext 7 Example.app_every_third = Some app'
    /\ calls app'
       = [ CallDoStepDynamics Double.lit_0_001;
           CallDoStepDynamics Double.lit_0_001;
           CallDoStepDynamics Double.lit_0_001; CallUpdateSceneGraph;
           CallDoStepDynamics Double.lit_0_001;
           CallDoStepDynamics Double.lit_0_001;
           CallDoStepDynamics Double.lit_0_001; CallUpdateSceneGraph;
           CallDoStepDynamics Double.lit_0_001 ]
    /\ exists b app1,
         @Initialize Textbook.math Example.ext 800 600 "demo"
                     (Some Example.system1) ChVSGApp_new = Some (b, app1)
         /\ m_wait_counter_max app1 = 1.
Proof.
  destruct (@doTimeStep_schedule Textbook.math Example.ext
              Example.app_every_third Example.system1
              (@entry_nodes Example.ext 0
                 (@system_shapes Textbook.math (Get_bodylist Example.system1)))
              7)
    as ((app' & H1 & H2 & _) & _ & Hinit).
  - vm_compute. reflexivity.
  - vm_compute. reflexivity.
  - vm_compute. reflexivity.
  - intros dt s. reflexivity.
  - vm_compute. reflexivity.
  - vm_compute. split; [discriminate|reflexivity].
  - exists app'. split; [exact H1|]. split; [rewrite H2; reflexivity|].
    destruct (Hinit 800 600 "demo"%string Example.system1 ChVSGApp_new
                eq_refl eq_refl) as (b & app1 & Hi & Hm & _).
    exists b, app1. split; assumption.
Defined.

(** ** The track shoe *)

Section TrackShoeTheorems.
Context {json : ChUtilsJSON}.
Variable NDEBUG : bool.

Lemma read_materials_spec (l : list Value) :
  forall acc r,
  fold_opt read_material l acc = Some r ->
  exists infos,
    Forall2 (fun v i => ReadMaterialInfoJSON v = Some i) l infos
    /\ r = acc ++ infos.
Proof.
  induction l as [|v l IH]; intros acc r H; simpl in H.
  - injection H as <-. exists []. split; [constructor|].
    rewrite app_nil_r. reflexivity.
  - unfold read_material at 1 in H.
    destruct (ReadMaterialInfoJSON v) as [i|] eqn:Ei; [|discriminate H].
    cbn [bind] in H.
    destruct (IH _ _ H) as (infos & HF & ->).
    exists (i :: infos). split; [constructor; assumption|].
    rewrite <- app_assoc. reflexivity.
Qed.

Lemma has_type_eqb (t : string) (v : Value) (s : string) :
  (x <- member "Type" v ;; GetString x) = Some s ->
  has_type t v = String.eqb s t.
Proof. intro H. unfold has_type. rewrite H. reflexivity. Qed.

(** One collision entry: a box, a cylinder, or nothing. *)
Lemma read_coll_shape_spec (num_mats : Z) (bx : list BoxShape)
    (cy : list CylinderShape) (v : Value) (r : list BoxShape * list CylinderShape) :
  read_coll_shape NDEBUG num_mats (bx, cy) v = Some r ->
  (has_type "BOX" v = true /\ has_type "CYLINDER" v = false
   /\ exists b, box_of true v = Some b /\ r = (bx ++ [b], cy))
  \/ (has_type "BOX" v = false /\ has_type "CYLINDER" v = true
      /\ exists c, cylinder_of true v = Some c /\ r = (bx, cy ++ [c]))
  \/ (has_type "BOX" v = false /\ has_type "CYLINDER" v = false /\ r = (bx, cy)).
Proof.
  unfold read_coll_shape. intro H. bind_inv H.
  rewrite (has_type_eqb "BOX" v s E), (has_type_eqb "CYLINDER" v s E).
  destruct (String.eqb s "BOX") eqn:Ebox.
  - left. apply String.eqb_eq in Ebox. subst s. split; [reflexivity|].
    split; [reflexivity|]. bind_inv H. injection H as <-.
    eexists. split; [|reflexivity].
    unfold box_of. rewrite E2, E3, E4, E0. reflexivity.
  - destruct (String.eqb s "CYLINDER") eqn:Ecyl.
    + right. left. split; [reflexivity|]. split; [reflexivity|].
      bind_inv H. injection H as <-.
      eexists. split; [|reflexivity].
      unfold cylinder_of. unfold double_at in E4, E5.
      rewrite E2, E3, E4, E5, E0. reflexivity.
    + right. right. injection H as <-. repeat split; reflexivity.
Qed.

Lemma read_coll_shapes_spec (num_mats : Z) (l : list Value) :
  forall bx cy r,
  fold_opt (read_coll_shape NDEBUG num_mats) l (bx, cy) = Some r ->
  exists boxes cylinders,
    describes true l boxes cylinders
    /\ r = (bx ++ boxes, cy ++ cylinders).
Proof.
  unfold describes.
  induction l as [|v l IH]; intros bx cy r H; simpl in H.
  - injection H as <-. exists [], []. simpl. rewrite !app_nil_r.
    repeat split; constructor.
  - destruct (read_coll_shape NDEBUG num_mats (bx, cy) v) as [r1|] eqn:E1;
      [|discriminate H]. cbn [bind] in H.
    destruct (read_coll_shape_spec _ _ _ _ _ E1)
      as [(Hb & Hc & b & Hbox & ->)|[(Hb & Hc & c & Hcyl & ->)|(Hb & Hc & ->)]];
      destruct (IH _ _ _ H) as (boxes & cyls & (HF1 & HF2) & ->);
      simpl; rewrite Hb, Hc.
    + exists (b :: boxes), cyls. rewrite <- app_assoc.
      repeat split; try assumption. constructor; assumption.
    + exists boxes, (c :: cyls). rewrite <- app_assoc.
      repeat split; try assumption. constructor; assumption.
    + exists boxes, cyls. repeat split; assumption.
Qed.

(** One visualization entry. *)
Lemma read_vis_shape_spec (bx : list BoxShape) (cy : list CylinderShape)
    (v : Value) (r : list BoxShape * list CylinderShape) :
  read_vis_shape (bx, cy) v = Some r ->
  (has_type "BOX" v = true /\ has_type "CYLINDER" v = false
   /\ exists b, box_of false v = Some b /\ r = (bx ++ [b], cy))
  \/ (has_type "BOX" v = false /\ has_type "CYLINDER" v = true
      /\ exists c, cylinder_of false v = Some c /\ r = (bx, cy ++ [c]))
  \/ (has_type "BOX" v = false /\ has_type "CYLINDER" v = false /\ r = (bx, cy)).
Proof.
  unfold read_vis_shape. intro H. bind_inv H.
  rewrite (has_type_eqb "BOX" v s E), (has_type_eqb "CYLINDER" v s E).
  destruct (String.eqb s "BOX") eqn:Ebox.
  - left. apply String.eqb_eq in Ebox. subst s. split; [reflexivity|].
    split; [reflexivity|]. bind_inv H. injection H as <-.
    eexists. split; [|reflexivity].
    unfold box_of. rewrite E0, E1, E2. reflexivity.
  - destruct (String.eqb s "CYLINDER") eqn:Ecyl.
    + right. left. split; [reflexivity|]. split; [reflexivity|].
      bind_inv H. injection H as <-.
      eexists. split; [|reflexivity].
      unfold cylinder_of. unfold double_at in E2, E3.
      rewrite E0, E1, E2, E3. reflexivity.
    + right. right. injection H as <-. repeat split; reflexivity.
Qed.

Lemma read_vis_shapes_spec (l : list Value) :
  forall bx cy r,
  fold_opt read_vis_shape l (bx, cy) = Some r ->
  exists boxes cylinders,
    describes false l boxes cylinders
    /\ r = (bx ++ boxes, cy ++ cylinders).
Proof.
  unfold describes.
  induction l as [|v l IH]; intros bx cy r H; simpl in H.
  - injection H as <-. exists [], []. simpl. rewrite !app_nil_r.
    repeat split; constructor.
  - destruct (read_vis_shape (bx, cy) v) as [r1|] eqn:E1;
      [|discriminate H]. cbn [bind] in H.
    destruct (read_vis_shape_spec _ _ _ _ E1)
      as [(Hb & Hc & b & Hbox & ->)|[(Hb & Hc & c & Hcyl & ->)|(Hb & Hc & ->)]];
      destruct (IH _ _ _ H) as (boxes & cyls & (HF1 & HF2) & ->);
      simpl; rewrite Hb, Hc.
    + exists (b :: boxes), cyls. rewrite <- app_assoc.
      repeat split; try assumption. constructor; assumption.
    + exists boxes, (c :: cyls). rewrite <- app_assoc.
      repeat split; try assumption. constructor; assumption.
    + exists boxes, cyls. repeat split; assumption.
Qed.

Lemma read_shoe_spec (d : Value) (l w h m : double) (i : ChVector) :
  read_shoe d = Some (l, w, h, m, i) ->
  double_in "Shoe" "Length" d = Some l /\ double_in "Shoe" "Width" d = Some w
  /\ double_in "Shoe" "Height" d = Some h /\ double_in "Shoe" "Mass" d = Some m
  /\ vector_in "Shoe" "Inertia" d = Some i.
Proof.
  unfold read_shoe, double_in, vector_in, double_at. intro H.
  destruct (member "Shoe" d) as [shoe|]; [|discriminate H]. cbn [bind] in *.
  bind_inv H. injection H as <- <- <- <- <-. repeat split; reflexivity.
Qed.

Lemma read_connector_spec (d : Value) (r l w m : double) (i : ChVector) :
  read_connector d = Some (r, l, w, m, i) ->
  double_in "Connector" "Radius" d = Some r
  /\ double_in "Connector" "Length" d = Some l
  /\ double_in "Connector" "Width" d = Some w
  /\ double_in "Connector" "Mass" d = Some m
  /\ vector_in "Connector" "Inertia" d = Some i.
Proof.
  unfold read_connector, double_in, vector_in, double_at. intro H.
  destruct (member "Connector" d) as [c|]; [|discriminate H]. cbn [bind] in *.
  bind_inv H. injection H as <- <- <- <- <-. repeat split; reflexivity.
Qed.

(** The steps of a [Create] that returns. *)
Lemma Create_inv (d : Value) (this this' : TrackShoeDoublePin) :
  Create NDEBUG d this = Some this' ->
  exists base sl sw sh sm si cr cl cw cm ci cyl_info materials infos shapes
         coll meshFile has_mesh vis,
    ChPart_Create d (part this) = Some base
    /\ read_shoe d = Some (sl, sw, sh, sm, si)
    /\ read_connector d = Some (cr, cl, cw, cm, ci)
    /\ contact_array "Shoe Materials" d = Some materials
    /\ fold_opt read_material materials (m_shoe_mat_info this) = Some infos
    /\ contact_array "Shoe Shapes" d = Some shapes
    /\ fold_opt (read_coll_shape NDEBUG (Z.of_nat (List.length materials))) shapes
                (m_coll_boxes this, m_coll_cylinders this) = Some coll
    /\ read_visualization NDEBUG d (m_meshFile this) (m_has_mesh this)
                          (fst coll) (snd coll)
                          (m_vis_boxes this, m_vis_cylinders this)
       = Some (meshFile, has_mesh, vis)
    /\ this' = mkTrackShoe base sl sw sh sm si cr cl cw cm ci cyl_info infos
                           (fst coll) (snd coll) (fst vis) (snd vis)
                           meshFile has_mesh.
Proof.
  unfold Create, contact_array. intro H.
  destruct (ChPart_Create d (part this)) as [base|]; [|discriminate H].
  cbn [bind] in *.
  destruct (assert NDEBUG (HasMember "Shoe" d)); [|discriminate H].
  cbn [bind] in *.
  destruct (read_shoe d) as [[[[[sl sw] sh] sm] si]|]; [|discriminate H].
  cbn [bind] in *.
  destruct (assert NDEBUG (HasMember "Connector" d)); [|discriminate H].
  cbn [bind] in *.
  destruct (read_connector d) as [[[[[cr cl] cw] cm] ci]|]; [|discriminate H].
  cbn [bind] in *.
  do 6 (match type of H with
        | bind (assert ?b ?c) _ = Some _ =>
            destruct (assert b c); [|discriminate H]; cbn [bind] in *
        end).
  destruct (member "Contact" d) as [contact|]; [|discriminate H].
  cbn [bind] in *.
  match type of H with
  | bind ?x _ = Some _ => destruct x as [cyl_info|]; [|discriminate H]
  end. cbn [bind] in *.
  match type of H with
  | bind ?x _ = Some _ => destruct x as [materials|]; [|discriminate H]
  end. cbn [bind] in *.
  match type of H with
  | bind ?x _ = Some _ => destruct x as [infos|] eqn:Ei; [|discriminate H]
  end. cbn [bind] in *.
  match type of H with
  | bind ?x _ = Some _ => destruct x as [shapes|]; [|discriminate H]
  end. cbn [bind] in *.
  match type of H with
  | bind ?x _ = Some _ => destruct x as [coll|] eqn:Ec; [|discriminate H]
  end. cbn [bind] in *.
  match type of H with
  | bind ?x _ = Some _ =>
      destruct x as [[[meshFile has_mesh] vis]|] eqn:Ev; [|discriminate H]
  end. cbn [bind] in *.
  injection H as <-.
  exists base, sl, sw, sh, sm, si, cr, cl, cw, cm, ci, cyl_info, materials,
         infos, shapes, coll, meshFile, has_mesh, vis.
  repeat split; reflexivity || assumption.
Qed.

Lemma member_HasMember (name : string) (v x : Value) :
  member name v = Some x -> HasMember name v = Some true.
Proof.
  destruct v; simpl; try discriminate. intro H. rewrite H. reflexivity.
Qed.

Lemma assert_true (c : option bool) : c = Some true -> assert NDEBUG c = Some tt.
Proof. intros ->. unfold assert. destruct NDEBUG; reflexivity. Qed.

Lemma GetArray_IsArray (v : Value) (l : list Value) :
  GetArray v = Some l -> IsArray v = Some true.
Proof. destruct v; simpl; try discriminate. reflexivity. Qed.

(** [Create] returns as soon as each of its reads is defined: the
    asserts on the presence of members then hold. *)
Lemma Create_defined (d : Value) (this : TrackShoeDoublePin) (base : ChPart)
    (sl sw sh sm : double) (si : ChVector) (cr cl cw cm : double) (ci : ChVector)
    (cyl_info : MaterialInfo) (materials : list Value)
    (infos : list MaterialInfo) (shapes : list Value)
    (coll : list BoxShape * list CylinderShape) (meshFile : string)
    (has_mesh : bool) (vis : list BoxShape * list CylinderShape) :
  ChPart_Create d (part this) = Some base ->
  read_shoe d = Some (sl, sw, sh, sm, si) ->
  read_connector d = Some (cr, cl, cw, cm, ci) ->
  (c <- member "Contact" d ;; x <- member "Connector Material" c ;;
   ReadMaterialInfoJSON x) = Some cyl_info ->
  contact_array "Shoe Materials" d = Some materials ->
  fold_opt read_material materials (m_shoe_mat_info this) = Some infos ->
  contact_array "Shoe Shapes" d = Some shapes ->
  fold_opt (read_coll_shape NDEBUG (Z.of_nat (List.length materials))) shapes
           (m_coll_boxes this, m_coll_cylinders this) = Some coll ->
  read_visualization NDEBUG d (m_meshFile this) (m_has_mesh this)
                     (fst coll) (snd coll)
                     (m_vis_boxes this, m_vis_cylinders this)
  = Some (meshFile, has_mesh, vis) ->
  Create NDEBUG d this
  = Some (mkTrackShoe base sl sw sh sm si cr cl cw cm ci cyl_info infos
                      (fst coll) (snd coll) (fst vis) (snd vis)
                      meshFile has_mesh).
Proof.
  intros Hbase Hshoe Hconn Hcyl Hmats Hinfos Hshapes Hcoll Hvis.
  unfold Create. rewrite Hbase. cbn [bind].
  assert (Hs : HasMember "Shoe" d = Some true).
  { unfold read_shoe in Hshoe.
    destruct (member "Shoe" d) as [x|] eqn:E; [|discriminate Hshoe].
    apply (member_HasMember _ _ _ E). }
  rewrite (assert_true _ Hs). cbn [bind]. rewrite Hshoe. cbn [bind].
  assert (Hc : HasMember "Connector" d = Some true).
  { unfold read_connector in Hconn.
    destruct (member "Connector" d) as [x|] eqn:E; [|discriminate Hconn].
    apply (member_HasMember _ _ _ E). }
  rewrite (assert_true _ Hc). cbn [bind]. rewrite Hconn. cbn [bind].
  unfold contact_array in Hmats, Hshapes.
  destruct (member "Contact" d) as [contact|] eqn:Econtact; [|discriminate Hcyl].
  rewrite (assert_true _ (member_HasMember _ _ _ Econtact)).
  cbn [bind] in *.
  destruct (member "Connector Material" contact) as [cmat|] eqn:Ecm;
    [|discriminate Hcyl].
  destruct (member "Shoe Materials" contact) as [ms|] eqn:Ems;
    [|discriminate Hmats].
  destruct (member "Shoe Shapes" contact) as [ss|] eqn:Ess;
    [|discriminate Hshapes].
  cbn [bind] in *.
  rewrite (assert_true _ (member_HasMember _ _ _ Ecm)).
  rewrite (assert_true _ (member_HasMember _ _ _ Ems)).
  rewrite (assert_true _ (member_HasMember _ _ _ Ess)).
  rewrite (assert_true _ (GetArray_IsArray _ _ Hmats)).
  rewrite (assert_true _ (GetArray_IsArray _ _ Hshapes)).
  cbn [bind]. rewrite Hcyl, Hmats. cbn [bind]. rewrite Hinfos, Hshapes.
  cbn [bind]. rewrite Hcoll. cbn [bind]. rewrite Hvis. reflexivity.
Qed.

(** C6. A [Create] that returns has read the length, width, height,
    mass and inertia of the shoe from ["Shoe"], the radius, length,
    width, mass and inertia of the connector from ["Connector"], has
    appended one material info per element of ["Contact"]["Shoe
    Materials"], and has appended one collision box per element of
    ["Contact"]["Shoe Shapes"] of type ["BOX"] and one collision cylinder
    per element of type ["CYLINDER"], in order, the elements of any other
    type adding nothing. *)
Theorem Create_populates (d : Value) (this this' : TrackShoeDoublePin) :
  Create NDEBUG d this = Some this' ->
  (double_in "Shoe" "Length" d = Some (m_shoe_length this')
   /\ double_in "Shoe" "Width" d = Some (m_shoe_width this')
   /\ double_in "Shoe" "Height" d = Some (m_shoe_height this')
   /\ double_in "Shoe" "Mass" d = Some (m_shoe_mass this')
   /\ vector_in "Shoe" "Inertia" d = Some (m_shoe_inertia this'))
  /\ (double_in "Connector" "Radius" d = Some (m_connector_radius this')
      /\ double_in "Connector" "Length" d = Some (m_connector_length this')
      /\ double_in "Connector" "Width" d = Some (m_connector_width this')
      /\ double_in "Connector" "Mass" d = Some (m_connector_mass this')
      /\ vector_in "Connector" "Inertia" d = Some (m_connector_inertia this'))
  /\ (exists materials infos,
        contact_array "Shoe Materials" d = Some materials
        /\ Forall2 (fun v i => ReadMaterialInfoJSON v = Some i) materials infos
        /\ m_shoe_mat_info this' = m_shoe_mat_info this ++ infos)
  /\ (exists shapes boxes cylinders,
        contact_array "Shoe Shapes" d = Some shapes
        /\ describes true shapes boxes cylinders
        /\ m_coll_boxes this' = m_coll_boxes this ++ boxes
        /\ m_coll_cylinders this' = m_coll_cylinders this ++ cylinders
        /\ List.length boxes = List.length (filter (has_type "BOX") shapes)
        /\ List.length cylinders
           = List.length (filter (has_type "CYLINDER") shapes)).
Proof.
  intro H.
  destruct (Create_inv d this this' H)
    as (base & sl & sw & sh & sm & si & cr & cl & cw & cm & ci & cyl_info
        & materials & infos & shapes & coll & meshFile & has_mesh & vis
        & _ & Hshoe & Hconn & Hmats & Hinfos & Hshapes & Hcoll & _ & ->).
  split; [exact (read_shoe_spec _ _ _ _ _ _ Hshoe)|].
  split; [exact (read_connector_spec _ _ _ _ _ _ Hconn)|].
  split.
  - destruct (read_materials_spec _ _ _ Hinfos) as (new & HF & ->).
    exists materials, new. repeat split; assumption.
  - destruct (read_coll_shapes_spec _ _ _ _ _ Hcoll)
      as (boxes & cyls & Hd & ->).
    exists shapes, boxes, cyls. simpl.
    split; [assumption|]. split; [assumption|].
    split; [reflexivity|]. split; [reflexivity|].
    destruct Hd as [HF1 HF2].
    split; symmetry; eapply Forall2_length; eassumption.
Qed.

(** C7. Without a ["Visualization"] member, a [Create] that returns has
    appended every collision box to the visualization boxes and every
    collision cylinder to the visualization cylinders. With the member,
    it has appended the boxes and cylinders of ["Primitives"] only (none
    when that member is absent), has taken the mesh file from ["Mesh"]
    when present, and has copied no collision shape. *)
Theorem Create_visualization (d : Value) (this this' : TrackShoeDoublePin) :
  Create NDEBUG d this = Some this' ->
  (HasMember "Visualization" d = Some false ->
     m_vis_boxes this' = m_vis_boxes this ++ m_coll_boxes this'
     /\ m_vis_cylinders this' = m_vis_cylinders this ++ m_coll_cylinders this'
     /\ m_meshFile this' = m_meshFile this /\ m_has_mesh this' = m_has_mesh this)
  /\ (HasMember "Visualization" d = Some true ->
      exists v prims boxes cylinders,
        member "Visualization" d = Some v
        /\ primitives_of v = Some prims
        /\ describes false prims boxes cylinders
        /\ m_vis_boxes this' = m_vis_boxes this ++ boxes
        /\ m_vis_cylinders this' = m_vis_cylinders this ++ cylinders
        /\ (HasMember "Mesh" v = Some true ->
              (x <- member "Mesh" v ;; GetString x) = Some (m_meshFile this')
              /\ m_has_mesh this' = true)
        /\ (HasMember "Mesh" v = Some false ->
              m_meshFile this' = m_meshFile this
              /\ m_has_mesh this' = m_has_mesh this)).
Proof.
  intro H.
  destruct (Create_inv d this this' H)
    as (base & sl & sw & sh & sm & si & cr & cl & cw & cm & ci & cyl_info
        & materials & infos & shapes & coll & meshFile & has_mesh & vis
        & _ & _ & _ & _ & _ & _ & _ & Hvis & ->).
  unfold read_visualization in Hvis. simpl. split.
  - intro Hno. rewrite Hno in Hvis. cbn [bind] in Hvis.
    injection Hvis as <- <- <-. repeat split; reflexivity.
  - intro Hyes. rewrite Hyes in Hvis. cbn [bind] in Hvis.
    destruct (member "Visualization" d) as [v|]; [|discriminate Hvis].
    cbn [bind] in Hvis.
    destruct (HasMember "Mesh" v) as [has_meshfile|] eqn:Emesh;
      [|discriminate Hvis]. cbn [bind] in Hvis.
    match type of Hvis with
    | bind ?x _ = Some _ => destruct x as [[mf hm]|] eqn:Em; [|discriminate Hvis]
    end. cbn [bind] in Hvis.
    destruct (HasMember "Primitives" v) as [has_prims|] eqn:Eprims;
      [|discriminate Hvis]. cbn [bind] in Hvis.
    match type of Hvis with
    | bind ?x _ = Some _ => destruct x as [vis'|] eqn:Ep; [|discriminate Hvis]
    end. cbn [bind] in Hvis. injection Hvis as <- <- <-.
    assert (Hprims : exists prims boxes cylinders,
               primitives_of v = Some prims
               /\ describes false prims boxes cylinders
               /\ vis' = (m_vis_boxes this ++ boxes, m_vis_cylinders this ++ cylinders)).
    { unfold primitives_of. rewrite Eprims. cbn [bind].
      destruct has_prims.
      - destruct (member "Primitives" v) as [p|]; [|discriminate Ep].
        cbn [bind] in *.
        destruct (assert NDEBUG (IsArray p)); [|discriminate Ep].
        cbn [bind] in Ep.
        destruct (GetArray p) as [prims|]; [|discriminate Ep].
        cbn [bind] in Ep.
        destruct (read_vis_shapes_spec _ _ _ _ Ep) as (boxes & cyls & Hd & ->).
        exists prims, boxes, cyls. repeat split; try reflexivity; apply Hd.
      - injection Ep as <-. exists [], [], []. rewrite !app_nil_r.
        repeat split; constructor. }
    destruct Hprims as (prims & boxes & cyls & Hp & Hd & ->).
    exists v, prims, boxes, cyls. simpl.
    split; [reflexivity|]. split; [exact Hp|]. split; [exact Hd|].
    split; [reflexivity|]. split; [reflexivity|]. split.
    + intro Ht. rewrite Emesh in Ht. injection Ht as ->.
      destruct (x <- member "Mesh" v ;; GetString x) as [s|];
        [|discriminate Em]. cbn [bind] in Em. injection Em as <- <-.
      split; reflexivity.
    + intro Hf. rewrite Emesh in Hf. injection Hf as ->.
      injection Em as <- <-.
      split; reflexivity.
Qed.

End TrackShoeTheorems.

(** The theorem on the document without ["Visualization"]: one box and
    one cylinder for three shape entries, the sphere entry adding none. *)
Lemma Create_populates_witness :
  exists this',
    @Create ExampleJSON.json false ExampleJSON.doc_plain ExampleJSON.fresh
    = Some this'
    /\ @double_in "Shoe" "Length" ExampleJSON.doc_plain = Some (m_shoe_length this')
    /\ List.length (m_coll_boxes this') = 1%nat
    /\ List.length (m_coll_cylinders this') = 1%nat.
Proof.
  eexists. split; [reflexivity|]. split.
  - apply (@Create_populates ExampleJSON.json false ExampleJSON.doc_plain
             ExampleJSON.fresh). reflexivity.
  - split; reflexivity.
Defined.

(** The theorem on both documents: the collision shapes are the
    visualization shapes of the first; the one primitive is the only
    visualization shape of the second, which has a mesh. *)
Lemma Create_visualization_witness :
  (exists this',
     @Create ExampleJSON.json false ExampleJSON.doc_plain ExampleJSON.fresh
     = Some this'
     /\ m_vis_boxes this' = m_vis_boxes ExampleJSON.fresh ++ m_coll_boxes this')
  /\ (exists this',
        @Create ExampleJSON.json false ExampleJSON.doc_visual ExampleJSON.fresh
        = Some this'
        /\ m_vis_boxes this' = [] /\ m_has_mesh this' = true).
Proof.
  split.
  - eexists. split; [reflexivity|].
    apply (@Create_visualization ExampleJSON.json false ExampleJSON.doc_plain
             ExampleJSON.fresh _ eq_refl). reflexivity.
  - eexists. split; [reflexivity|].
    destruct (@Create_visualization ExampleJSON.json false
                ExampleJSON.doc_visual ExampleJSON.fresh _ eq_refl) as [_ H].
    destruct (H eq_refl) as (v & prims & boxes & cyls & Hv & _ & _ & _ & _
                             & Hm & _).
    split; [reflexivity|]. injection Hv as <-. apply (Hm eq_refl).
Defined.

(** ** The tire node *)

Lemma fold_opt_app {A S : Type} (f : S -> A -> option S) (l1 l2 : list A) (s : S) :
  fold_opt f (l1 ++ l2) s = (s' <- fold_opt f l1 s ;; fold_opt f l2 s').
Proof.
  revert s. induction l1 as [|a l1 IH]; intro s; simpl; [reflexivity|].
  destruct (f s a) as [s1|]; simpl; [apply IH|reflexivity].
Qed.

Lemma nth_error_map_seq {A : Type} (f : nat -> A) (n i : nat) :
  (i < n)%nat -> nth_error (map f (seq 0 n)) i = Some (f i).
Proof.
  intro H. rewrite nth_error_map.
  rewrite (nth_error_nth' (seq 0 n) 0%nat) by (rewrite length_seq; exact H).
  rewrite seq_nth by exact H. reflexivity.
Qed.

Lemma list_set_map_seq {A : Type} (f : nat -> A) (x : A) (n : nat) :
  forall s i, (i < n)%nat ->
  list_set (map f (seq s n)) i x
  = Some (map (fun v => if Nat.eqb v (s + i) then x else f v) (seq s n)).
Proof.
  induction n as [|n IH]; intros s i Hi; [lia|].
  simpl. destruct i as [|j].
  - rewrite Nat.add_0_r, Nat.eqb_refl. f_equal. f_equal.
    apply map_ext_in. intros v Hv. apply in_seq in Hv.
    destruct (Nat.eqb_spec v s); [lia|reflexivity].
  - rewrite (IH (S s) j) by lia. simpl.
    destruct (Nat.eqb_spec s (s + S j)); [lia|].
    f_equal. f_equal. apply map_ext. intro v.
    replace (S (s + j)) with (s + S j)%nat by lia. reflexivity.
Qed.

Lemma push_back_at_map_seq (f : nat -> list nat) (n : nat) (iv : Z) (ie : nat) :
  0 <= iv < Z.of_nat n ->
  push_back_at (map f (seq 0 n)) iv ie
  = Some (map (fun v => f v ++ (if iv =? Z.of_nat v then [ie] else []))
              (seq 0 n)).
Proof.
  intro H. unfold push_back_at, at_int.
  destruct (Z.ltb_spec iv 0); [lia|].
  rewrite nth_error_map_seq by lia. cbn [bind].
  rewrite (list_set_map_seq f _ n 0 (Z.to_nat iv)) by lia.
  f_equal. apply map_ext. intro v. simpl.
  destruct (Nat.eqb_spec v (Z.to_nat iv)) as [->|Hne].
  - rewrite Z2Nat.id by lia. rewrite Z.eqb_refl. reflexivity.
  - destruct (Z.eqb_spec iv (Z.of_nat v)) as [->|_].
    + rewrite Nat2Z.id in Hne. contradiction.
    + rewrite app_nil_r. reflexivity.
Qed.

Lemma repeat_nil_map_seq (s n : nat) :
  repeat (@nil nat) n = map (fun _ => []) (seq s n).
Proof.
  revert s. induction n as [|n IH]; intro s; simpl;
    [reflexivity|rewrite (IH (S s)); reflexivity].
Qed.

Lemma incidences_upto_S (tire : RigidTire) (k v : nat) :
  incidences_upto tire (S k) v
  = incidences_upto tire k v ++ incidence (triangle tire k) k v.
Proof.
  unfold incidences_upto. rewrite seq_S, flat_map_app. simpl.
  rewrite app_nil_r. reflexivity.
Qed.

Lemma incidence_only (tri : Z * Z * Z) (ie v x : nat) :
  In x (incidence tri ie v) -> x = ie.
Proof.
  destruct tri as [[a b] c]. unfold incidence.
  destruct (a =? Z.of_nat v), (b =? Z.of_nat v), (c =? Z.of_nat v); simpl;
    intuition congruence.
Qed.

Lemma incidences_upto_bound (tire : RigidTire) (k v x : nat) :
  In x (incidences_upto tire k v) -> (x < k)%nat.
Proof.
  unfold incidences_upto. intro H. apply in_flat_map in H.
  destruct H as (ie & Hie & Hx). apply in_seq in Hie.
  rewrite (incidence_only _ _ _ _ Hx). lia.
Qed.

Section TireTheorems.
Context {math : ChMath}.

(** The loop body on triangle [k], the triangles before it done. *)
Lemma triangle_step_spec (tire : RigidTire) (k : nat) :
  mesh_well_formed tire -> (k < GetNumTriangles tire)%nat ->
  triangle_step (GetMeshVertices tire) (GetMeshConnectivity tire)
    (map (incidences_upto tire k) (seq 0 (GetNumVertices tire)),
     map (area_of tire) (seq 0 k)) k
  = Some (map (incidences_upto tire (S k)) (seq 0 (GetNumVertices tire)),
          map (area_of tire) (seq 0 (S k))).
Proof.
  intros (Hnv & Hnt & Hin) Hk. unfold triangle_step.
  rewrite (nth_error_nth' (GetMeshConnectivity tire) (0, 0, 0)) by lia.
  cbn [bind]. specialize (Hin k Hk). unfold corners_in_range in Hin.
  assert (Harea : area_of tire k = area_of tire k) by reflexivity.
  unfold area_of at 2 in Harea.
  assert (Hinc : forall v, incidence (triangle tire k) k v
                           = incidence (triangle tire k) k v) by reflexivity.
  unfold triangle in Hin, Harea, Hinc at 2.
  destruct (nth k (GetMeshConnectivity tire) (0, 0, 0)) as [[iv1 iv2] iv3].
  destruct Hin as (H1 & H2 & H3).
  assert (Hv : forall i, 0 <= i < Z.of_nat (GetNumVertices tire) ->
                 at_int (GetMeshVertices tire) i = Some (vertex tire i)).
  { intros i Hi. unfold at_int, vertex.
    destruct (Z.ltb_spec i 0); [lia|].
    apply nth_error_nth'. lia. }
  rewrite (Hv iv1 H1), (Hv iv2 H2), (Hv iv3 H3). cbn [bind fst snd].
  rewrite push_back_at_map_seq by exact H1. cbn [bind].
  rewrite push_back_at_map_seq by exact H2. cbn [bind].
  rewrite push_back_at_map_seq by exact H3. cbn [bind].
  f_equal. f_equal.
  - apply map_ext. intro v. rewrite incidences_upto_S, Hinc.
    unfold incidence. rewrite !app_assoc. reflexivity.
  - rewrite seq_S, map_app. simpl. rewrite Harea. reflexivity.
Qed.

Lemma triangles_loop (tire : RigidTire) (k : nat) :
  mesh_well_formed tire -> (k <= GetNumTriangles tire)%nat ->
  fold_opt (triangle_step (GetMeshVertices tire) (GetMeshConnectivity tire))
           (seq 0 k) (repeat [] (GetNumVertices tire), [])
  = Some (map (incidences_upto tire k) (seq 0 (GetNumVertices tire)),
          map (area_of tire) (seq 0 k)).
Proof.
  intros Hwf. induction k as [|k IH]; intro Hk.
  - simpl. rewrite (repeat_nil_map_seq 0). reflexivity.
  - rewrite seq_S, fold_opt_app, IH by lia. cbn [bind Nat.add fold_opt].
    rewrite triangle_step_spec by (assumption || lia). cbn [bind].
    rewrite seq_S. reflexivity.
Qed.

Lemma sum_areas_spec (tire : RigidTire) (elems : list nat) :
  (forall ie, In ie elems -> (ie < GetNumTriangles tire)%nat) ->
  forall acc,
  fold_opt (fun area ie =>
              a <- nth_error (map (area_of tire) (seq 0 (GetNumTriangles tire))) ie ;;
              Some (Double.add area a)) elems acc
  = Some (fold_left Double.add (map (area_of tire) elems) acc).
Proof.
  induction elems as [|ie elems IH]; intros Hin acc; simpl; [reflexivity|].
  rewrite nth_error_map_seq by (apply Hin; left; reflexivity). cbn [bind].
  apply IH. intros x Hx. apply Hin. right. exact Hx.
Qed.

Lemma vertex_area_spec (tire : RigidTire) (v : nat) :
  vertex_area (map (area_of tire) (seq 0 (GetNumTriangles tire)))
              (incidences tire v)
  = Some (mean_area tire (incidences tire v)).
Proof.
  unfold vertex_area, sum_areas, mean_area.
  rewrite sum_areas_spec; [reflexivity|].
  intros ie H. apply (incidences_upto_bound tire _ v). exact H.
Qed.

Lemma vertices_loop (tire : RigidTire) (k : nat) :
  (k <= GetNumVertices tire)%nat ->
  fold_opt (fun acc i =>
              elems <- nth_error (map (incidences tire)
                                      (seq 0 (GetNumVertices tire))) i ;;
              a <- vertex_area (map (area_of tire)
                                    (seq 0 (GetNumTriangles tire))) elems ;;
              Some (acc ++ [a]))
           (seq 0 k) []
  = Some (map (fun v => mean_area tire (incidences tire v)) (seq 0 k)).
Proof.
  induction k as [|k IH]; intro Hk; [reflexivity|].
  rewrite seq_S, fold_opt_app, IH by lia. cbn [bind Nat.add fold_opt].
  rewrite nth_error_map_seq by lia. cbn [bind].
  rewrite vertex_area_spec. cbn [bind]. rewrite map_app. reflexivity.
Qed.

(** What [InitializeTire] computes on a well-formed mesh. *)
Lemma InitializeTire_spec (tire : RigidTire) :
  mesh_well_formed tire ->
  InitializeTire tire
  = Some (mkTireNode
            (map (incidences tire) (seq 0 (GetNumVertices tire)))
            (map (fun v => mean_area tire (incidences tire v))
                 (seq 0 (GetNumVertices tire)))).
Proof.
  intro Hwf. unfold InitializeTire.
  rewrite triangles_loop by (assumption || lia). cbn [bind fst snd].
  change (incidences_upto tire (GetNumTriangles tire)) with (incidences tire).
  rewrite vertices_loop by lia. reflexivity.
Qed.

End TireTheorems.

Lemma incidence_not_adjacent (tri : Z * Z * Z) (ie v : nat) :
  adjacent v tri = false -> incidence tri ie v = [].
Proof.
  destruct tri as [[a b] c]. unfold adjacent, incidence.
  destruct (a =? Z.of_nat v), (b =? Z.of_nat v), (c =? Z.of_nat v); simpl;
    intro H; try discriminate H; reflexivity.
Qed.

Lemma incidence_adjacent (tri : Z * Z * Z) (ie v : nat) :
  adjacent v tri = true -> incidence tri ie v <> [].
Proof.
  destruct tri as [[a b] c]. unfold adjacent, incidence.
  destruct (a =? Z.of_nat v), (b =? Z.of_nat v), (c =? Z.of_nat v); simpl;
    intro H; try discriminate H; discriminate.
Qed.

Lemma incidence_distinct (a b c : Z) (ie v : nat) :
  a <> b -> a <> c -> b <> c ->
  incidence (a, b, c) ie v = if adjacent v (a, b, c) then [ie] else [].
Proof.
  intros Hab Hac Hbc. unfold adjacent, incidence.
  destruct (Z.eqb_spec a (Z.of_nat v)), (Z.eqb_spec b (Z.of_nat v)),
    (Z.eqb_spec c (Z.of_nat v)); simpl; try reflexivity; congruence.
Qed.

Lemma unreferenced_incidences (tire : RigidTire) (v : nat) :
  referenced tire v = false -> incidences tire v = [].
Proof.
  unfold referenced, incidences, incidences_upto.
  induction (seq 0 (GetNumTriangles tire)) as [|ie l IH]; simpl; [reflexivity|].
  intro H. apply orb_false_elim in H. destruct H as [H1 H2].
  rewrite (incidence_not_adjacent _ _ _ H1), (IH H2). reflexivity.
Qed.

Lemma referenced_incidences (tire : RigidTire) (v : nat) :
  referenced tire v = true -> incidences tire v <> [].
Proof.
  unfold referenced, incidences, incidences_upto.
  induction (seq 0 (GetNumTriangles tire)) as [|ie l IH]; simpl;
    [discriminate|].
  intros H Hnil. apply app_eq_nil in Hnil. destruct Hnil as [Hn1 Hn2].
  apply orb_prop in H. destruct H as [H|H].
  - exact (incidence_adjacent _ _ _ H Hn1).
  - exact (IH H Hn2).
Qed.

Lemma distinct_incidences (tire : RigidTire) (v : nat) :
  distinct_corners tire -> incidences tire v = adjacent_triangles tire v.
Proof.
  intro Hd. unfold incidences, incidences_upto, adjacent_triangles.
  assert (Hin : forall ie, In ie (seq 0 (GetNumTriangles tire)) ->
                  (ie < GetNumTriangles tire)%nat).
  { intros ie H. apply in_seq in H. lia. }
  induction (seq 0 (GetNumTriangles tire)) as [|ie l IH]; simpl; [reflexivity|].
  rewrite IH by (intros x Hx; apply Hin; right; exact Hx).
  specialize (Hd ie (Hin ie (or_introl eq_refl))).
  destruct (triangle tire ie) as [[a b] c]. destruct Hd as (Hab & Hac & Hbc).
  rewrite (incidence_distinct a b c ie v Hab Hac Hbc).
  destruct (adjacent v (a, b, c)); reflexivity.
Qed.

Section TireAreaTheorem.
Context {math : ChMath}.

(** C8 (as amended). On a well-formed mesh (the corners of the
    triangles are vertices of the mesh) the preprocessing returns; the
    entries of [m_adjElements[v]] are the triangles in index order, each
    entered once for each of its corners that is [v], and
    [m_vertexArea[v]] is the sum of the areas over these entries divided
    by their number, the area of a triangle being half the length of the
    cross product of its two edge vectors. The divisor is not zero for a
    vertex that some triangle refers to, and zero for a vertex that no
    triangle refers to. When the three corners of every triangle are
    distinct, the entries for [v] are the triangles adjacent to [v], each
    once, so that [m_vertexArea[v]] is the arithmetic mean of their
    areas. *)
Theorem InitializeTire_vertex_areas (tire : RigidTire) :
  mesh_well_formed tire ->
  exists node,
    InitializeTire tire = Some node
    /\ List.length (m_vertexArea node) = GetNumVertices tire
    /\ forall v, (v < GetNumVertices tire)%nat ->
         nth_error (m_adjElements node) v = Some (incidences tire v)
         /\ nth_error (m_vertexArea node) v
            = Some (mean_area tire (incidences tire v))
         /\ (referenced tire v = true
             -> List.length (incidences tire v) <> 0%nat)
         /\ (referenced tire v = false
             -> List.length (incidences tire v) = 0%nat)
         /\ (distinct_corners tire
             -> incidences tire v = adjacent_triangles tire v
                /\ nth_error (m_vertexArea node) v
                   = Some (mean_area tire (adjacent_triangles tire v))).
Proof.
  intro Hwf. eexists. split; [apply InitializeTire_spec; exact Hwf|].
  cbn [m_adjElements m_vertexArea]. split.
  - rewrite length_map, length_seq. reflexivity.
  - intros v Hv.
    assert (Harea : nth_error
                      (map (fun v => mean_area tire (incidences tire v))
                           (seq 0 (GetNumVertices tire))) v
                    = Some (mean_area tire (incidences tire v)))
      by (apply (nth_error_map_seq
                   (fun v => mean_area tire (incidences tire v))); exact Hv).
    split; [apply (nth_error_map_seq (incidences tire)); exact Hv|].
    split; [exact Harea|].
    split; [|split].
    + intros Hr Hl. apply (referenced_incidences tire v Hr).
      destruct (incidences tire v); [reflexivity|discriminate Hl].
    + intro Hr. rewrite (unreferenced_incidences tire v Hr). reflexivity.
    + intro Hd. split; [apply distinct_incidences; exact Hd|].
      rewrite <- (distinct_incidences tire v Hd). exact Harea.
Qed.

End TireAreaTheorem.

Lemma two_triangles_well_formed : mesh_well_formed ExampleMesh.two_triangles.
Proof.
  split; [simpl; lia|]. split; [simpl; lia|].
  intros ie H. simpl in H.
  destruct ie as [|[|ie]]; [simpl; lia|simpl; lia|lia].
Qed.

Lemma degenerate_well_formed : mesh_well_formed ExampleMesh.degenerate.
Proof.
  split; [simpl; lia|]. split; [simpl; lia|].
  intros ie H. simpl in H.
  destruct ie as [|[|ie]]; [simpl; lia|simpl; lia|lia].
Qed.

(** The theorem on the two triangles sharing an edge, where vertex 1 is
    a corner of both and its area is the mean of the two areas, and on the
    mesh whose second triangle names vertex 0 twice, where that triangle
    is entered twice for vertex 0. *)
Lemma InitializeTire_vertex_areas_witness :
  (exists node,
     @InitializeTire Textbook.math ExampleMesh.two_triangles = Some node
     /\ nth_error (m_adjElements node) 1 = Some [0%nat; 1%nat]
     /\ nth_error (m_vertexArea node) 1 = Some Double.half)
  /\ (exists node,
        @InitializeTire Textbook.math ExampleMesh.degenerate = Some node
        /\ nth_error (m_adjElements node) 0 = Some [0%nat; 1%nat; 1%nat]
        /\ nth_error (m_vertexArea node) 0
           = Some (S754_finite false 6004799503160661 (-55))).
Proof.
  split.
  - destruct (@InitializeTire_vertex_areas Textbook.math
                ExampleMesh.two_triangles two_triangles_well_formed)
      as (node & H & _ & Hv).
    exists node. split; [exact H|].
    destruct (Hv 1%nat) as (Hadj & Harea & _); [simpl; lia|].
    rewrite Hadj, Harea. split; vm_compute; reflexivity.
  - destruct (@InitializeTire_vertex_areas Textbook.math
                ExampleMesh.degenerate degenerate_well_formed)
      as (node & H & _ & Hv).
    exists node. split; [exact H|].
    destruct (Hv 0%nat) as (Hadj & Harea & _); [simpl; lia|].
    rewrite Hadj, Harea. split; vm_compute; reflexivity.
Defined.

(** C8, counterexample. Every vertex of the mesh is referenced, but the
    second triangle names vertex 0 twice: it is entered twice for vertex
    0, whose area is a third of the area of the first triangle and not
    the mean, a half of it, over the two adjacent triangles. *)
Lemma InitializeTire_degenerate_not_mean :
  forallb (referenced ExampleMesh.degenerate) (seq 0 3) = true
  /\ exists node,
       @InitializeTire Textbook.math ExampleMesh.degenerate = Some node
       /\ nth_error (m_adjElements node) 0 = Some [0%nat; 1%nat; 1%nat]
       /\ adjacent_triangles ExampleMesh.degenerate 0 = [0%nat; 1%nat]
       /\ nth_error (m_vertexArea node) 0
          = Some (S754_finite false 6004799503160661 (-55))
       /\ @mean_area Textbook.math ExampleMesh.degenerate
            (adjacent_triangles ExampleMesh.degenerate 0)
          = S754_finite false 4503599627370496 (-54)
       /\ nth_error (m_vertexArea node) 0
          <> Some (@mean_area Textbook.math ExampleMesh.degenerate
                     (adjacent_triangles ExampleMesh.degenerate 0)).
Proof.
  split; [reflexivity|]. eexists. split; [vm_compute; reflexivity|].
  repeat split; try reflexivity. vm_compute. discriminate.
Qed.

(** ** From [Initialize] to the time steps *)

Section InitializeThenStep.
Context {math : ChMath} {ext : Externals}.

(** Every shape is found among the children built for the shapes. *)
Lemma entry_nodes_found (es : list ShapeEntry) :
  nodes_carry_values ->
  forall base e, In e es ->
  exists tm,
    GetTransform (entry_nodes base es) (Some (body_ptr (entry_body e)))
                 (Some (asset_ptr (entry_asset e))) = Some tm
    /\ (tm < base + List.length es)%nat.
Proof.
  intro Hcarry. unfold GetTransform.
  induction es as [|e0 es IH]; intros base e Hin; [contradiction|].
  cbn [entry_nodes GetTransform_loop]. unfold entry_node at 1 2 3.
  rewrite Hcarry. cbn [bodyPtr assetPtr transform shape_body shape_asset
                       shape_transform].
  destruct (Ref_eqb (Some (body_ptr (entry_body e)))
                    (Some (body_ptr (entry_body e0)))
            && Ref_eqb (Some (asset_ptr (entry_asset e)))
                       (Some (asset_ptr (entry_asset e0)))) eqn:Eq.
  - exists base. split; [reflexivity|]. simpl. lia.
  - destruct Hin as [->|Hin].
    + simpl in Eq. rewrite !Nat.eqb_refl in Eq. discriminate Eq.
    + destruct (IH (S base) e Hin) as (tm & Htm & Hlt).
      exists tm. split; [exact Htm|]. simpl. lia.
Qed.

Lemma built_scene_covers (sys : ChSystem) (base : nat) :
  nodes_carry_values ->
  covers (base + List.length (system_shapes (Get_bodylist sys)))
         (entry_nodes base (system_shapes (Get_bodylist sys))) (skeleton sys)
  = true.
Proof.
  intro Hcarry. unfold covers, skeleton. apply forallb_forall.
  intros p Hp. apply in_map_iff in Hp. destruct Hp as (e & <- & He).
  cbn [fst snd].
  destruct (entry_nodes_found _ Hcarry base e He) as (tm & -> & Hlt).
  apply Nat.ltb_lt. exact Hlt.
Qed.

(** The wait states [Initialize] computes are below the largest
    [size_t], the quotient of the two steps being a double. *)
Lemma wait_states_range (app : ChVSGApp) (wait_max : Z) :
  Double.valid (Double.div (m_outputStep app) (m_timeStep app)) = true ->
  wait_states app = Some wait_max -> 0 <= wait_max < 2 ^ 64 - 1.
Proof.
  intros Hv. unfold wait_states.
  destruct (Double.leb (m_outputStep app) (m_timeStep app)).
  - intro H. injection H as <-. change (2 ^ 64) with 18446744073709551616. lia.
  - apply to_size_t_range. exact Hv.
Qed.

(** The state a successful [Initialize] leaves. *)
Lemma Initialize_with_window (w h : Z) (title : string) (app : ChVSGApp)
    (sys : ChSystem) (wait_max : Z) (window : Window) :
  wait_states app = Some wait_max ->
  visualization_only (Get_bodylist sys) = true ->
  Window_create (mkTraits title w h 100 100) = Some window ->
  exists app',
    Initialize w h title (Some sys) app = Some (true, app')
    /\ m_system app' = Some sys
    /\ m_scenegraph app'
       = Some (entry_nodes (List.length (m_transforms app))
                           (system_shapes (Get_bodylist sys)))
    /\ m_transforms app'
       = m_transforms app ++ map entry_matrix (system_shapes (Get_bodylist sys))
    /\ m_wait_counter_max app' = wait_max
    /\ m_wait_counter app' = m_wait_counter app
    /\ m_timeStep app' = m_timeStep app
    /\ calls app' = calls app.
Proof.
  intros Hw Hvis Hwin. unfold Initialize.
  unfold wait_states in Hw. cbn [m_outputStep m_timeStep set_m_scenegraph
    set_m_windowTraits set_m_system]. rewrite Hw. cbn [bind].
  erewrite (BuildSceneGraph_spec _ sys []);
    [|reflexivity|reflexivity|exact Hvis]. cbn [bind].
  cbn. rewrite Hwin. eexists. split; [reflexivity|].
  repeat split; reflexivity.
Qed.

(** After a successful [Initialize] of a fresh counter, any number of
    time steps return and follow the schedule. *)
Lemma Initialize_then_doTimeSteps (w h : Z) (title : string) (app : ChVSGApp)
    (sys : ChSystem) (wait_max : Z) (window : Window) (n : nat) :
  nodes_carry_values ->
  (forall dt s, skeleton (DoStepDynamics dt s) = skeleton s) ->
  m_wait_counter app = 1 ->
  Double.valid (Double.div (m_outputStep app) (m_timeStep app)) = true ->
  wait_states app = Some wait_max ->
  visualization_only (Get_bodylist sys) = true ->
  Window_create (mkTraits title w h 100 100) = Some window ->
  exists app1 app2,
    Initialize w h title (Some sys) app = Some (true, app1)
    /\ doTimeSteps n app1 = Some app2
    /\ calls app2 = calls app ++ expected_calls (m_timeStep app) wait_max 1 n.
Proof.
  intros Hcarry Hstep Hcnt Hv Hw Hvis Hwin.
  destruct (Initialize_with_window w h title app sys wait_max window Hw Hvis
              Hwin)
    as (app1 & Hinit & Hs & Hc & Ht & HM & Hcnt1 & Hdt & Hcalls).
  destruct (doTimeSteps_from n app1 sys
              (entry_nodes (List.length (m_transforms app))
                           (system_shapes (Get_bodylist sys))) 0)
    as (app2 & Hrun & Hlog & _).
  - exact Hs.
  - exact Hc.
  - rewrite Ht, length_app, length_map. apply built_scene_covers. exact Hcarry.
  - exact Hstep.
  - lia.
  - rewrite HM. apply (wait_states_range app wait_max Hv Hw).
  - rewrite HM, Hcnt1, Hcnt. unfold counter_after.
    destruct (wait_max =? 0); [reflexivity|]. rewrite Zmod_0_l. reflexivity.
  - exists app1, app2. split; [exact Hinit|]. split; [exact Hrun|].
    rewrite Hlog, Hcalls, Hdt, HM. reflexivity.
Qed.

End InitializeThenStep.

(* ================================================================== *)
(** * Part IV: further properties of the code *)
(* ================================================================== *)

(** ** Lookup after build, and the pose update *)

Lemma fold_opt_fails {A S : Type} (f : S -> A -> option S) (l : list A) (a : A) :
  In a l -> (forall s, f s a = None) -> forall s, fold_opt f l s = None.
Proof.
  intros Hin Hf. induction l as [|b l IH]; intro s; [contradiction|].
  simpl. destruct Hin as [->|Hin].
  - rewrite Hf. reflexivity.
  - destruct (f s b); simpl; [apply IH; exact Hin|reflexivity].
Qed.

Lemma list_set_middle {A : Type} (pre : list A) (t : A) (rest : list A) (x : A) :
  list_set (pre ++ t :: rest) (List.length pre) x = Some (pre ++ x :: rest).
Proof.
  induction pre as [|h pre IH]; simpl; [reflexivity|].
  rewrite IH. reflexivity.
Qed.

Section PoseUpdate.
Context {math : ChMath} {ext : Externals}.

(** With distinct pointer pairs, the shape number [k] is found at the
    transform number [k]. *)
Lemma GetTransform_entry_nodes (es : list ShapeEntry) :
  nodes_carry_values -> NoDup (map entry_pointers es) ->
  forall base k b a,
  nth_error (map entry_pointers es) k = Some (b, a) ->
  GetTransform (entry_nodes base es) (Some b) (Some a) = Some (base + k)%nat.
Proof.
  intros Hcarry. unfold GetTransform.
  induction es as [|e0 es IH]; intros Hnd base k b a Hk.
  - destruct k; discriminate Hk.
  - cbn [entry_nodes GetTransform_loop]. unfold entry_node at 1 2 3.
    rewrite Hcarry. cbn [bodyPtr assetPtr transform shape_body shape_asset
                         shape_transform Ref_eqb].
    inversion Hnd as [|p ps Hnotin Hnd']; subst.
    destruct k as [|k]; simpl in Hk.
    + injection Hk as <- <-. rewrite !Nat.eqb_refl. simpl.
      rewrite Nat.add_0_r. reflexivity.
    + destruct (Nat.eqb b (body_ptr (entry_body e0))
                && Nat.eqb a (asset_ptr (entry_asset e0))) eqn:Eq.
      * exfalso. apply andb_prop in Eq. destruct Eq as [Eb Ea].
        apply Nat.eqb_eq in Eb. apply Nat.eqb_eq in Ea. subst b a.
        apply Hnotin. apply (nth_error_In _ _ Hk).
      * rewrite (IH Hnd' (S base) k b a Hk). f_equal. lia.
Qed.

(** The nodes of the shape objects are not ill shaped. *)
Lemma entry_nodes_well_shaped (base : nat) (es : list ShapeEntry)
    (body asset : Ref) :
  nodes_carry_values ->
  well_shaped (entry_nodes base es) body asset = true.
Proof.
  intro Hcarry. unfold well_shaped. revert base.
  induction es as [|e es IH]; intro base; [reflexivity|].
  cbn [entry_nodes forallb]. rewrite IH. unfold entry_node.
  rewrite Hcarry. unfold carries_transform. cbn [transform].
  destruct (carries_pair _ _ _); reflexivity.
Qed.

(** The scene graph [BuildSceneGraph] builds from an empty one has no
    ill-shaped child, whatever the pair looked up. *)
Lemma BuildSceneGraph_well_shaped (app : ChVSGApp) (sys : ChSystem) :
  nodes_carry_values ->
  m_system app = Some sys -> m_scenegraph app = Some [] ->
  visualization_only (Get_bodylist sys) = true ->
  exists app' children,
    BuildSceneGraph app = Some app'
    /\ m_scenegraph app' = Some children
    /\ forall body asset, well_shaped children body asset = true.
Proof.
  intros Hcarry Hs Hc Hvis.
  eexists. eexists. split; [apply BuildSceneGraph_spec; eassumption|].
  split; [reflexivity|]. intros body asset. cbn [List.app].
  apply entry_nodes_well_shaped. exact Hcarry.
Qed.

(** X1. After [BuildSceneGraph] on an empty scene graph, for a system
    of visualization assets whose bodies and assets are distinct objects,
    looking a shape up by its body and asset returns the transform that
    holds the matrix built for that shape. *)
Theorem GetTransform_after_BuildSceneGraph (app : ChVSGApp) (sys : ChSystem) :
  nodes_carry_values ->
  m_system app = Some sys -> m_scenegraph app = Some [] ->
  visualization_only (Get_bodylist sys) = true ->
  NoDup (skeleton sys) ->
  exists app' children,
    BuildSceneGraph app = Some app'
    /\ m_scenegraph app' = Some children
    /\ forall k e,
         nth_error (system_shapes (Get_bodylist sys)) k = Some e ->
         exists tm,
           GetTransform children (Some (body_ptr (entry_body e)))
                        (Some (asset_ptr (entry_asset e))) = Some tm
           /\ nth_error (m_transforms app') tm
              = Some (matrix_composed_rotation (entry_body e) (entry_vis e)
                                               (entry_size e)).
Proof.
  intros Hcarry Hs Hc Hvis Hnd.
  exists (set_m_build_graph false
            (set_m_scenegraph
               (Some ([] ++ entry_nodes (List.length (m_transforms app))
                                        (system_shapes (Get_bodylist sys))))
               (set_m_transforms
                  (m_transforms app
                   ++ map entry_matrix (system_shapes (Get_bodylist sys)))
                  app))).
  eexists. split; [apply BuildSceneGraph_spec; assumption|].
  split; [reflexivity|]. intros k e Hk.
  exists (List.length (m_transforms app) + k)%nat. split.
  - simpl. apply (GetTransform_entry_nodes _ Hcarry Hnd).
    rewrite nth_error_map, Hk. reflexivity.
  - simpl. rewrite nth_error_app2 by lia.
    replace (List.length (m_transforms app) + k - List.length (m_transforms app))%nat
      with k by lia.
    rewrite nth_error_map, Hk. reflexivity.
Qed.

Lemma update_asset_flat (children : list Node) (body : ChBody)
    (init : ShapeInit) (asset : ChAsset) (tr : list dmat4) :
  update_asset children body tr asset
  = fold_opt (update_entry children) (asset_shapes body init [asset]) tr.
Proof.
  unfold update_asset, asset_shapes, update_entry.
  destruct (asset_class asset) eqn:E; cbn -[update_shape]; rewrite E;
    cbn -[update_shape]; try reflexivity;
    unfold box_size, sphere_size, ellipsoid_size, cylinder_size;
    repeat match goal with v : ChVector |- _ => destruct v end;
    cbn -[update_shape];
    match goal with
    | |- context [update_shape ?c ?b ?a ?v ?s ?t] =>
        destruct (update_shape c b a v s t); reflexivity
    end.
Qed.

Lemma update_assets_flat (children : list Node) (body : ChBody)
    (init : ShapeInit) (assets : list ChAsset) (tr : list dmat4) :
  fold_opt (update_asset children body) assets tr
  = fold_opt (update_entry children) (asset_shapes body init assets) tr.
Proof.
  revert tr. induction assets as [|a assets IH]; intro tr; [reflexivity|].
  rewrite (asset_shapes_cons body init a assets), fold_opt_app.
  cbn [fold_opt]. rewrite (update_asset_flat children body init a tr).
  destruct (fold_opt (update_entry children) (asset_shapes body init [a]) tr);
    simpl; [apply IH|reflexivity].
Qed.

Lemma update_bodies_flat (children : list Node) (bodies : list ChBody)
    (tr : list dmat4) :
  fold_opt (update_body children) bodies tr
  = fold_opt (update_entry children) (system_shapes bodies) tr.
Proof.
  revert tr. induction bodies as [|b bodies IH]; intro tr; [reflexivity|].
  change (system_shapes (b :: bodies))
    with (asset_shapes b (shape_Initialize (body_material b)) (GetAssets b)
          ++ system_shapes bodies).
  rewrite fold_opt_app. cbn [fold_opt]. unfold update_body at 1.
  rewrite (update_assets_flat children b (shape_Initialize (body_material b))).
  destruct (fold_opt (update_entry children)
              (asset_shapes b (shape_Initialize (body_material b)) (GetAssets b))
              tr); simpl; [apply IH|reflexivity].
Qed.

(** Shapes found one after the other at consecutive transforms get their
    matrices written one after the other; the other transforms stay. *)
Lemma update_entries_consecutive (children : list Node) (es : list ShapeEntry)
    (post : list dmat4) :
  forall (pre old : list dmat4),
  (forall j e, nth_error es j = Some e ->
     GetTransform children (Some (body_ptr (entry_body e)))
                  (Some (asset_ptr (entry_asset e)))
     = Some (List.length pre + j)%nat) ->
  List.length old = List.length es ->
  fold_opt (update_entry children) es (pre ++ old ++ post)
  = Some (pre ++ map entry_matrix es ++ post).
Proof.
  induction es as [|e es IH]; intros pre old Hfound Hlen.
  - destruct old; [reflexivity|discriminate Hlen].
  - destruct old as [|t old]; [discriminate Hlen|].
    cbn [fold_opt]. unfold update_entry at 1, update_shape.
    rewrite (Hfound 0%nat e eq_refl), Nat.add_0_r.
    change (pre ++ (t :: old) ++ post) with (pre ++ t :: (old ++ post)).
    rewrite list_set_middle. cbn [bind].
    replace (pre ++ shape_matrix (entry_body e) (entry_vis e) (entry_size e)
                 :: old ++ post)
      with ((pre ++ [entry_matrix e]) ++ old ++ post)
      by (rewrite <- app_assoc; reflexivity).
    rewrite IH.
    + rewrite <- app_assoc. reflexivity.
    + intros j e' Hj. rewrite (Hfound (S j) e' Hj), length_app. simpl.
      f_equal. lia.
    + simpl in Hlen. lia.
Qed.

(** A transform found among the first children is the one returned,
    whatever children follow. *)
Lemma GetTransform_app_found (l more : list Node) (b a : Ref) (t : Ptr) :
  GetTransform l b a = Some t -> GetTransform (l ++ more) b a = Some t.
Proof.
  unfold GetTransform. induction l as [|n l IH]; intro H.
  - discriminate H.
  - cbn [GetTransform_loop app] in *.
    destruct (bodyPtr n), (assetPtr n); try (apply IH; exact H).
    destruct (Ref_eqb b r && Ref_eqb a r0); [|apply IH; exact H].
    destruct (transform n); [exact H|apply IH; exact H].
Qed.

Lemma UpdateSceneGraph_entry_nodes (app : ChVSGApp) (built now : ChSystem)
    (more : list Node) (pre old post : list dmat4) :
  nodes_carry_values ->
  m_system app = Some now ->
  m_scenegraph app
  = Some (entry_nodes (List.length pre) (system_shapes (Get_bodylist built))
          ++ more) ->
  m_transforms app = pre ++ old ++ post ->
  List.length old = List.length (system_shapes (Get_bodylist built)) ->
  skeleton now = skeleton built -> NoDup (skeleton built) ->
  UpdateSceneGraph app
  = Some (set_calls (calls app ++ [CallUpdateSceneGraph])
            (set_m_transforms
               (pre ++ map entry_matrix (system_shapes (Get_bodylist now))
                    ++ post) app)).
Proof.
  intros Hcarry Hs Hc Ht Hlen Hskel Hnd.
  unfold UpdateSceneGraph. rewrite Hs, Hc, Ht. cbn [bind].
  rewrite update_bodies_flat, update_entries_consecutive; [reflexivity| |].
  - intros j e Hj. apply GetTransform_app_found.
    apply (GetTransform_entry_nodes _ Hcarry Hnd).
    change (map entry_pointers (system_shapes (Get_bodylist built)))
      with (skeleton built).
    rewrite <- Hskel. unfold skeleton.
    rewrite nth_error_map, Hj. reflexivity.
  - rewrite Hlen.
    rewrite <- (length_map entry_pointers (system_shapes (Get_bodylist built))).
    change (map entry_pointers (system_shapes (Get_bodylist built)))
      with (skeleton built).
    rewrite <- Hskel. unfold skeleton. rewrite length_map. reflexivity.
Qed.

(** X2. [BuildSceneGraph] on an empty scene graph followed by
    [UpdateSceneGraph], the bodies having moved in between while bodies
    and assets stayed the same distinct objects: the update returns and
    leaves, after the transforms that were there before the build, the
    matrix of every shape in the current poses, in the order of the
    shapes. *)
Theorem UpdateSceneGraph_after_BuildSceneGraph (app app1 : ChVSGApp)
    (built now : ChSystem) :
  nodes_carry_values ->
  m_system app = Some built -> m_scenegraph app = Some [] ->
  visualization_only (Get_bodylist built) = true ->
  NoDup (skeleton built) -> skeleton now = skeleton built ->
  BuildSceneGraph app = Some app1 ->
  exists app2,
    UpdateSceneGraph (set_m_system (Some now) app1) = Some app2
    /\ m_transforms app2
       = m_transforms app
         ++ map entry_matrix (system_shapes (Get_bodylist now))
    /\ m_scenegraph app2 = m_scenegraph app1
    /\ calls app2 = calls app ++ [CallUpdateSceneGraph].
Proof.
  intros Hcarry Hs Hc Hvis Hnd Hskel Hb.
  rewrite (BuildSceneGraph_spec app built [] Hs Hc Hvis) in Hb.
  injection Hb as <-.
  eexists. split.
  - apply (UpdateSceneGraph_entry_nodes _ built now [] (m_transforms app)
             (map entry_matrix (system_shapes (Get_bodylist built))) []);
      try assumption; try reflexivity.
    + cbn. rewrite !app_nil_r. reflexivity.
    + cbn. rewrite app_nil_r. reflexivity.
    + apply length_map.
  - cbn. rewrite app_nil_r. repeat split; reflexivity.
Qed.

(** X4. [BuildSceneGraph] does not look at [m_build_graph]: a second call
    adds a second child and a second transform for every shape. Lookups
    stop at the first child of a shape, so an [UpdateSceneGraph] after
    the bodies moved rewrites the transforms of the first build only and
    leaves those of the second build at the poses of the build. *)
Theorem BuildSceneGraph_twice (app : ChVSGApp) (built now : ChSystem) :
  nodes_carry_values ->
  m_system app = Some built -> m_scenegraph app = Some [] ->
  visualization_only (Get_bodylist built) = true ->
  NoDup (skeleton built) -> skeleton now = skeleton built ->
  let shapes := system_shapes (Get_bodylist built) in
  let n := List.length shapes in
  let base := List.length (m_transforms app) in
  exists app1 app2 app3,
    BuildSceneGraph app = Some app1
    /\ BuildSceneGraph app1 = Some app2
    /\ m_scenegraph app2
       = Some (entry_nodes base shapes ++ entry_nodes (base + n) shapes)
    /\ UpdateSceneGraph (set_m_system (Some now) app2) = Some app3
    /\ m_transforms app3
       = m_transforms app
         ++ map entry_matrix (system_shapes (Get_bodylist now))
         ++ map entry_matrix shapes.
Proof.
  intros Hcarry Hs Hc Hvis Hnd Hskel shapes n base.
  eexists. eexists. eexists.
  split; [apply (BuildSceneGraph_spec app built [] Hs Hc Hvis)|].
  split; [apply BuildSceneGraph_spec; [exact Hs|reflexivity|exact Hvis]|].
  split.
  - cbn. rewrite length_app, length_map. reflexivity.
  - split.
    + apply (UpdateSceneGraph_entry_nodes _ built now
               (entry_nodes (base + n) shapes) (m_transforms app)
               (map entry_matrix shapes) (map entry_matrix shapes));
        try assumption; try reflexivity.
      * cbn. rewrite length_app, length_map. reflexivity.
      * cbn. rewrite <- app_assoc. reflexivity.
      * apply length_map.
    + reflexivity.
Qed.

(** X3. A shape of the system for which the scene graph has no child
    with a transform, as for a body added after the graph was built,
    makes [UpdateSceneGraph] dereference a null transform. *)
Theorem UpdateSceneGraph_missing_node (app : ChVSGApp) (sys : ChSystem)
    (children : list Node) (body : ChBody) (asset : ChAsset) :
  m_system app = Some sys -> m_scenegraph app = Some children ->
  In body (Get_bodylist sys) -> In asset (GetAssets body) ->
  is_shape asset = true ->
  GetTransform children (Some (body_ptr body)) (Some (asset_ptr asset)) = None ->
  UpdateSceneGraph app = None.
Proof.
  intros Hs Hc Hb Ha Hshape Hnone. unfold UpdateSceneGraph.
  rewrite Hs, Hc. cbn [bind].
  rewrite (fold_opt_fails (update_body children) (Get_bodylist sys) body Hb);
    [reflexivity|].
  intro tr. unfold update_body.
  apply (fold_opt_fails (update_asset children body) (GetAssets body) asset Ha).
  intro tr'. unfold update_asset, is_shape in *.
  destruct (asset_class asset); simpl in *; try discriminate Hshape;
    unfold update_shape; rewrite Hnone; reflexivity.
Qed.

End PoseUpdate.

Lemma example_skeleton_NoDup :
  NoDup (@skeleton Textbook.math Example.system1).
Proof. repeat constructor; simpl; intuition discriminate. Qed.

Lemma example_nodes_carry_values :
  @nodes_carry_values Example.ext.
Proof. intro shape. reflexivity. Qed.

Lemma GetTransform_after_BuildSceneGraph_witness :
  exists app' children,
    @BuildSceneGraph Textbook.math Example.ext Example.app_ready = Some app'
    /\ m_scenegraph app' = Some children
    /\ forall k e,
         nth_error (@system_shapes Textbook.math
                      (Get_bodylist Example.system1)) k = Some e ->
         exists tm,
           GetTransform children (Some (body_ptr (entry_body e)))
                        (Some (asset_ptr (entry_asset e))) = Some tm
           /\ nth_error (m_transforms app') tm
              = Some (@matrix_composed_rotation Textbook.math (entry_body e)
                        (entry_vis e) (entry_size e)).
Proof.
  apply (@GetTransform_after_BuildSceneGraph Textbook.math Example.ext
           Example.app_ready Example.system1).
  - exact example_nodes_carry_values.
  - reflexivity.
  - reflexivity.
  - reflexivity.
  - exact example_skeleton_NoDup.
Defined.

Lemma UpdateSceneGraph_after_BuildSceneGraph_witness :
  exists app2,
    @UpdateSceneGraph Textbook.math
      (set_m_system (Some ExampleMoved.system1) ExampleMoved.app_built)
    = Some app2
    /\ m_transforms app2
       = m_transforms Example.app_ready
         ++ map (@entry_matrix Textbook.math)
                (@system_shapes Textbook.math
                   (Get_bodylist ExampleMoved.system1))
    /\ m_scenegraph app2 = m_scenegraph ExampleMoved.app_built
    /\ calls app2 = calls Example.app_ready ++ [CallUpdateSceneGraph].
Proof.
  apply (@UpdateSceneGraph_after_BuildSceneGraph Textbook.math Example.ext
           Example.app_ready ExampleMoved.app_built Example.system1
           ExampleMoved.system1).
  - exact example_nodes_carry_values.
  - reflexivity.
  - reflexivity.
  - reflexivity.
  - exact example_skeleton_NoDup.
  - reflexivity.
  - vm_compute. reflexivity.
Defined.

Lemma UpdateSceneGraph_missing_node_witness :
  @UpdateSceneGraph Textbook.math ExampleMoved.app_late_body = None.
Proof.
  apply (@UpdateSceneGraph_missing_node Textbook.math
           ExampleMoved.app_late_body ExampleMoved.system2
           (@entry_nodes Example.ext 0
              (@system_shapes Textbook.math (Get_bodylist Example.system1)))
           ExampleMoved.body2 ExampleMoved.late_ball).
  - reflexivity.
  - vm_compute. reflexivity.
  - simpl. auto.
  - simpl. auto.
  - reflexivity.
  - vm_compute. reflexivity.
Defined.

Lemma BuildSceneGraph_twice_witness :
  exists app1 app2 app3,
    @BuildSceneGraph Textbook.math Example.ext Example.app_ready = Some app1
    /\ @BuildSceneGraph Textbook.math Example.ext app1 = Some app2
    /\ m_scenegraph app2
       = Some (@entry_nodes Example.ext 0
                 (@system_shapes Textbook.math (Get_bodylist Example.system1))
               ++ @entry_nodes Example.ext 2
                    (@system_shapes Textbook.math
                       (Get_bodylist Example.system1)))
    /\ @UpdateSceneGraph Textbook.math
         (set_m_system (Some ExampleMoved.system1) app2) = Some app3
    /\ m_transforms app3
       = map (@entry_matrix Textbook.math)
             (@system_shapes Textbook.math (Get_bodylist ExampleMoved.system1))
         ++ map (@entry_matrix Textbook.math)
                (@system_shapes Textbook.math (Get_bodylist Example.system1)).
Proof.
  apply (@BuildSceneGraph_twice Textbook.math Example.ext Example.app_ready
           Example.system1 ExampleMoved.system1).
  - exact example_nodes_carry_values.
  - reflexivity.
  - reflexivity.
  - reflexivity.
  - exact example_skeleton_NoDup.
  - reflexivity.
Defined.

(** ** The wait states of [Initialize] *)

Section WaitStates.
Context {math : ChMath} {ext : Externals}.

(** X5. With a system, [Initialize] is undefined when one of the two
    steps is a NaN, and when the time step is zero and the output step
    positive: the comparison fails and the quotient, a NaN or an
    infinity, is converted to [size_t]. *)
Theorem Initialize_undefined_steps (w h : Z) (title : string) (sys : ChSystem)
    (app : ChVSGApp) :
  Double.is_nan (m_outputStep app) = true
  \/ Double.is_nan (m_timeStep app) = true
  \/ (Double.eqb (m_timeStep app) Double.zero = true
      /\ Double.gtb (m_outputStep app) Double.zero = true) ->
  Initialize w h title (Some sys) app = None.
Proof.
  intro H. unfold Initialize.
  cbn [m_outputStep m_timeStep set_m_scenegraph set_m_windowTraits
       set_m_system].
  assert (Hw : (if Double.leb (m_outputStep app) (m_timeStep app) then Some 1
                else Double.to_size_t
                       (Double.div (m_outputStep app) (m_timeStep app)))
               = None).
  { destruct (m_outputStep app) as [so|so| |so mo eo],
             (m_timeStep app) as [st|st| |st mt et];
      destruct H as [H|[H|[H1 H2]]];
      try discriminate H; try discriminate H1; try discriminate H2;
      try reflexivity;
      destruct so; try discriminate H2; try reflexivity;
      destruct st; discriminate H1. }
  rewrite Hw. reflexivity.
Qed.

End WaitStates.

Lemma Initialize_undefined_steps_witness :
  @Initialize Textbook.math Example.ext 800 600 "demo" (Some Example.system1)
              ExampleSteps.app_zero_step = None.
Proof.
  apply (@Initialize_undefined_steps Textbook.math Example.ext 800 600 "demo"
           Example.system1 ExampleSteps.app_zero_step).
  right. right. split; reflexivity.
Defined.

(** ** Assets that are no visualization assets *)



Section Materials.
Context {math : ChMath} {ext : Externals}.






End Materials.


(** ** Further properties of the GUI *)

Section GuiTheorems.
Context {core : ChMathematics}.

(** X7. When no user receiver takes the event, the release of one of the
    keys I, O, U, SPACE, F7 negates the flag of the key, and a second
    release undoes the first: every member of the GUI is as before, only
    the log of the offers to the user receivers has grown. *)
Theorem OnEvent_toggle_twice (postprocess : bool) (g : ChIrrGUI)
    (k : EKEY_CODE) :
  taken_by_user (m_user_receivers g) (release k) = false ->
  toggle_key k = true ->
  exists g1,
    OnEvent postprocess (mkEventReceiver (Some g)) (release k)
    = Some (true, mkEventReceiver (Some g1))
    /\ flag_of k g1 = negb (flag_of k g)
    /\ OnEvent postprocess (mkEventReceiver (Some g1)) (release k)
       = Some (true,
               mkEventReceiver
                 (Some (after_offers (release k) (after_offers (release k) g)))).
Proof.
  intros Ht Hk. rewrite OnEvent_cases, Ht. cbn [release PressedDown Key].
  destruct k; try discriminate Hk; cbn [key_released];
    (eexists; split; [reflexivity|]); (split; [reflexivity|]);
    rewrite OnEvent_cases;
    cbn [m_user_receivers set_show set_flags set_logs after_offers];
    rewrite Ht; cbn [release PressedDown Key key_released];
    unfold after_offers; destruct g; cbn;
    rewrite ?negb_involutive; reflexivity.
Qed.

(** X8. The null check of [m_gui] guards the loop over the user
    receivers only. With a null [m_gui], [OnEvent] is undefined exactly
    for the events whose handling goes through the pointer: the release of
    a key the [switch] has a case for (F12 only in a build with
    postprocessing) and the GUI events of the four widgets. For every
    other event the pointer stays null, and the answer is the one a
    receiver with a GUI gives, which then leaves the GUI as it is but for
    the log of the offers to the user receivers. *)
Theorem OnEvent_null_gui (postprocess : bool) (event : SEvent) :
  (OnEvent postprocess (mkEventReceiver None) event
   = if needs_gui postprocess event then None
     else Some (recognized_key_release event, mkEventReceiver None))
  /\ (forall answer this',
        OnEvent postprocess (mkEventReceiver None) event = Some (answer, this') ->
        forall g,
          taken_by_user (m_user_receivers g) event = false ->
          OnEvent postprocess (mkEventReceiver (Some g)) event
          = Some (answer, mkEventReceiver (Some (after_offers event g)))).
Proof.
  split.
  - unfold OnEvent, needs_gui, recognized_key_release. cbn [m_gui].
    destruct event as [[k pd]|e|c]; cbn.
    + destruct pd; cbn; [reflexivity|].
      destruct k; cbn; try reflexivity. destruct postprocess; reflexivity.
    + destruct (GUI_EventType e); reflexivity.
    + reflexivity.
  - intros answer this' H g Ht. rewrite OnEvent_cases, Ht.
    unfold OnEvent in H. cbn [m_gui] in H.
    destruct event as [[k pd]|e|c]; cbn [PressedDown Key negb] in *.
    + destruct pd; cbn [negb] in *; [injection H as <- <-; reflexivity|].
      destruct k; cbn in H; try discriminate H;
        try (injection H as <- <-; reflexivity).
      destruct postprocess; [discriminate H|].
      injection H as <- <-. reflexivity.
    + unfold gui_event.
      destruct (GUI_EventType e); cbn in *.
      * destruct (Caller_getID e =? 9921); [discriminate H|].
        destruct (Caller_getID e =? 9927); [discriminate H|].
        destruct (Caller_getID e =? 9928); [discriminate H|].
        injection H as <- <-. reflexivity.
      * destruct (Caller_getID e =? 9926); [discriminate H|].
        injection H as <- <-. reflexivity.
      * injection H as <- <-. reflexivity.
    + injection H as <- <-. reflexivity.
Qed.

Lemma ChMax_idempotent (c v : double) :
  ChMax_selects core -> ChMax c (ChMax c v) = ChMax c v.
Proof.
  intro Hsel. destruct (Hsel c v) as [E|E]; rewrite E.
  - destruct (Hsel c c) as [H|H]; exact H.
  - exact E.
Qed.

(** X9. [ChMax] returning one of its arguments, the three setters are
    idempotent: setting the same value again, or the value the setter has
    stored, leaves the GUI as the first call left it, for every input, a
    NaN included. *)
Theorem setters_idempotent (v : double) (g : ChIrrGUI) :
  ChMax_selects core ->
  SetSymbolscale v (SetSymbolscale v g) = SetSymbolscale v g
  /\ SetSymbolscale (symbolscale (SetSymbolscale v g)) (SetSymbolscale v g)
     = SetSymbolscale v g
  /\ SetModalAmplitude v (SetModalAmplitude v g) = SetModalAmplitude v g
  /\ SetModalAmplitude (modal_amplitude (SetModalAmplitude v g))
                       (SetModalAmplitude v g)
     = SetModalAmplitude v g
  /\ SetModalSpeed v (SetModalSpeed v g) = SetModalSpeed v g
  /\ SetModalSpeed (modal_speed (SetModalSpeed v g)) (SetModalSpeed v g)
     = SetModalSpeed v g.
Proof.
  intro Hsel. unfold SetSymbolscale, SetModalAmplitude, SetModalSpeed. cbn.
  rewrite !(ChMax_idempotent _ _ Hsel). repeat split; reflexivity.
Qed.

End GuiTheorems.

(** The theorem for the key SPACE on a GUI with one user receiver that
    declines everything. *)
Lemma OnEvent_toggle_twice_witness :
  let g := register_all [bystander 1] ChIrrGUI_new in
  exists g1,
    @OnEvent OneComparison.greater false (mkEventReceiver (Some g))
             (release KEY_SPACE)
    = Some (true, mkEventReceiver (Some g1))
    /\ UtilityFlag g = false /\ UtilityFlag g1 = true
    /\ @OnEvent OneComparison.greater false (mkEventReceiver (Some g1))
                (release KEY_SPACE)
       = Some (true,
               mkEventReceiver
                 (Some (after_offers (release KEY_SPACE)
                          (after_offers (release KEY_SPACE) g)))).
Proof.
  intro g.
  destruct (@OnEvent_toggle_twice OneComparison.greater false g KEY_SPACE
              eq_refl eq_refl) as (g1 & H1 & Hf & H2).
  exists g1. split; [exact H1|]. split; [reflexivity|].
  split; [exact Hf|exact H2].
Defined.

(** In a build with postprocessing the key F12 is no such key: released
    twice on the fresh GUI it leaves saving off again, but with an
    exporter set up. *)
Lemma OnEvent_F12_twice :
  exists g1 g2,
    @OnEvent OneComparison.greater true (mkEventReceiver (Some ChIrrGUI_new))
             (release KEY_F12)
    = Some (true, mkEventReceiver (Some g1))
    /\ @OnEvent OneComparison.greater true (mkEventReceiver (Some g1))
                (release KEY_F12)
       = Some (true, mkEventReceiver (Some g2))
    /\ blender_save g1 = true /\ blender_save g2 = false
    /\ blender_exporter ChIrrGUI_new = None
    /\ blender_exporter g2 = Some (setup Dir_Y).
Proof. do 2 eexists. repeat split. Qed.

(** A key press with a null GUI and with the fresh GUI. *)
Lemma OnEvent_null_gui_witness :
  @OnEvent OneComparison.greater true (mkEventReceiver (Some ChIrrGUI_new))
           (press KEY_KEY_I)
  = Some (false,
          mkEventReceiver (Some (after_offers (press KEY_KEY_I) ChIrrGUI_new))).
Proof.
  destruct (@OnEvent_null_gui OneComparison.greater true (press KEY_KEY_I))
    as [_ H].
  apply (H false (mkEventReceiver None) eq_refl ChIrrGUI_new eq_refl).
Defined.

(** The theorem for the maximum by the comparison [a < b], at a NaN:
    the scale stored is [10e-12], and stays so when set again. *)
Lemma setters_idempotent_witness :
  ChMax_selects OneComparison.less
  /\ @SetSymbolscale OneComparison.less S754_nan
       (@SetSymbolscale OneComparison.less S754_nan ChIrrGUI_new)
     = @SetSymbolscale OneComparison.less S754_nan ChIrrGUI_new
  /\ symbolscale (@SetSymbolscale OneComparison.less S754_nan ChIrrGUI_new)
     = Double.lit_10em12.
Proof.
  split; [exact (proj1 less_maximum)|]. split; [|reflexivity].
  apply (@setters_idempotent OneComparison.less S754_nan ChIrrGUI_new
           (proj1 less_maximum)).
Defined.

(** ** The frames saved for Blender *)

Lemma set_blender_twice (save save' : bool) (num num' : Z)
    (exporter exporter' : option (list ChBlenderCall)) (profiled profiled' : nat)
    (g : ChIrrGUI) :
  set_blender save num exporter profiled
    (set_blender save' num' exporter' profiled' g)
  = set_blender save num exporter profiled g.
Proof. reflexivity. Qed.

Lemma set_blender_same (g : ChIrrGUI) :
  set_blender (blender_save g) (blender_num g) (blender_exporter g)
              (drawProfiler g) g = g.
Proof. destruct g; reflexivity. Qed.

(** A frame ended while saving is on. *)
Lemma EndScene_saving (g : ChIrrGUI) (exporter : list ChBlenderCall)
    (first : nat) :
  blender_save g = true ->
  blender_exporter g = Some exporter ->
  0 < blender_each g ->
  blender_num g = Z.of_nat first ->
  Z.of_nat first + 1 <= INT_MAX ->
  EndScene true g
  = Some (set_blender true (Z.of_nat (S first))
            (Some (if Z.of_nat first mod blender_each g =? 0
                   then exporter ++ [ExportData] else exporter))
            (if show_profiler g then S (drawProfiler g) else drawProfiler g)
            g).
Proof.
  intros Hsave Hexp Heach Hnum Hmax. unfold EndScene.
  assert (He0 : (blender_each g =? 0) = false) by (apply Z.eqb_neq; lia).
  assert (Hle : (Z.of_nat first + 1 <=? INT_MAX) = true)
    by (apply Z.leb_le; lia).
  assert (Hrem : Z.rem (Z.of_nat first) (blender_each g)
                 = Z.of_nat first mod blender_each g)
    by (apply Z.rem_mod_nonneg; lia).
  assert (Hmin : ((Z.of_nat first =? INT_MIN) && (blender_each g =? -1))
                 = false).
  { replace (blender_each g =? -1) with false
      by (symmetry; apply Z.eqb_neq; lia).
    apply andb_false_r. }
  destruct (show_profiler g);
    cbn [blender_save blender_num blender_exporter blender_each drawProfiler
         set_blender negb];
    rewrite Hsave, Hexp, Hnum; cbn [negb];
    rewrite He0, Hle, Hrem; cbn [orb]; rewrite Hmin;
    rewrite Nat2Z.inj_succ; unfold Z.succ; reflexivity.
Qed.

Lemma EndScenes_saving (n : nat) :
  forall (g : ChIrrGUI) (exporter : list ChBlenderCall) (first : nat),
  blender_save g = true ->
  blender_exporter g = Some exporter ->
  0 < blender_each g ->
  blender_num g = Z.of_nat first ->
  Z.of_nat first + Z.of_nat n <= INT_MAX ->
  EndScenes true n g
  = Some (set_blender true (Z.of_nat (first + n))
            (Some (exporter
                   ++ repeat ExportData
                        (saved_frames (blender_each g) first n)))
            (if show_profiler g then (drawProfiler g + n)%nat
             else drawProfiler g)
            g).
Proof.
  induction n as [|n IH]; intros g exporter first Hsave Hexp Heach Hnum Hmax.
  - cbn [EndScenes saved_frames seq filter List.length repeat].
    rewrite app_nil_r, !Nat.add_0_r, <- Hsave, <- Hexp, <- Hnum.
    destruct (show_profiler g); rewrite set_blender_same; reflexivity.
  - cbn [EndScenes].
    rewrite (EndScene_saving g exporter first Hsave Hexp Heach Hnum)
      by lia.
    cbn [bind].
    rewrite (IH _ (if Z.of_nat first mod blender_each g =? 0
                   then exporter ++ [ExportData] else exporter)
                (S first));
      [ | reflexivity | reflexivity | exact Heach | reflexivity | lia ].
    rewrite set_blender_twice.
    cbn [show_profiler blender_each drawProfiler set_blender].
    unfold saved_frames; cbn [seq filter].
    replace (first + S n)%nat with (S first + n)%nat by lia.
    destruct (Z.of_nat first mod blender_each g =? 0),
             (show_profiler g); cbn [List.length repeat Nat.add];
      rewrite <- ?app_assoc, ?Nat.add_succ_r; reflexivity.
Qed.

(** X10. After [SetBlenderSave(true)] on a GUI without an exporter, [n]
    calls of [EndScene] in a build with postprocessing return, count the
    frames from zero and export the data of the frames whose number is a
    multiple of [blender_each], the exporter having been set up once
    before the first of them. Ending a frame while saving is off, or in
    a build without postprocessing, exports and counts nothing. *)
Theorem EndScene_export_schedule (g : ChIrrGUI) (n : nat) :
  blender_exporter g = None ->
  0 < blender_each g ->
  Z.of_nat n <= INT_MAX ->
  (exists g',
     EndScenes true n (SetBlenderSave true g) = Some g'
     /\ blender_num g' = Z.of_nat n
     /\ blender_exporter g'
        = Some (setup (GetCameraVertical g)
                ++ repeat ExportData (saved_frames (blender_each g) 0 n)))
  /\ (exists g',
       EndScene true (SetBlenderSave false g) = Some g'
       /\ blender_exporter g' = None
       /\ blender_num g' = blender_num g)
  /\ (forall g0, exists g',
       EndScene false g0 = Some g'
       /\ blender_exporter g' = blender_exporter g0
       /\ blender_num g' = blender_num g0).
Proof.
  intros Hexp Heach Hn. split; [|split].
  - rewrite SetBlenderSave_spec, Hexp.
    eexists. split.
    + eapply (EndScenes_saving n) with (first := 0%nat); try reflexivity.
      * exact Heach.
      * lia.
    + split; reflexivity.
  - rewrite SetBlenderSave_spec, Hexp. unfold EndScene.
    destruct (show_profiler _); cbn; eexists; repeat split; reflexivity.
  - intro g0. unfold EndScene. cbn [negb].
    destruct (show_profiler g0); eexists; repeat split; reflexivity.
Qed.

Lemma EndScene_export_schedule_witness :
  exists g',
    EndScenes true 7 (SetBlenderSave true every_third) = Some g'
    /\ blender_num g' = 7
    /\ blender_exporter g'
       = Some (setup Dir_Z ++ [ExportData; ExportData; ExportData]).
Proof.
  destruct (EndScene_export_schedule every_third 7 eq_refl)
    as [H _].
  - reflexivity.
  - vm_compute. discriminate.
  - exact H.
Defined.

(** ** The material indices of the track shoe *)

Section MaterialIndices.
Context {json : ChUtilsJSON} {surfaces : ChMaterialSurfaces}.

(** With the asserts compiled in, an entry that is read has a material
    index within the materials. *)
Lemma read_coll_shape_checked (num_mats : Z)
    (shapes r : list BoxShape * list CylinderShape) (v : Value) :
  read_coll_shape false num_mats shapes v = Some r ->
  exists i, (x <- member "Material Index" v ;; GetInt x) = Some i
            /\ 0 <= i < num_mats.
Proof.
  unfold read_coll_shape. intro H.
  destruct (x <- member "Type" v ;; GetString x) as [type|];
    [|discriminate H]. cbn [bind] in H.
  destruct (x <- member "Material Index" v ;; GetInt x) as [i|];
    [|discriminate H]. cbn [bind] in H.
  unfold assert in H. cbn [bind] in H.
  destruct ((0 <=? i) && (i <? num_mats)) eqn:E; [|discriminate H].
  apply andb_prop in E. destruct E as [E1 E2].
  exists i. split; [reflexivity|]. split; [apply Z.leb_le|apply Z.ltb_lt];
    assumption.
Qed.

Lemma box_of_matID (v : Value) (b : BoxShape) :
  box_of true v = Some b ->
  (x <- member "Material Index" v ;; GetInt x) = box_matID b.
Proof.
  unfold box_of. intro H. bind_inv H. injection H as <-. reflexivity.
Qed.

Lemma cylinder_of_matID (v : Value) (c : CylinderShape) :
  cylinder_of true v = Some c ->
  (x <- member "Material Index" v ;; GetInt x) = cyl_matID c.
Proof.
  unfold cylinder_of. intro H. bind_inv H. injection H as <-. reflexivity.
Qed.

Lemma read_coll_shapes_checked (num_mats : Z) (l : list Value) :
  forall bx cy r,
  fold_opt (read_coll_shape false num_mats) l (bx, cy) = Some r ->
  forall (P : option Z -> Prop),
  (forall i, 0 <= i < num_mats -> P (Some i)) ->
  Forall (fun b => P (box_matID b)) bx ->
  Forall (fun c => P (cyl_matID c)) cy ->
  Forall (fun b => P (box_matID b)) (fst r)
  /\ Forall (fun c => P (cyl_matID c)) (snd r).
Proof.
  induction l as [|v l IH]; intros bx cy r H P HP Hbx Hcy; simpl in H.
  - injection H as <-. split; assumption.
  - destruct (read_coll_shape false num_mats (bx, cy) v) as [r1|] eqn:E1;
      [|discriminate H]. cbn [bind] in H.
    destruct (read_coll_shape_checked _ _ _ _ E1) as (i & Hi & Hrange).
    destruct (read_coll_shape_spec false _ _ _ _ _ E1)
      as [(_ & _ & b & Hbox & ->)|[(_ & _ & c & Hcyl & ->)|(_ & _ & ->)]].
    + apply (IH _ _ _ H P HP); [|exact Hcy].
      apply Forall_app. split; [exact Hbx|]. constructor; [|constructor].
      rewrite <- (box_of_matID _ _ Hbox), Hi. apply HP. exact Hrange.
    + apply (IH _ _ _ H P HP); [exact Hbx|].
      apply Forall_app. split; [exact Hcy|]. constructor; [|constructor].
      rewrite <- (cylinder_of_matID _ _ Hcyl), Hi. apply HP. exact Hrange.
    + apply (IH _ _ _ H P HP); assumption.
Qed.

Lemma Forall2_length_eq {A B : Type} (R : A -> B -> Prop) (l : list A)
    (l' : list B) :
  Forall2 R l l' -> List.length l = List.length l'.
Proof. induction 1; simpl; congruence. Qed.

Lemma Forall2_nth_error {A B : Type} (R : A -> B -> Prop) (l : list A)
    (l' : list B) :
  Forall2 R l l' ->
  forall n, (n < List.length l)%nat ->
  exists a b, nth_error l n = Some a /\ nth_error l' n = Some b /\ R a b.
Proof.
  induction 1 as [|a b l l' Hab HF IH]; intros n Hn; simpl in Hn; [lia|].
  destruct n as [|n].
  - exists a, b. repeat split. exact Hab.
  - apply IH. lia.
Qed.

Lemma push_back_materials (method : ChContactMethod) (infos : list MaterialInfo)
    (acc : list ChMaterialSurface) :
  fold_left (fun materials minfo => materials ++ [CreateMaterial minfo method])
            infos acc
  = acc ++ map (fun minfo => CreateMaterial minfo method) infos.
Proof.
  revert acc. induction infos as [|i infos IH]; intro acc; simpl.
  - rewrite app_nil_r. reflexivity.
  - rewrite IH, <- app_assoc. reflexivity.
Qed.

(** X11. In a build with the asserts compiled in, a [Create] that
    returns on a track shoe whose lists are empty leaves collision boxes
    and cylinders whose material index is an index into the material
    information read from the same document. *)
Theorem Create_material_indices (d : Value) (this this' : TrackShoeDoublePin) :
  Create false d this = Some this' ->
  m_shoe_mat_info this = [] ->
  m_coll_boxes this = [] -> m_coll_cylinders this = [] ->
  Forall (fun b => indexes (m_shoe_mat_info this') (box_matID b))
         (m_coll_boxes this')
  /\ Forall (fun c => indexes (m_shoe_mat_info this') (cyl_matID c))
            (m_coll_cylinders this').
Proof.
  intros H Hinfo Hbx Hcy.
  destruct (Create_inv false d this this' H)
    as (base & sl & sw & sh & sm & si & cr & cl & cw & cm & ci & cyl_info
        & materials & infos & shapes & coll & meshFile & has_mesh & vis
        & _ & _ & _ & _ & Hmats & _ & Hcoll & _ & ->).
  cbn [m_shoe_mat_info m_coll_boxes m_coll_cylinders].
  rewrite Hinfo in Hmats. rewrite Hbx, Hcy in Hcoll.
  destruct (read_materials_spec materials [] infos Hmats) as (infos' & HF & ->).
  apply (read_coll_shapes_checked _ _ _ _ _ Hcoll
           (indexes ([] ++ infos'))); try constructor.
  intros i Hi. exists i. split; [reflexivity|].
  cbn [app]. rewrite <- (Forall2_length_eq _ _ _ HF). exact Hi.
Qed.

(** X12. [Create] on a track shoe whose lists are empty, in a build with
    the asserts compiled in, followed by [CreateContactMaterials] on a
    shoe without materials: the connector material is created from the
    connector information, one shoe material is created per material of
    the document, in order, and the material index of every collision box
    and cylinder selects the material created from the entry of that
    index among the ["Shoe Materials"] of the document. *)
Theorem CreateContactMaterials_after_Create (d : Value)
    (this this' : TrackShoeDoublePin) (mats : ShoeMaterials)
    (method : ChContactMethod) :
  Create false d this = Some this' ->
  m_shoe_mat_info this = [] ->
  m_coll_boxes this = [] -> m_coll_cylinders this = [] ->
  m_shoe_materials mats = [] ->
  let mats' := CreateContactMaterials method this' mats in
  exists doc_materials,
    contact_array "Shoe Materials" d = Some doc_materials
    /\ m_conn_material mats'
       = Some (CreateMaterial (m_cyl_mat_info this') method)
    /\ List.length (m_shoe_materials mats') = List.length doc_materials
    /\ Forall (fun b => material_of method doc_materials
                          (m_shoe_materials mats') (box_matID b))
              (m_coll_boxes this')
    /\ Forall (fun c => material_of method doc_materials
                          (m_shoe_materials mats') (cyl_matID c))
              (m_coll_cylinders this').
Proof.
  intros H Hinfo Hbx Hcy Hmat mats'.
  destruct (Create_inv false d this this' H)
    as (base & sl & sw & sh & sm & si & cr & cl & cw & cm & ci & cyl_info
        & materials & infos & shapes & coll & meshFile & has_mesh & vis
        & _ & _ & _ & Hdoc & Hmats & _ & Hcoll & _ & ->).
  rewrite Hinfo in Hmats. rewrite Hbx, Hcy in Hcoll.
  destruct (read_materials_spec materials [] infos Hmats) as (infos' & HF & ->).
  cbn [app] in *.
  assert (Hms : m_shoe_materials mats'
                = map (fun minfo => CreateMaterial minfo method) infos').
  { unfold mats', CreateContactMaterials.
    cbn [m_shoe_materials m_shoe_mat_info].
    rewrite push_back_materials, Hmat. reflexivity. }
  exists materials. split; [exact Hdoc|]. split; [reflexivity|].
  split; [rewrite Hms, length_map; symmetry;
          apply (Forall2_length_eq _ _ _ HF)|].
  cbn [m_coll_boxes m_coll_cylinders].
  apply (read_coll_shapes_checked _ _ _ _ _ Hcoll
           (material_of method materials (m_shoe_materials mats')));
    try constructor.
  intros i Hi.
  destruct (Forall2_nth_error _ _ _ HF (Z.to_nat i)) as (v & info & Hv & Hinf & Hr);
    [lia|].
  exists i, v, info. split; [reflexivity|]. split; [lia|].
  split; [exact Hv|]. split; [exact Hr|].
  rewrite Hms, nth_error_map, Hinf. reflexivity.
Qed.

End MaterialIndices.

Lemma Create_material_indices_witness :
  exists this',
    @Create ExampleJSON.json false ExampleJSON.doc_plain ExampleJSON.fresh
    = Some this'
    /\ Forall (fun b => indexes (m_shoe_mat_info this') (box_matID b))
              (m_coll_boxes this')
    /\ Forall (fun c => indexes (m_shoe_mat_info this') (cyl_matID c))
              (m_coll_cylinders this').
Proof.
  eexists. split; [reflexivity|].
  apply (@Create_material_indices ExampleJSON.json ExampleJSON.doc_plain
           ExampleJSON.fresh); reflexivity.
Defined.

Lemma CreateContactMaterials_after_Create_witness :
  exists this' doc_materials,
    @Create ExampleJSON.json false ExampleJSON.doc_plain ExampleJSON.fresh
    = Some this'
    /\ @contact_array "Shoe Materials" ExampleJSON.doc_plain
       = Some doc_materials
    /\ Forall (fun b =>
                 @material_of ExampleJSON.json ExampleMaterials.surfaces
                   "NSC"%string doc_materials
                   (m_shoe_materials
                      (@CreateContactMaterials ExampleJSON.json
                         ExampleMaterials.surfaces "NSC"%string this'
                         ExampleMaterials.none))
                   (box_matID b))
              (m_coll_boxes this').
Proof.
  eexists.
  destruct (@CreateContactMaterials_after_Create ExampleJSON.json
              ExampleMaterials.surfaces ExampleJSON.doc_plain ExampleJSON.fresh
              _ ExampleMaterials.none "NSC"%string eq_refl eq_refl eq_refl
              eq_refl eq_refl)
    as (doc_materials & Hdoc & _ & _ & Hb & _).
  exists doc_materials. split; [reflexivity|]. split; [exact Hdoc|exact Hb].
Defined.

(** ** Further properties of the tire mesh *)

Lemma In_incidence (tri : Z * Z * Z) (ie v x : nat) :
  In x (incidence tri ie v) <-> x = ie /\ adjacent v tri = true.
Proof.
  destruct tri as [[a b] c]. unfold incidence, adjacent.
  destruct (a =? Z.of_nat v), (b =? Z.of_nat v), (c =? Z.of_nat v); simpl;
    intuition congruence.
Qed.

Lemma In_incidences (tire : RigidTire) (v ie : nat) :
  In ie (incidences tire v)
  <-> (ie < GetNumTriangles tire)%nat /\ adjacent v (triangle tire ie) = true.
Proof.
  unfold incidences, incidences_upto. rewrite in_flat_map. split.
  - intros (k & Hk & Hin). apply In_incidence in Hin. destruct Hin as [-> Ha].
    apply in_seq in Hk. split; [lia|exact Ha].
  - intros [Hlt Ha]. exists ie. split; [apply in_seq; lia|].
    apply In_incidence. split; [reflexivity|exact Ha].
Qed.

Lemma list_sum_map_add {A : Type} (f g : A -> nat) (l : list A) :
  list_sum (map (fun x => (f x + g x)%nat) l)
  = (list_sum (map f l) + list_sum (map g l))%nat.
Proof. induction l as [|x l IH]; simpl; [reflexivity|]. rewrite IH. lia. Qed.

(** An index is the number of exactly one vertex when it is in range. *)
Lemma count_corner (a : Z) (nv : nat) :
  list_sum (map (fun v => if a =? Z.of_nat v then 1%nat else 0%nat) (seq 0 nv))
  = if (0 <=? a) && (a <? Z.of_nat nv) then 1%nat else 0%nat.
Proof.
  induction nv as [|nv IH].
  - simpl. destruct (0 <=? a) eqn:E; [|reflexivity]. simpl.
    apply Z.leb_le in E. destruct (Z.ltb_spec a 0); [lia|reflexivity].
  - rewrite seq_S, map_app, list_sum_app, IH. cbn [map list_sum Nat.add].
    rewrite Nat2Z.inj_succ.
    destruct (Z.leb_spec 0 a), (Z.ltb_spec a (Z.of_nat nv)),
             (Z.ltb_spec a (Z.succ (Z.of_nat nv))),
             (Z.eqb_spec a (Z.of_nat nv));
      cbn [andb]; try lia; reflexivity.
Qed.

Lemma incidence_length (tri : Z * Z * Z) (ie v : nat) :
  List.length (incidence tri ie v)
  = ((if (fst (fst tri) =? Z.of_nat v)%Z then 1 else 0)
     + ((if (snd (fst tri) =? Z.of_nat v)%Z then 1 else 0)
        + (if (snd tri =? Z.of_nat v)%Z then 1 else 0)))%nat.
Proof.
  destruct tri as [[a b] c]. unfold incidence. simpl.
  destruct (a =? Z.of_nat v), (b =? Z.of_nat v), (c =? Z.of_nat v); reflexivity.
Qed.

(** Every triangle with corners in the mesh adds three entries. *)
Lemma incidence_total (tire : RigidTire) (tri : Z * Z * Z) (ie : nat) :
  corners_in_range tire tri ->
  list_sum (map (fun v => List.length (incidence tri ie v))
                (seq 0 (GetNumVertices tire))) = 3%nat.
Proof.
  intro H.
  rewrite (map_ext _ _ (incidence_length tri ie)).
  rewrite (list_sum_map_add
             (fun v => if fst (fst tri) =? Z.of_nat v then 1%nat else 0%nat)),
          (list_sum_map_add
             (fun v => if snd (fst tri) =? Z.of_nat v then 1%nat else 0%nat)),
          !count_corner.
  destruct tri as [[a b] c]. simpl in *. destruct H as (Ha & Hb & Hc).
  destruct (Z.leb_spec 0 a), (Z.ltb_spec a (Z.of_nat (GetNumVertices tire))),
           (Z.leb_spec 0 b), (Z.ltb_spec b (Z.of_nat (GetNumVertices tire))),
           (Z.leb_spec 0 c), (Z.ltb_spec c (Z.of_nat (GetNumVertices tire)));
    simpl; lia.
Qed.

Lemma incidences_total (tire : RigidTire) (k : nat) :
  mesh_well_formed tire -> (k <= GetNumTriangles tire)%nat ->
  total_entries (map (incidences_upto tire k) (seq 0 (GetNumVertices tire)))
  = (3 * k)%nat.
Proof.
  intros Hwf. unfold total_entries. rewrite map_map.
  induction k as [|k IH]; intro Hk.
  - unfold incidences_upto. simpl.
    induction (seq 0 (GetNumVertices tire)); simpl; [reflexivity|assumption].
  - rewrite (map_ext _ (fun v => (List.length (incidences_upto tire k v)
                                  + List.length (incidence (triangle tire k) k v))%nat)).
    + rewrite (list_sum_map_add
                 (fun v => List.length (incidences_upto tire k v))).
      rewrite IH by lia. rewrite incidence_total; [lia|].
      destruct Hwf as (_ & _ & Hin). apply Hin. lia.
    + intro v. rewrite incidences_upto_S, length_app. reflexivity.
Qed.

Lemma at_int_out_of_range {A : Type} (l : list A) (i : Z) :
  out_of_range l i -> at_int l i = None.
Proof.
  unfold out_of_range, at_int. intro H.
  destruct (Z.ltb_spec i 0); [reflexivity|].
  apply nth_error_None. lia.
Qed.

Section TireMeshTheorems.
Context {math : ChMath}.

(** X13. On a mesh whose triangles refer to vertices of the mesh, the
    lists [m_adjElements] hold three entries per triangle in all, and the
    list of a vertex holds exactly the triangles that have the vertex as a
    corner. *)
Theorem InitializeTire_adjacency (tire : RigidTire) :
  mesh_well_formed tire ->
  exists node,
    InitializeTire tire = Some node
    /\ List.length (m_adjElements node) = GetNumVertices tire
    /\ total_entries (m_adjElements node) = (3 * GetNumTriangles tire)%nat
    /\ forall v elems,
         nth_error (m_adjElements node) v = Some elems ->
         forall ie, In ie elems
                    <-> (ie < GetNumTriangles tire)%nat
                        /\ adjacent v (triangle tire ie) = true.
Proof.
  intro Hwf. eexists. split; [apply InitializeTire_spec; exact Hwf|].
  cbn [m_adjElements]. split; [rewrite length_map, length_seq; reflexivity|].
  split.
  - apply (incidences_total tire (GetNumTriangles tire) Hwf). lia.
  - intros v elems Hv ie.
    assert (Hlt : (v < GetNumVertices tire)%nat).
    { assert (H : nth_error (map (incidences tire)
                                  (seq 0 (GetNumVertices tire))) v <> None)
        by (rewrite Hv; discriminate).
      apply nth_error_Some in H.
      rewrite length_map, length_seq in H. exact H. }
    rewrite (nth_error_map_seq (incidences tire)) in Hv by exact Hlt.
    injection Hv as <-. apply In_incidences.
Qed.

(** X14. A vertex of a well-formed mesh that no triangle refers to gets
    an empty list of adjacent elements, and its area, zero divided by
    zero, is a NaN. *)
Theorem InitializeTire_unreferenced_nan (tire : RigidTire) (v : nat) :
  mesh_well_formed tire ->
  (v < GetNumVertices tire)%nat -> referenced tire v = false ->
  exists node area,
    InitializeTire tire = Some node
    /\ nth_error (m_adjElements node) v = Some []
    /\ nth_error (m_vertexArea node) v = Some area
    /\ Double.is_nan area = true.
Proof.
  intros Hwf Hv Hr. eexists. eexists.
  split; [apply InitializeTire_spec; exact Hwf|].
  cbn [m_adjElements m_vertexArea].
  rewrite (nth_error_map_seq (incidences tire)) by exact Hv.
  rewrite (nth_error_map_seq (fun v => mean_area tire (incidences tire v)))
    by exact Hv.
  rewrite (unreferenced_incidences tire v Hr).
  repeat split.
Qed.

(** X15. A triangle with a corner that is no index into the array of
    vertices makes the preprocessing read outside the array: the call is
    undefined, whatever the other triangles are. *)
Theorem InitializeTire_corner_out_of_range (tire : RigidTire) (ie : nat)
    (iv1 iv2 iv3 : Z) :
  (ie < GetNumTriangles tire)%nat ->
  nth_error (GetMeshConnectivity tire) ie = Some (iv1, iv2, iv3) ->
  out_of_range (GetMeshVertices tire) iv1
  \/ out_of_range (GetMeshVertices tire) iv2
  \/ out_of_range (GetMeshVertices tire) iv3 ->
  InitializeTire tire = None.
Proof.
  intros Hie Htri Hout. unfold InitializeTire.
  rewrite (fold_opt_fails _ (seq 0 (GetNumTriangles tire)) ie);
    [reflexivity|apply in_seq; lia|].
  intro st. unfold triangle_step. rewrite Htri. cbn [bind].
  destruct Hout as [H|[H|H]].
  - rewrite (at_int_out_of_range _ _ H). reflexivity.
  - destruct (at_int (GetMeshVertices tire) iv1); [|reflexivity]. cbn [bind].
    rewrite (at_int_out_of_range _ _ H). reflexivity.
  - destruct (at_int (GetMeshVertices tire) iv1); [|reflexivity]. cbn [bind].
    destruct (at_int (GetMeshVertices tire) iv2); [|reflexivity]. cbn [bind].
    rewrite (at_int_out_of_range _ _ H). reflexivity.
Qed.

End TireMeshTheorems.

Lemma loose_vertex_well_formed : mesh_well_formed ExampleMesh.loose_vertex.
Proof.
  split; [simpl; lia|]. split; [simpl; lia|].
  intros ie H. simpl in H. destruct ie as [|ie]; [simpl; lia|lia].
Qed.

Lemma InitializeTire_adjacency_witness :
  exists node,
    @InitializeTire Textbook.math ExampleMesh.two_triangles = Some node
    /\ total_entries (m_adjElements node) = 6%nat
    /\ nth_error (m_adjElements node) 3 = Some [1%nat].
Proof.
  destruct (@InitializeTire_adjacency Textbook.math ExampleMesh.two_triangles
              two_triangles_well_formed) as (node & Hn & _ & Ht & _).
  exists node. split; [exact Hn|]. split; [exact Ht|].
  vm_compute in Hn. injection Hn as <-. reflexivity.
Defined.

Lemma InitializeTire_unreferenced_nan_witness :
  exists node area,
    @InitializeTire Textbook.math ExampleMesh.loose_vertex = Some node
    /\ nth_error (m_adjElements node) 3 = Some []
    /\ nth_error (m_vertexArea node) 3 = Some area
    /\ Double.is_nan area = true.
Proof.
  apply (@InitializeTire_unreferenced_nan Textbook.math
           ExampleMesh.loose_vertex 3 loose_vertex_well_formed).
  - simpl. lia.
  - reflexivity.
Defined.

Lemma InitializeTire_corner_out_of_range_witness :
  @InitializeTire Textbook.math ExampleDangling.dangling = None.
Proof.
  apply (@InitializeTire_corner_out_of_range Textbook.math
           ExampleDangling.dangling 0 0 1 3).
  - simpl. lia.
  - reflexivity.
  - right. right. right. simpl. lia.
Defined.

(** ** The visualization assets of the track shoe *)

Section VisualizationAssets.
Context {json : ChUtilsJSON}.

Lemma read_visualization_mesh (NDEBUG : bool) (d : Value) (meshFile : string)
    (has_mesh : bool) (cb : list BoxShape) (cc : list CylinderShape)
    (vis vis' : list BoxShape * list CylinderShape) (meshFile' : string)
    (has_mesh' : bool) :
  read_visualization NDEBUG d meshFile has_mesh cb cc vis
  = Some (meshFile', has_mesh', vis') ->
  match mesh_entry d with
  | Some x => GetString x = Some meshFile' /\ has_mesh' = true
  | None => meshFile' = meshFile /\ has_mesh' = has_mesh
  end.
Proof.
  unfold read_visualization, mesh_entry. intro H.
  destruct d as [| | | | | |ms]; try discriminate H.
  cbn [HasMember member bind] in *.
  destruct (FindMember ms "Visualization") as [v|]; cbn [bind] in *.
  - destruct v as [| | | | | |vs]; try discriminate H.
    cbn [HasMember member bind] in *.
    destruct (FindMember vs "Mesh") as [x|]; cbn [bind] in *.
    + destruct (GetString x) as [f|]; [|discriminate H]. cbn [bind fst snd] in H.
      bind_inv H. injection H as <- <- _. split; reflexivity.
    + bind_inv H. injection H as <- <- _. split; reflexivity.
  - injection H as <- <- _. split; reflexivity.
Qed.

(** X16. After a [Create] that returns on a track shoe without a mesh,
    [AddVisualizationAssets] adds a triangle mesh only when it is called
    with [MESH] and the document has a ["Mesh"] under ["Visualization"];
    the mesh is then loaded from the file the document names and carries
    the name [m_meshName], which [Create] has not set. In every other
    case the call is passed on to the base class. *)
Theorem AddVisualizationAssets_after_Create (NDEBUG : bool) (d : Value)
    (this this' : TrackShoeDoublePin) (m_meshName : string) :
  Create NDEBUG d this = Some this' ->
  m_has_mesh this = false ->
  (forall vis, vis <> VIS_MESH ->
     AddVisualizationAssets m_meshName vis this'
     = ChTrackShoeDoublePin_AddVisualizationAssets vis)
  /\ (mesh_entry d = None ->
      AddVisualizationAssets m_meshName VIS_MESH this'
      = ChTrackShoeDoublePin_AddVisualizationAssets VIS_MESH)
  /\ (forall x, mesh_entry d = Some x ->
      exists file,
        x = JString file
        /\ AddVisualizationAssets m_meshName VIS_MESH this'
           = TriangleMeshShape file m_meshName).
Proof.
  intros H Hmesh.
  destruct (Create_inv NDEBUG d this this' H)
    as (base & sl & sw & sh & sm & si & cr & cl & cw & cm & ci & cyl_info
        & materials & infos & shapes & coll & meshFile & has_mesh & vis
        & _ & _ & _ & _ & _ & _ & _ & Hvis & ->).
  apply read_visualization_mesh in Hvis. rewrite Hmesh in Hvis.
  unfold AddVisualizationAssets. cbn [m_has_mesh m_meshFile].
  split; [|split].
  - intros v Hv. destruct v; try reflexivity. contradiction Hv. reflexivity.
  - intro Hn. rewrite Hn in Hvis. destruct Hvis as [_ ->]. reflexivity.
  - intros x Hx. rewrite Hx in Hvis. destruct Hvis as [Hs ->].
    destruct x; try discriminate Hs. injection Hs as ->.
    eexists. split; reflexivity.
Qed.

End VisualizationAssets.

Lemma AddVisualizationAssets_after_Create_witness :
  exists this',
    @Create ExampleJSON.json false ExampleJSON.doc_visual ExampleJSON.fresh
    = Some this'
    /\ @AddVisualizationAssets ExampleJSON.json "shoe" VIS_MESH this'
       = TriangleMeshShape "shoe.obj" "shoe"
    /\ @AddVisualizationAssets ExampleJSON.json "shoe" VIS_PRIMITIVES this'
       = ChTrackShoeDoublePin_AddVisualizationAssets VIS_PRIMITIVES.
Proof.
  eexists. split; [reflexivity|].
  destruct (@AddVisualizationAssets_after_Create ExampleJSON.json false
              ExampleJSON.doc_visual ExampleJSON.fresh _ "shoe" eq_refl eq_refl)
    as (Hother & _ & Hmesh).
  split.
  - destruct (Hmesh (JString "shoe.obj") eq_refl) as (file & Hf & Hm).
    injection Hf as <-. exact Hm.
  - apply Hother. discriminate.
Defined.

(** ** The asserts of [Create] *)

Section Asserts.
Context {json : ChUtilsJSON}.

Lemma assert_NDEBUG (c : option bool) :
  assert false c = Some tt -> assert true c = Some tt.
Proof. reflexivity. Qed.

Lemma read_coll_shape_NDEBUG (num_mats : Z)
    (shapes r : list BoxShape * list CylinderShape) (v : Value) :
  read_coll_shape false num_mats shapes v = Some r ->
  read_coll_shape true num_mats shapes v = Some r.
Proof.
  unfold read_coll_shape. intro H.
  destruct (x <- member "Type" v ;; GetString x) as [type|];
    [|discriminate H]. cbn [bind] in *.
  destruct (x <- member "Material Index" v ;; GetInt x) as [i|];
    [|discriminate H]. cbn [bind] in *.
  destruct (assert false (Some ((0 <=? i) && (i <? num_mats))));
    [|discriminate H]. exact H.
Qed.

Lemma read_coll_shapes_NDEBUG (num_mats : Z) (l : list Value) :
  forall shapes r,
  fold_opt (read_coll_shape false num_mats) l shapes = Some r ->
  fold_opt (read_coll_shape true num_mats) l shapes = Some r.
Proof.
  induction l as [|v l IH]; intros shapes r H; simpl in *; [exact H|].
  destruct (read_coll_shape false num_mats shapes v) as [r1|] eqn:E;
    [|discriminate H].
  rewrite (read_coll_shape_NDEBUG _ _ _ _ E). cbn [bind] in *.
  apply IH. exact H.
Qed.

Lemma read_visualization_NDEBUG (d : Value) (meshFile : string)
    (has_mesh : bool) (cb : list BoxShape) (cc : list CylinderShape)
    (vis : list BoxShape * list CylinderShape)
    (r : string * bool * (list BoxShape * list CylinderShape)) :
  read_visualization false d meshFile has_mesh cb cc vis = Some r ->
  read_visualization true d meshFile has_mesh cb cc vis = Some r.
Proof.
  unfold read_visualization. intro H.
  destruct (HasMember "Visualization" d) as [[|]|]; cbn [bind] in *;
    try exact H.
  destruct (member "Visualization" d) as [v|]; [|discriminate H].
  cbn [bind] in *.
  destruct (HasMember "Mesh" v) as [hm|]; [|discriminate H]. cbn [bind] in *.
  match type of H with
  | bind ?x _ = Some _ => destruct x as [mesh|]; [|discriminate H]
  end. cbn [bind] in *.
  destruct (HasMember "Primitives" v) as [[|]|]; cbn [bind] in *;
    try exact H.
  destruct (member "Primitives" v) as [p|]; [|discriminate H].
  cbn [bind] in *.
  destruct (assert false (IsArray p)); [|discriminate H]. exact H.
Qed.

(** X17. The asserts only remove behaviour: a document that [Create]
    reads with the asserts compiled in is read to the same track shoe in
    a build with [NDEBUG]. *)
Theorem Create_NDEBUG (d : Value) (this this' : TrackShoeDoublePin) :
  Create false d this = Some this' -> Create true d this = Some this'.
Proof.
  unfold Create. intro H. unfold assert. cbn [bind].
  repeat match type of H with
         | bind (fold_opt (read_coll_shape false ?n) ?l ?s) _ = Some _ =>
             let E := fresh "E" in
             destruct (fold_opt (read_coll_shape false n) l s) eqn:E;
             [|discriminate H];
             rewrite (read_coll_shapes_NDEBUG _ _ _ _ E); cbn [bind] in *
         | bind (read_visualization false ?d ?f ?m ?b ?c ?v) _ = Some _ =>
             let E := fresh "E" in
             destruct (read_visualization false d f m b c v) eqn:E;
             [|discriminate H];
             rewrite (read_visualization_NDEBUG _ _ _ _ _ _ _ E);
             cbn [bind] in *
         | bind (assert false ?c) _ = Some _ =>
             destruct (assert false c); [|discriminate H]; cbn [bind] in H
         | bind ?x _ = Some _ =>
             destruct x; [|discriminate H]; cbn [bind] in *
         | context [match ?p with pair _ _ => _ end] =>
             is_var p; destruct p
         end.
  exact H.
Qed.

(** X18. With the asserts compiled in, [Create] does not return on a
    document in which some entry of ["Shoe Shapes"], whatever its type,
    has a material index that is negative or not below the number of
    ["Shoe Materials"]. *)
Theorem Create_bad_material_index (d : Value) (this : TrackShoeDoublePin)
    (materials shapes : list Value) (v : Value) (i : Z) :
  contact_array "Shoe Materials" d = Some materials ->
  contact_array "Shoe Shapes" d = Some shapes ->
  In v shapes ->
  (x <- member "Material Index" v ;; GetInt x) = Some i ->
  i < 0 \/ Z.of_nat (List.length materials) <= i ->
  Create false d this = None.
Proof.
  intros Hm Hs Hin Hi Hout. unfold Create, contact_array in *.
  destruct (member "Contact" d) as [contact|] eqn:Ec; [|discriminate Hm].
  cbn [bind] in *. rewrite Hm, Hs. cbn [bind].
  rewrite (fold_opt_fails
             (read_coll_shape false (Z.of_nat (List.length materials)))
             shapes v Hin).
  - cbn [bind].
    repeat match goal with
           | |- bind ?x _ = None => destruct x; cbn [bind]; [|reflexivity]
           | |- context [match ?p with pair _ _ => _ end] =>
               is_var p; destruct p
           end.
    reflexivity.
  - intro st. unfold read_coll_shape.
    destruct (x <- member "Type" v ;; GetString x); [|reflexivity].
    cbn [bind]. rewrite Hi. cbn [bind]. unfold assert. cbn [bind].
    replace ((0 <=? i) && (i <? Z.of_nat (List.length materials))) with false;
      [reflexivity|].
    symmetry. apply andb_false_iff.
    destruct Hout; [left; apply Z.leb_gt|right; apply Z.ltb_ge]; assumption.
Qed.

End Asserts.

Lemma Create_NDEBUG_witness :
  exists this',
    @Create ExampleJSON.json false ExampleJSON.doc_visual ExampleJSON.fresh
    = Some this'
    /\ @Create ExampleJSON.json true ExampleJSON.doc_visual ExampleJSON.fresh
       = Some this'.
Proof.
  eexists. split; [reflexivity|].
  apply (@Create_NDEBUG ExampleJSON.json ExampleJSON.doc_visual
           ExampleJSON.fresh). reflexivity.
Defined.

(** The document with the index 7 and one material: undefined with the
    asserts, read with the index stored as it is without them. *)
Lemma Create_bad_material_index_witness :
  @Create ExampleJSON.json false ExampleBadIndex.doc ExampleJSON.fresh = None
  /\ exists this',
       @Create ExampleJSON.json true ExampleBadIndex.doc ExampleJSON.fresh
       = Some this'
       /\ map box_matID (m_coll_boxes this') = [Some 7]
       /\ List.length (m_shoe_mat_info this') = 1%nat.
Proof.
  split.
  - apply (@Create_bad_material_index ExampleJSON.json ExampleBadIndex.doc
             ExampleJSON.fresh [ExampleJSON.material]
             [ExampleBadIndex.box_entry] ExampleBadIndex.box_entry 7).
    + reflexivity.
    + reflexivity.
    + left. reflexivity.
    + reflexivity.
    + right. simpl. lia.
  - eexists. split; [reflexivity|]. split; reflexivity.
Defined.

(** ** Saving switched off and on again *)

Lemma EndScenes_paused (postprocess : bool) (n : nat) :
  forall g : ChIrrGUI,
  blender_save g = false ->
  EndScenes postprocess n g
  = Some (set_blender false (blender_num g) (blender_exporter g)
            (if show_profiler g then (drawProfiler g + n)%nat
             else drawProfiler g)
            g).
Proof.
  induction n as [|n IH]; intros g Hs.
  - cbn [EndScenes]. rewrite Nat.add_0_r, <- Hs.
    destruct (show_profiler g); rewrite set_blender_same; reflexivity.
  - cbn [EndScenes]. unfold EndScene.
    destruct (show_profiler g) eqn:Hp, postprocess;
      cbn [negb blender_save set_blender]; rewrite ?Hs; cbn [negb bind];
      rewrite IH by (try exact Hs; reflexivity);
      cbn [show_profiler blender_num blender_exporter drawProfiler
           set_blender];
      rewrite ?Hp, ?set_blender_twice; try reflexivity;
      do 2 f_equal; lia.
Qed.

Lemma saved_frames_add (each : Z) (first n m : nat) :
  saved_frames each first (n + m)
  = (saved_frames each first n + saved_frames each (first + n) m)%nat.
Proof.
  unfold saved_frames. rewrite seq_app, filter_app, length_app.
  reflexivity.
Qed.

(** X19. Frames ended while saving is switched off are neither exported
    nor counted, and switching saving on again keeps the exporter and the
    frame counter: after [n1] frames with saving on, [n2] frames with
    saving off and [n3] frames with saving on again, the exporter was set
    up once, [blender_num] is [n1 + n3], and the frames exported are the
    multiples of [blender_each] below [n1 + n3]. *)
Theorem EndScene_pause_resume (g : ChIrrGUI) (n1 n2 n3 : nat) :
  blender_exporter g = None ->
  0 < blender_each g ->
  Z.of_nat (n1 + n3) <= INT_MAX ->
  exists g1 g2 g3,
    EndScenes true n1 (SetBlenderSave true g) = Some g1
    /\ EndScenes true n2 (SetBlenderSave false g1) = Some g2
    /\ EndScenes true n3 (SetBlenderSave true g2) = Some g3
    /\ blender_num g3 = Z.of_nat (n1 + n3)
    /\ blender_exporter g3
       = Some (setup (GetCameraVertical g)
               ++ repeat ExportData (saved_frames (blender_each g) 0 (n1 + n3))).
Proof.
  intros Hexp Heach Hn.
  rewrite SetBlenderSave_spec, Hexp.
  eexists. eexists. eexists.
  split.
  { eapply (EndScenes_saving n1) with (first := 0%nat); try reflexivity.
    - exact Heach.
    - lia. }
  split.
  { rewrite SetBlenderSave_spec. apply EndScenes_paused. reflexivity. }
  split.
  { rewrite SetBlenderSave_spec.
    cbn [blender_exporter blender_num set_blender].
    eapply (EndScenes_saving n3) with (first := n1); try reflexivity.
    - exact Heach.
    - lia. }
  cbn [blender_num blender_exporter blender_each GetCameraVertical
       show_profiler set_blender Nat.add].
  split; [reflexivity|].
  rewrite saved_frames_add, repeat_app, <- !app_assoc.
  reflexivity.
Qed.

Lemma EndScene_pause_resume_witness :
  exists g1 g2 g3,
    EndScenes true 4 (SetBlenderSave true every_third) = Some g1
    /\ EndScenes true 5 (SetBlenderSave false g1) = Some g2
    /\ EndScenes true 3 (SetBlenderSave true g2) = Some g3
    /\ blender_num g3 = 7
    /\ blender_exporter g3
       = Some (setup Dir_Z ++ [ExportData; ExportData; ExportData]).
Proof.
  apply (EndScene_pause_resume every_third 4 5 3).
  - reflexivity.
  - reflexivity.
  - vm_compute. discriminate.
Defined.

(** ** The poses shown after a number of time steps *)

Lemma shown_step_S (wait_max : Z) (k : nat) :
  0 <= wait_max ->
  shown_step wait_max (S k)
  = if multiple_of wait_max (Z.of_nat k + 1) then S k
    else shown_step wait_max k.
Proof.
  intro HM. unfold shown_step, multiple_of. rewrite Nat2Z.inj_succ.
  unfold Z.succ.
  destruct (Z.eqb_spec wait_max 0) as [->|Hne].
  - destruct (Z.eqb_spec (Z.of_nat k + 1) 0); [lia|reflexivity].
  - pose proof (Z.div_mod (Z.of_nat k + 1) wait_max Hne) as Hdm.
    pose proof (Z.mod_pos_bound (Z.of_nat k + 1) wait_max ltac:(lia)) as Hb.
    destruct (Z.eqb_spec ((Z.of_nat k + 1) mod wait_max) 0) as [H0|H0].
    + rewrite H0, Z.add_0_r in Hdm. rewrite <- Hdm. lia.
    + f_equal. f_equal.
      apply (Z.div_unique _ _ _ ((Z.of_nat k + 1) mod wait_max - 1)); lia.
Qed.

Section PosesShown.
Context {math : ChMath} {ext : Externals}.

Lemma steps_S (n : nat) (dt : double) (sys : ChSystem) :
  steps (S n) dt sys = DoStepDynamics dt (steps n dt sys).
Proof.
  revert sys. induction n as [|n IH]; intro sys; [reflexivity|].
  change (steps (S (S n)) dt sys) with (steps (S n) dt (DoStepDynamics dt sys)).
  rewrite IH. reflexivity.
Qed.

Lemma steps_skeleton (n : nat) (dt : double) (sys : ChSystem) :
  (forall dt s, skeleton (DoStepDynamics dt s) = skeleton s) ->
  skeleton (steps n dt sys) = skeleton sys.
Proof.
  intro Hstep. induction n as [|n IH]; [reflexivity|].
  rewrite steps_S, Hstep. exact IH.
Qed.

(** One time step, [k] steps having been made since the scene graph was
    built from [sys]. *)
Lemma doTimeStep_poses (app : ChVSGApp) (sys : ChSystem) (pre : list dmat4)
    (k : nat) :
  nodes_carry_values ->
  (forall dt s, skeleton (DoStepDynamics dt s) = skeleton s) ->
  NoDup (skeleton sys) ->
  0 <= m_wait_counter_max app < 2 ^ 64 - 1 ->
  let dt := m_timeStep app in
  let wait_max := m_wait_counter_max app in
  m_system app = Some (steps k dt sys) ->
  m_scenegraph app
  = Some (entry_nodes (List.length pre) (system_shapes (Get_bodylist sys))) ->
  m_transforms app
  = pre ++ map entry_matrix
             (system_shapes (Get_bodylist (steps (shown_step wait_max k) dt sys))) ->
  m_wait_counter app = counter_after wait_max (Z.of_nat k) ->
  exists app',
    doTimeStep app = Some app'
    /\ m_timeStep app' = dt /\ m_wait_counter_max app' = wait_max
    /\ m_system app' = Some (steps (S k) dt sys)
    /\ m_scenegraph app' = m_scenegraph app
    /\ m_transforms app'
       = pre ++ map entry_matrix
                  (system_shapes
                     (Get_bodylist (steps (shown_step wait_max (S k)) dt sys)))
    /\ m_wait_counter app' = counter_after wait_max (Z.of_nat (S k)).
Proof.
  intros Hcarry Hstep Hnd HM dt wait_max Hs Hc Ht Hcnt.
  destruct (counter_step wait_max (Z.of_nat k) ltac:(lia) HM) as [Heq Hnext].
  cbv zeta in Hnext.
  rewrite (shown_step_S wait_max k ltac:(lia)), Nat2Z.inj_succ.
  unfold Z.succ. unfold doTimeStep. rewrite Hs. cbn [bind].
  cbn [m_wait_counter m_wait_counter_max set_calls set_m_system].
  fold wait_max. fold dt. rewrite Hcnt, Heq.
  destruct (multiple_of wait_max (Z.of_nat k + 1)).
  - match goal with
    | |- context [UpdateSceneGraph ?a] =>
        rewrite (UpdateSceneGraph_entry_nodes a sys
                   (DoStepDynamics dt (steps k dt sys)) [] pre
                   (map entry_matrix
                      (system_shapes
                         (Get_bodylist (steps (shown_step wait_max k) dt sys))))
                   [] Hcarry)
    end.
    + cbn [bind]. eexists. split; [reflexivity|].
      rewrite IncreaseWaitCounter_eq.
      cbn [m_wait_counter m_wait_counter_max set_calls set_m_system
           set_m_transforms set_m_wait_counter m_system m_scenegraph
           m_transforms m_timeStep].
      fold wait_max. rewrite Hcnt, Hnext, steps_S, app_nil_r.
      repeat split; reflexivity.
    + reflexivity.
    + cbn [m_scenegraph set_calls set_m_system]. rewrite Hc, app_nil_r.
      reflexivity.
    + cbn [m_transforms set_calls set_m_system]. rewrite Ht, app_nil_r.
      reflexivity.
    + rewrite length_map.
      rewrite <- (length_map entry_pointers
                    (system_shapes
                       (Get_bodylist (steps (shown_step wait_max k) dt sys)))),
              <- (length_map entry_pointers
                    (system_shapes (Get_bodylist sys))).
      change (List.length (skeleton (steps (shown_step wait_max k) dt sys))
              = List.length (skeleton sys)).
      rewrite (steps_skeleton _ _ _ Hstep). reflexivity.
    + rewrite Hstep. apply (steps_skeleton _ _ _ Hstep).
    + exact Hnd.
  - cbn [bind]. eexists. split; [reflexivity|].
    rewrite IncreaseWaitCounter_eq.
    cbn [m_wait_counter m_wait_counter_max set_calls set_m_system
         set_m_transforms set_m_wait_counter m_system m_scenegraph
         m_transforms m_timeStep].
    fold wait_max. rewrite Hcnt, Hnext, steps_S.
    repeat split; try reflexivity; assumption.
Qed.

Lemma doTimeSteps_poses (n : nat) :
  forall (app : ChVSGApp) (sys : ChSystem) (pre : list dmat4) (k : nat),
  nodes_carry_values ->
  (forall dt s, skeleton (DoStepDynamics dt s) = skeleton s) ->
  NoDup (skeleton sys) ->
  0 <= m_wait_counter_max app < 2 ^ 64 - 1 ->
  m_system app = Some (steps k (m_timeStep app) sys) ->
  m_scenegraph app
  = Some (entry_nodes (List.length pre) (system_shapes (Get_bodylist sys))) ->
  m_transforms app
  = pre ++ map entry_matrix
             (system_shapes
                (Get_bodylist
                   (steps (shown_step (m_wait_counter_max app) k)
                          (m_timeStep app) sys))) ->
  m_wait_counter app = counter_after (m_wait_counter_max app) (Z.of_nat k) ->
  exists app',
    doTimeSteps n app = Some app'
    /\ m_system app' = Some (steps (k + n) (m_timeStep app) sys)
    /\ m_transforms app'
       = pre ++ map entry_matrix
                  (system_shapes
                     (Get_bodylist
                        (steps (shown_step (m_wait_counter_max app) (k + n))
                               (m_timeStep app) sys))).
Proof.
  induction n as [|n IH]; intros app sys pre k Hcarry Hstep Hnd HM Hs Hc Ht Hcnt.
  - exists app. rewrite Nat.add_0_r. repeat split; assumption.
  - destruct (doTimeStep_poses app sys pre k Hcarry Hstep Hnd HM Hs Hc Ht Hcnt)
      as (app1 & H1 & Hdt & HM1 & Hs1 & Hc1 & Ht1 & Hcnt1).
    destruct (IH app1 sys pre (S k) Hcarry Hstep Hnd) as (app' & Hn & Hs' & Ht').
    + rewrite HM1. exact HM.
    + rewrite Hdt. exact Hs1.
    + rewrite Hc1. exact Hc.
    + rewrite HM1, Hdt. exact Ht1.
    + rewrite HM1. exact Hcnt1.
    + exists app'. cbn [doTimeSteps]. rewrite H1. cbn [bind].
      split; [exact Hn|].
      rewrite Hdt, HM1 in *.
      replace (k + S n)%nat with (S k + n)%nat by lia.
      split; assumption.
Qed.

(** X20. [BuildSceneGraph] on an empty scene graph with the counter at 1,
    followed by [n] calls of [doTimeStep], bodies and assets staying the
    same distinct objects and the assets being visualization assets: the
    calls return, the system has made [n] dynamics steps, and the
    transforms hold the poses the bodies had after the last step whose
    number is a multiple of [m_wait_counter_max] (the poses of the build
    when there was no such step). *)
Theorem doTimeSteps_shown_poses (app : ChVSGApp) (sys : ChSystem) (n : nat) :
  nodes_carry_values ->
  (forall dt s, skeleton (DoStepDynamics dt s) = skeleton s) ->
  NoDup (skeleton sys) ->
  visualization_only (Get_bodylist sys) = true ->
  m_system app = Some sys -> m_scenegraph app = Some [] ->
  m_wait_counter app = 1 ->
  0 <= m_wait_counter_max app < 2 ^ 64 - 1 ->
  exists app1 app2,
    BuildSceneGraph app = Some app1
    /\ doTimeSteps n app1 = Some app2
    /\ m_system app2 = Some (steps n (m_timeStep app) sys)
    /\ m_transforms app2
       = m_transforms app
         ++ map entry_matrix
              (system_shapes
                 (Get_bodylist
                    (steps (shown_step (m_wait_counter_max app) n)
                           (m_timeStep app) sys))).
Proof.
  intros Hcarry Hstep Hnd Hvis Hs Hc Hcnt HM.
  eexists.
  destruct (doTimeSteps_poses n
              (set_m_build_graph false
                 (set_m_scenegraph
                    (Some ([] ++ entry_nodes (List.length (m_transforms app))
                                    (system_shapes (Get_bodylist sys))))
                    (set_m_transforms
                       (m_transforms app
                        ++ map entry_matrix (system_shapes (Get_bodylist sys)))
                       app)))
              sys (m_transforms app) 0%nat Hcarry Hstep Hnd)
    as (app2 & Hn & Hs2 & Ht2).
  - exact HM.
  - exact Hs.
  - reflexivity.
  - cbn [m_transforms set_m_build_graph set_m_scenegraph set_m_transforms
         m_wait_counter_max m_timeStep].
    unfold shown_step. change (Z.of_nat 0) with 0.
    rewrite Zdiv_0_l, Z.mul_0_r. reflexivity.
  - cbn [m_wait_counter set_m_build_graph set_m_scenegraph set_m_transforms
         m_wait_counter_max].
    rewrite Hcnt. unfold counter_after.
    destruct (m_wait_counter_max app =? 0) eqn:E; [reflexivity|].
    rewrite Zmod_0_l. reflexivity.
  - exists app2. split; [apply (BuildSceneGraph_spec app sys [] Hs Hc Hvis)|].
    split; [exact Hn|]. split; [exact Hs2|exact Ht2].
Qed.

End PosesShown.

Lemma asset_shapes_pointers (b b' : ChBody) (init init' : ShapeInit)
    (assets : list ChAsset) :
  body_ptr b = body_ptr b' ->
  map entry_pointers (@asset_shapes Textbook.math b init assets)
  = map entry_pointers (@asset_shapes Textbook.math b' init' assets).
Proof.
  intro Hb. induction assets as [|a assets IH]; [reflexivity|].
  rewrite (asset_shapes_cons b init a assets),
          (asset_shapes_cons b' init' a assets), !map_app, IH.
  f_equal. unfold asset_shapes. simpl.
  destruct (shape_of (asset_class a)) as [[[cls vis] size]|]; [|reflexivity].
  simpl. unfold entry_pointers. simpl. rewrite Hb. reflexivity.
Qed.

(** The moving step keeps the bodies and their assets. *)
Lemma advance_skeleton (step : double) (sys : ChSystem) :
  @skeleton Textbook.math (@DoStepDynamics ExampleSteps.ext_moving step sys)
  = @skeleton Textbook.math sys.
Proof.
  unfold skeleton. cbn [DoStepDynamics ExampleSteps.ext_moving Get_bodylist].
  induction (Get_bodylist sys) as [|b bodies IH]; [reflexivity|].
  cbn [map].
  change (@system_shapes Textbook.math
            (ExampleSteps.advance step b
             :: map (ExampleSteps.advance step) bodies))
    with (@asset_shapes Textbook.math (ExampleSteps.advance step b)
            (shape_Initialize (body_material (ExampleSteps.advance step b)))
            (GetAssets b)
          ++ @system_shapes Textbook.math
               (map (ExampleSteps.advance step) bodies)).
  change (@system_shapes Textbook.math (b :: bodies))
    with (@asset_shapes Textbook.math b (shape_Initialize (body_material b))
            (GetAssets b)
          ++ @system_shapes Textbook.math bodies).
  rewrite !map_app. f_equal; [|exact IH].
  apply (asset_shapes_pointers (ExampleSteps.advance step b) b). reflexivity.
Qed.

(** The scene of the example under a step that moves the body, with
    three wait states: after seven steps the transforms hold the poses
    after the sixth, which are neither those of the build nor those after
    the seventh. *)
Lemma doTimeSteps_shown_poses_witness :
  exists app1 app2,
    @BuildSceneGraph Textbook.math ExampleSteps.ext_moving
      ExampleSteps.app_third = Some app1
    /\ @doTimeSteps Textbook.math ExampleSteps.ext_moving 7 app1 = Some app2
    /\ m_system app2
       = Some (@steps ExampleSteps.ext_moving 7 Double.lit_0_001
                 Example.system1)
    /\ m_transforms app2
       = map (@entry_matrix Textbook.math)
             (@system_shapes Textbook.math
                (Get_bodylist
                   (@steps ExampleSteps.ext_moving 6 Double.lit_0_001
                      Example.system1)))
    /\ m_transforms app2 <> m_transforms app1
    /\ m_transforms app2
       <> map (@entry_matrix Textbook.math)
              (@system_shapes Textbook.math
                 (Get_bodylist
                    (@steps ExampleSteps.ext_moving 7 Double.lit_0_001
                       Example.system1))).
Proof.
  destruct (@doTimeSteps_shown_poses Textbook.math ExampleSteps.ext_moving
              ExampleSteps.app_third Example.system1 7)
    as (app1 & app2 & Hb & Hn & Hs & Ht).
  - intro shape. reflexivity.
  - exact advance_skeleton.
  - exact example_skeleton_NoDup.
  - reflexivity.
  - reflexivity.
  - reflexivity.
  - reflexivity.
  - vm_compute. split; [discriminate|reflexivity].
  - exists app1, app2. split; [exact Hb|]. split; [exact Hn|].
    split; [exact Hs|]. split; [exact Ht|].
    assert (H1 : app1 = ExampleSteps.app_third_built)
      by (unfold ExampleSteps.app_third_built; rewrite Hb; reflexivity).
    rewrite Ht, H1. split.
    + vm_compute. intro H. discriminate H.
    + vm_compute. intro H. discriminate H.
Defined.
